(** * TheHaydenSphere backend v3: the encrypted, versioned note store

    A shallow embedding of the note-blob core of [src/node.js]: the AES-GCM
    and key-derivation helpers, the PIN set-up handler, the create-note
    handler, the version listing and the decrypt helper endpoint.

    JavaScript values are the inductive [jsval]; the file system under
    [./data] is a record of finite maps; the handlers are computations in a
    state-and-exception monad over that record.  The Node.js, zlib, bcrypt
    and JSON library routines the handlers call are the members of the class
    [NodeLib]; the clock, the random source and the uuid generator are
    oracles carried by the world. *)

From Stdlib Require Import ZArith String Ascii List Lia.
From Stdlib.Strings Require Import Byte.
From stdpp Require Import base option strings list gmap sorting pretty.

Set Warnings "-register-all".

Open Scope string_scope.
Open Scope Z_scope.

(** ** JavaScript values

    The values a JSON body can hold, and [undefined].  Numbers are the
    integers (time stamps, lengths, status codes: no fraction and no NaN
    occurs in the code modelled).  A string is given by its UTF-8 encoding,
    the bytes [Buffer.from(s, 'utf8')] makes of it and the hash functions
    read; its [length] and its place in a sorted array are those of its
    UTF-16 code units, as JavaScript has them ([utf16_length], [str_le]);
    a string with an unpaired surrogate, which has no such encoding, is
    not among the values.
    An object is its list of members, read from the front: the first member
    with a given name is the one a property read finds, so putting a member
    in front sets the property. *)

Inductive jsval :=
| JUndefined
| JNull
| JBool (b : bool)
| JNum (n : Z)
| JStr (s : string)
| JArr (xs : list jsval)
| JObj (fields : list (string * jsval)).

Abbreviation Buffer := (list byte).

Global Instance byte_eq_decision : EqDecision byte := Byte.byte_eq_dec.

(** ToBoolean. *)
Definition truthy (v : jsval) : bool :=
  match v with
  | JUndefined | JNull => false
  | JBool b => b
  | JNum n => negb (Z.eqb n 0)
  | JStr s => negb (String.eqb s "")
  | JArr _ | JObj _ => true
  end.

(** [a || b] *)
Definition js_or (a b : jsval) : jsval := if truthy a then a else b.

(** A destructuring default [{ x = d }] replaces [undefined] only. *)
Definition js_default (d v : jsval) : jsval :=
  match v with JUndefined => d | _ => v end.

Fixpoint assoc (k : string) (fs : list (string * jsval)) : jsval :=
  match fs with
  | [] => JUndefined
  | (k', v) :: fs' => if String.eqb k k' then v else assoc k fs'
  end.

(** [v.k] for the own data properties of a JSON value.  Reading a property
    of a primitive gives [undefined]; the source reads properties of
    [null]/[undefined] nowhere (every read sits behind [x && x.k] or
    [x || {}]). *)
Definition get_prop (v : jsval) (k : string) : jsval :=
  match v with
  | JObj fs => assoc k fs
  | _ => JUndefined
  end.

(** [v === 'lit'] *)
Definition js_is_string (v : jsval) (lit : string) : bool :=
  match v with JStr s => String.eqb s lit | _ => false end.

(** The UTF-16 code units of the character a byte of UTF-8 begins: one for
    a character of up to three bytes, two (a surrogate pair) for one of
    four bytes, none for a byte that continues a character. *)
Definition utf16_units (c : ascii) : nat :=
  let n := N_of_ascii c in
  if (n <? 128)%N then 1
  else if (n <? 192)%N then 0
  else if (n <? 240)%N then 1
  else 2.

(** [s.length]: the number of UTF-16 code units of the string. *)
Fixpoint utf16_length (s : string) : nat :=
  match s with
  | EmptyString => 0
  | String c r => utf16_units c + utf16_length r
  end.

(** [v.length] *)
Definition js_length (v : jsval) : jsval :=
  match v with
  | JStr s => JNum (Z.of_nat (utf16_length s))
  | JArr xs => JNum (Z.of_nat (List.length xs))
  | JObj fs => assoc "length" fs
  | _ => JUndefined
  end.

(** ** Completions, the world, the handler monad *)

Inductive completion (A : Type) :=
| Normal (a : A)
| Throw (message : string).
Arguments Normal {A} a.
Arguments Throw {A} message.

(** [data/meta.json] *)
Record MasterMeta := {
  createdAt : Z;
  version : string;
  pinHash : jsval;
  encryptionProfile : jsval
}.

(** One element of [data/notesIndex.json]. *)
Record NoteEntry := {
  n_id : jsval;
  n_title : jsval;
  n_type : jsval;
  n_tags : jsval;
  n_summary : jsval;
  n_createdAt : Z;
  n_updatedAt : Z
}.

(** One line of [data/history.log]. *)
Record HistoryEntry := {
  h_ts : Z;
  h_action : string;
  h_payload : jsval
}.

(** An entry of a [versions] directory: a regular file with its bytes, or
    a directory. *)
Inductive Entry :=
| File (data : Buffer)
| Directory.

(** [data/blobs/<name>]: the directory of a note either has no [versions]
    sub-directory yet, or has one, holding entries by name. *)
Abbreviation NoteDir := (option (gmap string Entry)).

(** What the handlers read and write: the files under [./data] (the meta
    file and the index hold valid JSON, as [writeIfMissing] leaves them at
    start-up), the secret the process signs tokens with, and the three
    sources of values the program does not compute, each with a count of
    how many values were taken from it.  [blobs] holds the entries of
    [data/blobs] by name; they are directories, since the program writes
    files into directories named [versions] only.  The readings of the
    clock are values of [Date.now()], whole milliseconds. *)
Record World := {
  metaFile : MasterMeta;
  notesIndex : list NoteEntry;
  blobs : gmap string NoteDir;
  historyLog : list HistoryEntry;
  JWT_SECRET : string;
  clock : nat → Z;
  ticks : nat;
  entropy : nat → byte;
  drawn : nat;
  uuids : nat → string;
  issued : nat
}.

(** ** Names of directory entries

    A name that [path.join] leaves as it is and that the file system takes
    for one entry of a directory: not empty, not [.] or [..], free of
    separators (the slash, and the backslash, byte 92) and of the NUL byte,
    at most 255 bytes long.  For an identifier [nid] that is such a name,
    [path.join(BLOBS_DIR, nid)] is the entry [nid] of [data/blobs], and
    different names are different entries (the file system is taken to tell
    names apart by their bytes).  For other identifiers the path leads
    elsewhere, or the file system refuses it: the handlers of the note
    store are modelled for plain names, and a statement about them assumes
    [plain_name] of the identifiers and file names a request gives.  The
    file names the program makes itself, of a clock reading and
    [.json.gz], are plain names ([file_at_plain]). *)
Fixpoint no_separator (s : string) : bool :=
  match s with
  | EmptyString => true
  | String c r =>
      negb (Ascii.eqb c "/") && negb (Ascii.eqb c "092") && negb (Ascii.eqb c "000")
      && no_separator r
  end.

Definition plain_name (s : string) : bool :=
  negb (String.eqb s "") && negb (String.eqb s ".") && negb (String.eqb s "..")
  && no_separator s && (String.length s <=? 255)%nat.

Definition M (A : Type) : Type := World → completion A * World.

Global Instance M_ret : MRet M := λ A a w, (Normal a, w).
Global Instance M_bind : MBind M := λ A B f m w,
  match m w with
  | (Normal a, w') => f a w'
  | (Throw e, w') => (Throw e, w')
  end.

Definition throw {A} (e : string) : M A := λ w, (Throw e, w).
Definition lift {A} (c : completion A) : M A := λ w, (c, w).

(** [try { body } catch (e) { handler(e) }] *)
Definition try_catch {A} (body : M A) (handler : string → M A) : M A := λ w,
  match body w with
  | (Normal a, w') => (Normal a, w')
  | (Throw e, w') => handler e w'
  end.

Definition gets {A} (f : World → A) : M A := λ w, (Normal (f w), w).
Definition modify (f : World → World) : M unit := λ w, (Normal tt, f w).

(** ** World updates *)

Definition set_metaFile (m : MasterMeta) (w : World) : World :=
  {| metaFile := m; notesIndex := notesIndex w; blobs := blobs w;
     historyLog := historyLog w; JWT_SECRET := JWT_SECRET w;
     clock := clock w; ticks := ticks w; entropy := entropy w;
     drawn := drawn w; uuids := uuids w; issued := issued w |}.

Definition set_notesIndex (ns : list NoteEntry) (w : World) : World :=
  {| metaFile := metaFile w; notesIndex := ns; blobs := blobs w;
     historyLog := historyLog w; JWT_SECRET := JWT_SECRET w;
     clock := clock w; ticks := ticks w; entropy := entropy w;
     drawn := drawn w; uuids := uuids w; issued := issued w |}.

Definition set_blobs (b : gmap string NoteDir) (w : World) : World :=
  {| metaFile := metaFile w; notesIndex := notesIndex w; blobs := b;
     historyLog := historyLog w; JWT_SECRET := JWT_SECRET w;
     clock := clock w; ticks := ticks w; entropy := entropy w;
     drawn := drawn w; uuids := uuids w; issued := issued w |}.

Definition set_historyLog (h : list HistoryEntry) (w : World) : World :=
  {| metaFile := metaFile w; notesIndex := notesIndex w; blobs := blobs w;
     historyLog := h; JWT_SECRET := JWT_SECRET w;
     clock := clock w; ticks := ticks w; entropy := entropy w;
     drawn := drawn w; uuids := uuids w; issued := issued w |}.

Definition set_ticks (n : nat) (w : World) : World :=
  {| metaFile := metaFile w; notesIndex := notesIndex w; blobs := blobs w;
     historyLog := historyLog w; JWT_SECRET := JWT_SECRET w;
     clock := clock w; ticks := n; entropy := entropy w;
     drawn := drawn w; uuids := uuids w; issued := issued w |}.

Definition set_drawn (n : nat) (w : World) : World :=
  {| metaFile := metaFile w; notesIndex := notesIndex w; blobs := blobs w;
     historyLog := historyLog w; JWT_SECRET := JWT_SECRET w;
     clock := clock w; ticks := ticks w; entropy := entropy w;
     drawn := n; uuids := uuids w; issued := issued w |}.

Definition set_issued (n : nat) (w : World) : World :=
  {| metaFile := metaFile w; notesIndex := notesIndex w; blobs := blobs w;
     historyLog := historyLog w; JWT_SECRET := JWT_SECRET w;
     clock := clock w; ticks := ticks w; entropy := entropy w;
     drawn := drawn w; uuids := uuids w; issued := n |}.

(** ** Oracles *)

(** [Date.now()] *)
Definition Date_now : M Z := λ w,
  (Normal (clock w (ticks w)), set_ticks (S (ticks w)) w).

(** [crypto.randomBytes(n)] *)
Definition randomBytes (n : nat) : M Buffer := λ w,
  (Normal (map (λ i, entropy w (drawn w + i)%nat) (seq 0 n)),
   set_drawn (drawn w + n)%nat w).

(** [uuidv4()] *)
Definition uuidv4 : M string := λ w,
  (Normal (uuids w (issued w)), set_issued (S (issued w)) w).

(** ** The library interface

    What the source calls and does not define.  Every routine that can throw
    returns a [completion].  Byte strings are [Buffer]s; JavaScript strings
    are [string]s, so [Buffer.from(s, 'utf8')] is [list_byte_of_string] and
    [buf.toString('utf8')] is [string_of_list_byte]. *)

Class NodeLib := {
  (** [bcrypt.hash] with the salt it draws made explicit, [bcrypt.compare] *)
  bcrypt_hash : Buffer → string → Z → string;
  bcrypt_compare : string → string → bool;
  (** [crypto.pbkdf2(password, salt, iterations, keylen, digest, cb)] *)
  pbkdf2 : string → Buffer → Z → nat → string → completion Buffer;
  (** [crypto.scryptSync(password, salt, keylen)] *)
  scryptSync : string → string → nat → completion Buffer;
  (** [createCipheriv('aes-256-gcm', key, iv)], [update], [final],
      [getAuthTag]: the encrypted bytes and the tag *)
  aes_256_gcm_seal : Buffer → Buffer → Buffer → completion (Buffer * Buffer);
  (** [createDecipheriv('aes-256-gcm', key, iv)], [setAuthTag], [update],
      [final], on key, iv, encrypted bytes and tag *)
  aes_256_gcm_open : Buffer → Buffer → Buffer → Buffer → completion Buffer;
  (** [createHash('sha256').update(s).digest('hex')] on a string *)
  sha256_hex : string → string;
  (** [buf.toString('base64')], [Buffer.from(s, 'base64')] *)
  base64_encode : Buffer → string;
  base64_decode : string → Buffer;
  (** [Buffer.from(v, enc)] on an array or an object *)
  Buffer_from_object : jsval → completion Buffer;
  (** [zlib.gzipSync], [zlib.gunzipSync] *)
  gzipSync : Buffer → completion Buffer;
  gunzipSync : Buffer → completion Buffer;
  (** [JSON.stringify], [JSON.parse] *)
  JSON_stringify : jsval → string;
  JSON_parse : string → completion jsval;
  (** ToNumber on strings, arrays and objects; [None] is NaN *)
  ToNumber : jsval → option Z
}.

Global Instance completion_ret : MRet completion := λ A a, Normal a.
Global Instance completion_bind : MBind completion := λ A B f c,
  match c with
  | Normal a => f a
  | Throw e => Throw e
  end.

(** The message of the TypeError that [Buffer.from], [hash.update] and
    [crypto.pbkdf2] throw on an argument of the wrong type, abridged. *)
Definition ERR_INVALID_ARG_TYPE : string :=
  "The argument must be of type string or an instance of Buffer".

(** [Buffer.from(v, encoding)], [decode] being the decoder of the encoding. *)
Definition Buffer_from `{NodeLib} (v : jsval) (decode : string → Buffer)
  : completion Buffer :=
  match v with
  | JStr s => Normal (decode s)
  | JArr _ | JObj _ => Buffer_from_object v
  | JUndefined | JNull | JBool _ | JNum _ => Throw ERR_INVALID_ARG_TYPE
  end.

Definition clamp_index (len i : Z) : Z :=
  if i <? 0 then Z.max (len + i) 0 else Z.min i len.

(** [buf.slice(start, end)]: negative indices count from the end. *)
Definition Buffer_slice (buf : Buffer) (start stop : Z) : Buffer :=
  let len := Z.of_nat (length buf) in
  let s := clamp_index len start in
  let e := clamp_index len stop in
  take (Z.to_nat (e - s)) (drop (Z.to_nat s) buf).

(** [buf.slice(start)] *)
Definition Buffer_slice_from (buf : Buffer) (start : Z) : Buffer :=
  Buffer_slice buf start (Z.of_nat (length buf)).

(** [a < n] for a number literal [n]. *)
Definition js_lt_num `{NodeLib} (a : jsval) (n : Z) : bool :=
  match a with
  | JNum m => m <? n
  | JUndefined => false
  | JNull => 0 <? n
  | JBool b => (if b then 1 else 0) <? n
  | JStr _ | JArr _ | JObj _ =>
      match ToNumber a with Some m => m <? n | None => false end
  end.

(** ** Utilities of the source *)

Section Source.
Context `{NodeLib}.

Definition BCRYPT_ROUNDS : Z := 12.

Definition append_history (e : HistoryEntry) : M unit :=
  modify (λ w, set_historyLog (historyLog w ++ [e])%list w).

(** [logHistory]; pushing to the SSE clients writes to sockets only. *)
Definition logHistory (action : string) (payload : jsval) : M unit :=
  ts ← Date_now;
  append_history {| h_ts := ts; h_action := action; h_payload := payload |}.

Definition id (prefix : string) : M string :=
  u ← uuidv4; mret (prefix +:+ u).

Definition now : M Z := Date_now.

Definition sha256Hex (input : jsval) : completion string :=
  match input with
  | JStr s => Normal (sha256_hex s)
  | _ => Throw ERR_INVALID_ARG_TYPE
  end.

Definition PIN_SALT : Buffer := list_byte_of_string "TheHaydenSphereSaltV3".
Definition PBKDF2_ITERATIONS : Z := 200000.
Definition KEY_BYTES : nat := 32.

(** [deriveKeyFromPin]: the promise resolves with the key or rejects. *)
Definition deriveKeyFromPin (pin : jsval) : M Buffer :=
  let salt := PIN_SALT in
  match pin with
  | JStr s => lift (pbkdf2 s salt PBKDF2_ITERATIONS KEY_BYTES "sha256")
  | _ => throw ERR_INVALID_ARG_TYPE
  end.

Record Sealed := { ciphertext : string; iv : string }.

Definition aesGcmEncrypt (keyBuf plaintextBuffer : Buffer) : M Sealed :=
  iv ← randomBytes 12;
  '(enc, tag) ← lift (aes_256_gcm_seal keyBuf iv plaintextBuffer);
  mret {| ciphertext := base64_encode (enc ++ tag)%list; iv := base64_encode iv |}.

Definition aesGcmDecrypt (keyBuf : Buffer) (ciphertextBase64 ivBase64 : jsval)
  : completion Buffer :=
  buffer ← Buffer_from ciphertextBase64 base64_decode;
  iv ← Buffer_from ivBase64 base64_decode;
  let tag := Buffer_slice_from buffer (Z.of_nat (length buffer) - 16) in
  let ciphertext := Buffer_slice buffer 0 (Z.of_nat (length buffer) - 16) in
  aes_256_gcm_open keyBuf iv ciphertext tag.

Definition gzipBufferSync (buf : Buffer) : completion Buffer := gzipSync buf.
Definition gunzipBufferSync (buf : Buffer) : completion Buffer := gunzipSync buf.

(** ** Responses *)

Record Response := { status : Z; body : jsval }.

(** [res.status(c).json(v)] and [res.json(v)] *)
Definition reply (c : Z) (v : jsval) : M Response :=
  mret {| status := c; body := v |}.

(** ** POST /api/v3/auth/setup-pin *)

(** [bcrypt.hash(data, rounds)]: rejects unless the data is a string. *)
Definition bcrypt_hash_async (data : jsval) (rounds : Z) : M string :=
  match data with
  | JStr s => salt ← randomBytes 16; mret (bcrypt_hash salt s rounds)
  | _ => throw "data must be a string or Buffer"
  end.

(** [bcrypt.compare(data, hash)] *)
Definition bcrypt_compare_async (data hash : jsval) : M bool :=
  match data, hash with
  | JStr d, JStr h => mret (bcrypt_compare d h)
  | _, _ => throw "data and hash must be strings"
  end.

Definition with_pinHash (h : jsval) (m : MasterMeta) : MasterMeta :=
  {| createdAt := createdAt m; version := version m; pinHash := h;
     encryptionProfile := encryptionProfile m |}.

Definition setup_pin (reqBody : jsval) : M Response :=
  let b := js_or reqBody (JObj []) in
  let pin := get_prop b "pin" in
  let currentPin := get_prop b "currentPin" in
  if negb (truthy pin) || js_lt_num (js_length pin) 6 then
    reply 400 (JObj [("error", JStr "pin required (min 6 chars recommended)")])
  else
    meta ← gets metaFile;
    if negb (truthy (pinHash meta)) then
      hash ← bcrypt_hash_async pin BCRYPT_ROUNDS;
      modify (set_metaFile (with_pinHash (JStr hash) meta));;
      t ← Date_now;
      logHistory "auth.setupPin" (JObj [("createdAt", JNum t)]);;
      reply 200 (JObj [("ok", JBool true); ("message", JStr "PIN created")])
    else
      if negb (truthy currentPin) then
        reply 400 (JObj [("error", JStr "currentPin required to change pin")])
      else
        ok ← bcrypt_compare_async currentPin (pinHash meta);
        if negb ok then
          reply 403 (JObj [("error", JStr "invalid currentPin")])
        else
          hash ← bcrypt_hash_async pin BCRYPT_ROUNDS;
          modify (set_metaFile (with_pinHash (JStr hash) meta));;
          t ← Date_now;
          logHistory "auth.changePin" (JObj [("ts", JNum t)]);;
          reply 200 (JObj [("ok", JBool true); ("message", JStr "PIN changed")]).

(** ** Notes metadata and versioned blobs *)

Definition loadNotesIndex : M (list NoteEntry) := gets notesIndex.

Definition saveNotesIndex (arr : list NoteEntry) : M unit :=
  modify (set_notesIndex arr);;
  logHistory "notes.index.update"
    (JObj [("count", JNum (Z.of_nat (length arr)))]).

Definition entry_json (e : NoteEntry) : jsval :=
  JObj [("id", n_id e); ("title", n_title e); ("type", n_type e);
        ("tags", n_tags e); ("summary", n_summary e);
        ("createdAt", JNum (n_createdAt e));
        ("updatedAt", JNum (n_updatedAt e))].

(** [path.join(BLOBS_DIR, nid)]: for an identifier that is a plain name
    ([plain_name]), the entry of [data/blobs] of that name; anything but a
    string makes [path.join] throw. *)
Definition path_join_BLOBS_DIR (nid : jsval) : completion string :=
  match nid with
  | JStr s => Normal s
  | _ => Throw "The path argument must be of type string"
  end.

(** [if (!fs.existsSync(noteDir)) fs.mkdirSync(noteDir, { recursive: true })]
    for the entry [noteDir] of [data/blobs], a plain name: the directory is
    there, or is made. *)
Definition ensure_noteDir (noteDir : string) : M unit :=
  modify (λ w, match blobs w !! noteDir with
               | Some _ => w
               | None => set_blobs (<[noteDir := None]> (blobs w)) w
               end).

(** [if (!fs.existsSync(verPath)) fs.mkdirSync(verPath)] *)
Definition ensure_verPath (noteDir : string) : M unit := λ w,
  match blobs w !! noteDir with
  | Some (Some _) => (Normal tt, w)
  | Some None => (Normal tt, set_blobs (<[noteDir := Some ∅]> (blobs w)) w)
  | None => (Throw "ENOENT: no such file or directory, mkdir", w)
  end.

(** [data/blobs/<nid>/versions] when [fs.existsSync] finds it. *)
Definition existing_verDir (nid : string) (w : World)
  : option (gmap string Entry) :=
  match blobs w !! nid with
  | Some (Some dir) => Some dir
  | _ => None
  end.

(** [fs.writeFileSync(path.join(verPath, name), data)]: the file is made or
    replaced; a directory of that name is in the way. *)
Definition writeFileSync (noteDir name : string) (data : Buffer) : M unit := λ w,
  match blobs w !! noteDir with
  | Some (Some dir) =>
      match dir !! name with
      | Some Directory =>
          (Throw "EISDIR: illegal operation on a directory, open", w)
      | _ =>
          (Normal tt,
           set_blobs (<[noteDir := Some (<[name := File data]> dir)]> (blobs w)) w)
      end
  | _ => (Throw "ENOENT: no such file or directory, open", w)
  end.

(** [fs.readFileSync(path.join(verDir, f))] *)
Definition readFileSync (dir : gmap string Entry) (f : string)
  : completion Buffer :=
  match dir !! f with
  | Some (File data) => Normal data
  | Some Directory => Throw "EISDIR: illegal operation on a directory, read"
  | None => Throw "ENOENT: no such file or directory, open"
  end.

(** [`${t}.json.gz`] *)
Definition version_filename (t : Z) : string := pretty t +:+ ".json.gz".

Definition versionMeta (iv checksum mode meta : jsval) : jsval :=
  JObj [("iv", iv); ("checksum", checksum); ("mode", mode); ("meta", meta)].

Definition versionFile (ciphertext iv meta : jsval) : jsval :=
  JObj [("ciphertext", ciphertext); ("iv", iv); ("meta", meta)].

(** [gzipBufferSync(Buffer.from(JSON.stringify(v)))] *)
Definition version_bytes (v : jsval) : completion Buffer :=
  gzipBufferSync (list_byte_of_string (JSON_stringify v)).

(** The body of the [try] of the server-assisted branch. *)
Definition server_assisted_write (noteDir : string) (blob : jsval) : M unit :=
  secret ← gets JWT_SECRET;
  serverKey ← lift (scryptSync secret "server-key-salt-v3" 32);
  plain ← lift (Buffer_from (get_prop blob "plaintext") list_byte_of_string);
  gz ← lift (gzipBufferSync plain);
  enc ← aesGcmEncrypt serverKey gz;
  checksum ← lift (sha256Hex (JStr (ciphertext enc)));
  let vmeta := versionMeta (JStr (iv enc)) (JStr checksum)
                 (JStr "server-assisted")
                 (js_or (get_prop blob "meta") (JObj [])) in
  ensure_verPath noteDir;;
  t ← Date_now;
  data ← lift (version_bytes
                 (versionFile (JStr (ciphertext enc)) (JStr (iv enc)) vmeta));
  writeFileSync noteDir (version_filename t) data.

(** The client-ciphertext branch. *)
Definition client_write (noteDir : string) (blob profile : jsval) : M unit :=
  ensure_verPath noteDir;;
  checksum ← lift (sha256Hex (get_prop blob "ciphertext"));
  let vmeta := versionMeta (get_prop blob "iv") (JStr checksum) profile
                 (js_or (get_prop blob "meta") (JObj [])) in
  t ← Date_now;
  data ← lift (version_bytes
                 (versionFile (get_prop blob "ciphertext") (get_prop blob "iv")
                    vmeta));
  writeFileSync noteDir (version_filename t) data.

(** The two-way branch on the blob; [Some r] is the early [return] of the
    [catch], [None] falls through to the end of the handler. *)
Definition store_blob (noteDir : string) (blob profile : jsval)
  : M (option Response) :=
  if truthy blob && truthy (get_prop blob "plaintext")
     && js_is_string profile "server-assisted" then
    try_catch
      (server_assisted_write noteDir blob;; mret None)
      (λ e, r ← reply 500 (JObj [("error", JStr "server encryption failed")]);
            mret (Some r))
  else if truthy blob && truthy (get_prop blob "ciphertext")
          && truthy (get_prop blob "iv") then
    client_write noteDir blob profile;; mret None
  else mret None.

(** [encryptionMode || metaConf.encryptionProfile || 'client-only'] *)
Definition resolve_profile (encryptionMode : jsval) (metaConf : MasterMeta)
  : jsval :=
  js_or (js_or encryptionMode (encryptionProfile metaConf)) (JStr "client-only").

(** The head of the handler: the identifier, the index entry, and the entry
    saved at the front of the index. *)
Definition create_entry (b : jsval) : M (jsval * NoteEntry) :=
  let maybeId := get_prop b "id" in
  let title := get_prop b "title" in
  let type := js_default (JStr "general") (get_prop b "type") in
  let tags := js_default (JArr []) (get_prop b "tags") in
  let summary := js_default (JStr "") (get_prop b "summary") in
  nid ← (if truthy maybeId then mret maybeId
         else u ← id "n"; mret (JStr u));
  notes ← loadNotesIndex;
  c ← now;
  u ← now;
  let entry := {| n_id := nid; n_title := title; n_type := type;
                  n_tags := tags; n_summary := summary;
                  n_createdAt := c; n_updatedAt := u |} in
  saveNotesIndex (entry :: notes);;
  mret (nid, entry).

(** POST /api/v3/notes *)
Definition createNote (reqBody : jsval) : M Response :=
  let b := js_or reqBody (JObj []) in
  let title := get_prop b "title" in
  let blob := get_prop b "blob" in
  let encryptionMode := get_prop b "encryptionMode" in
  if negb (truthy title) then
    reply 400 (JObj [("error", JStr "title required")])
  else
    '(nid, entry) ← create_entry b;
    noteDir ← lift (path_join_BLOBS_DIR nid);
    ensure_noteDir noteDir;;
    metaConf ← gets metaFile;
    let profile := resolve_profile encryptionMode metaConf in
    early ← store_blob noteDir blob profile;
    match early with
    | Some r => mret r
    | None =>
        logHistory "notes.create"
          (JObj [("id", nid); ("title", title); ("profile", profile)]);;
        reply 200 (JObj [("ok", JBool true); ("note", entry_json entry)])
    end.

(** ** GET /api/v3/notes/:id/versions *)

(** The order of [sort()] on strings is that of their UTF-16 code units.
    On the UTF-8 encodings it is the order of the bytes, but for one
    exchange: the characters beyond U+FFFF, which UTF-16 writes with the
    surrogates D800 to DFFF and UTF-8 begins with the bytes F0 to F4, come
    before the characters from U+E000 to U+FFFF, which UTF-8 begins with
    EE and EF.  [utf16_rank] moves the first bytes accordingly, and the
    strings are compared byte by byte after it. *)
Definition utf16_rank (c : ascii) : ascii :=
  let n := N_of_ascii c in
  if (n <? 238)%N then c
  else if (n <? 240)%N then ascii_of_N (n + 5)
  else if (n <? 245)%N then ascii_of_N (n - 2)
  else c.

Fixpoint utf16_key (s : string) : string :=
  match s with
  | EmptyString => EmptyString
  | String c r => String (utf16_rank c) (utf16_key r)
  end.

Definition str_le (a b : string) : Prop :=
  String.leb (utf16_key a) (utf16_key b) = true.

Global Instance str_le_dec a b : Decision (str_le a b).
Proof. unfold str_le. apply _. Defined.

(** [arr.sort()] on strings: ascending by code unit. *)
Definition js_sort (l : list string) : list string := merge_sort str_le l.

(** [fs.readdirSync(dir)] *)
Definition readdirSync (dir : gmap string Entry) : list string :=
  (map_to_list dir).*1.

(** [s.split(sep)[0]]: the part of [s] before the first [sep]. *)
Fixpoint split_head (sep s : string) : string :=
  match s with
  | EmptyString => EmptyString
  | String c s' =>
      if String.prefix sep s then EmptyString else String c (split_head sep s')
  end.

Definition digit_of (c : ascii) : option Z :=
  let n := Z.of_N (N_of_ascii c) in
  if (48 <=? n) && (n <=? 57) then Some (n - 48) else None.

Definition is_digit (c : ascii) : bool :=
  match digit_of c with Some _ => true | None => false end.

Fixpoint all_digits (s : string) : bool :=
  match s with
  | EmptyString => true
  | String c s' => is_digit c && all_digits s'
  end.

Fixpoint parse_digits (acc : Z) (s : string) : option Z :=
  match s with
  | EmptyString => Some acc
  | String c s' =>
      match digit_of c with
      | Some d => parse_digits (10 * acc + d) s'
      | None => None
      end
  end.

(** [Number(s)] as [res.json] sends it: a run of decimal digits below 2^53
    is its value, the empty string is 0, NaN is sent as [null]; other
    spellings of numbers are left to [ToNumber]. *)
Definition Number (s : string) : jsval :=
  match parse_digits 0 s with
  | Some n => if n <? 2 ^ 53 then JNum n
              else from_option JNum JNull (ToNumber (JStr s))
  | None => from_option JNum JNull (ToNumber (JStr s))
  end.

(** What the [try]/[catch] of the listing extracts from one file. *)
Definition summary_meta (data : Buffer) : jsval :=
  match gunzipBufferSync data ≫= (λ raw, JSON_parse (string_of_list_byte raw)) with
  | Normal content => js_or (get_prop content "meta") JNull
  | Throw _ => JNull
  end.

(** The function mapped over the file names: reading the file is outside
    the [try], and throws on an entry that is a directory. *)
Definition version_summary (dir : gmap string Entry) (f : string)
  : completion jsval :=
  let ts := Number (split_head ".json.gz" f) in
  data ← readFileSync dir f;
  mret (JObj [("filename", JStr f); ("ts", ts); ("meta", summary_meta data)]).

(** [l.map(g)] for a [g] that may throw: the first throw ends the map. *)
Fixpoint map_throwing {A B} (g : A → completion B) (l : list A)
  : completion (list B) :=
  match l with
  | [] => Normal []
  | x :: r =>
      match g x with
      | Throw e => Throw e
      | Normal y =>
          match map_throwing g r with
          | Throw e => Throw e
          | Normal ys => Normal (y :: ys)
          end
      end
  end.

Definition listVersions (nid : string) : M Response :=
  verDir ← gets (existing_verDir nid);
  match verDir with
  | None => reply 404 (JObj [("error", JStr "no versions")])
  | Some dir =>
      let files := reverse (js_sort (readdirSync dir)) in
      versions ← lift (map_throwing (version_summary dir) files);
      reply 200 (JObj [("versions", JArr versions)])
  end.

(** ** POST /api/v3/enc/decrypt *)

Definition enc_decrypt (reqBody : jsval) : M Response :=
  let b := js_or reqBody (JObj []) in
  let keyBase64 := get_prop b "keyBase64" in
  let ciphertext := get_prop b "ciphertext" in
  let iv := get_prop b "iv" in
  if negb (truthy keyBase64) || negb (truthy ciphertext) || negb (truthy iv) then
    reply 400 (JObj [("error", JStr "key+ciphertext+iv required")])
  else
    try_catch
      (keyBuf ← lift (Buffer_from keyBase64 base64_decode);
       plainGz ← lift (aesGcmDecrypt keyBuf ciphertext iv);
       raw ← lift (gunzipBufferSync plainGz);
       json ← lift (JSON_parse (string_of_list_byte raw));
       reply 200 (JObj [("payload", json)]))
      (λ e, reply 500 (JObj [("error", JStr "decrypt failed");
                             ("detail", JStr e)])).

End Source.

(** * The other endpoints over the same files *)

(** [v.k] where [v] may be [null] or [undefined]: reading a property of
    either throws a TypeError.  The names read this way ([ciphertext],
    [iv], [meta], [type], [id], ...) are inherited by no primitive. *)
Definition member (v : jsval) (k : string) : completion jsval :=
  match v with
  | JUndefined | JNull => Throw "Cannot read properties of null or undefined"
  | _ => Normal (get_prop v k)
  end.

(** [s.split(sep)] for a separator of one character. *)
Fixpoint js_split (sep : ascii) (s : string) : list string :=
  match s with
  | EmptyString => [EmptyString]
  | String c r =>
      if Ascii.eqb c sep then EmptyString :: js_split sep r
      else match js_split sep r with
           | p :: ps => String c p :: ps
           | [] => [String c EmptyString]
           end
  end.

(** The [jsonwebtoken] package.  Both routines read the clock themselves:
    they are given the clock and the number of readings taken so far, and
    return the count after their own readings along with the token, the
    decoded payload, or the error thrown. *)
Class JwtLib := {
  (** [jwt.sign(payload, secret, { expiresIn })] *)
  jwt_sign : jsval → string → string → (nat → Z) → nat → completion string * nat;
  (** [jwt.verify(token, secret)] *)
  jwt_verify : jsval → string → (nat → Z) → nat → completion jsval * nat
}.

(** [process.env] *)
Class ProcessEnv := { getenv : string → option string }.

Section Endpoints.
Context `{NodeLib} `{JwtLib} `{ProcessEnv}.

(** [process.env.NAME || 'fallback'] *)
Definition env_or (name fallback : string) : string :=
  match getenv name with
  | Some s => if String.eqb s "" then fallback else s
  | None => fallback
  end.

Definition ACCESS_TOKEN_TTL : string := env_or "ACCESS_TOKEN_TTL" "1h".
Definition REFRESH_TOKEN_TTL : string := env_or "REFRESH_TOKEN_TTL" "7d".

(** A library call that reads the clock of the world. *)
Definition with_clock {A} (f : (nat → Z) → nat → completion A * nat) : M A :=
  λ w, let '(r, n) := f (clock w) (ticks w) in (r, set_ticks n w).

(** [jwt.sign(payload, JWT_SECRET, { expiresIn })] *)
Definition sign (payload : jsval) (expiresIn : string) : M string :=
  secret ← gets JWT_SECRET;
  with_clock (jwt_sign payload secret expiresIn).

(** [jwt.verify(token, JWT_SECRET)] *)
Definition verify (token : jsval) : M jsval :=
  secret ← gets JWT_SECRET;
  with_clock (jwt_verify token secret).

(** ** POST /api/v3/auth/login *)

Definition login (reqBody : jsval) : M Response :=
  let b := js_or reqBody (JObj []) in
  let pin := get_prop b "pin" in
  meta ← gets metaFile;
  if negb (truthy (pinHash meta)) then
    reply 400 (JObj [("error", JStr "PIN not set; call setup-pin first")])
  else if negb (truthy pin) then
    reply 400 (JObj [("error", JStr "pin required")])
  else
    matched ← bcrypt_compare_async pin (pinHash meta);
    if negb matched then
      reply 403 (JObj [("error", JStr "invalid pin")])
    else
      accessToken ← sign (JObj [("sub", JStr "default")]) ACCESS_TOKEN_TTL;
      refreshToken ← sign (JObj [("sub", JStr "default");
                                 ("type", JStr "refresh")]) REFRESH_TOKEN_TTL;
      t ← Date_now;
      logHistory "auth.login" (JObj [("ts", JNum t)]);;
      reply 200 (JObj [("accessToken", JStr accessToken);
                       ("refreshToken", JStr refreshToken);
                       ("expiresIn", JStr ACCESS_TOKEN_TTL)]).

(** ** POST /api/v3/auth/refresh *)

Definition refresh (reqBody : jsval) : M Response :=
  let b := js_or reqBody (JObj []) in
  let refreshToken := get_prop b "refreshToken" in
  if negb (truthy refreshToken) then
    reply 400 (JObj [("error", JStr "refreshToken required")])
  else
    try_catch
      (payload ← verify refreshToken;
       type ← lift (member payload "type");
       if negb (js_is_string type "refresh") then
         reply 400 (JObj [("error", JStr "invalid token")])
       else
         sub ← lift (member payload "sub");
         accessToken ← sign (JObj [("sub", sub)]) ACCESS_TOKEN_TTL;
         reply 200 (JObj [("accessToken", JStr accessToken);
                          ("expiresIn", JStr ACCESS_TOKEN_TTL)]))
      (λ _, reply 403 (JObj [("error", JStr "invalid refresh token")])).

(** ** The middleware [requireAuth]

    [authorization] is the header of the request, [next] the handler of the
    route.  [req.user] is read by no handler and is left out; reading
    [payload.sub] stays, since it throws on [null].  What the handler itself
    throws does not come back to the [catch] here: Express catches it in the
    layer that calls the handler. *)
Definition requireAuth (authorization : option string) (next : M Response)
  : M Response :=
  match authorization with
  | None => reply 401 (JObj [("error", JStr "no auth")])
  | Some auth =>
      if String.eqb auth "" then reply 401 (JObj [("error", JStr "no auth")])
      else
        let parts := js_split " " auth in
        if negb (Nat.eqb (length parts) 2)
           || negb (String.eqb (nth 0 parts EmptyString) "Bearer") then
          reply 400 (JObj [("error", JStr "bad auth header")])
        else
          let token := nth 1 parts EmptyString in
          verified ← try_catch
                       (payload ← verify (JStr token);
                        _ ← lift (member payload "sub");
                        mret true)
                       (λ _, mret false);
          if verified : bool then next
          else reply 401 (JObj [("error", JStr "invalid token")])
  end.

(** ** GET /api/v3/notes/:id/versions/:file

    For route parameters that are plain names ([plain_name]),
    [path.join(BLOBS_DIR, nid, 'versions', file)] is the entry [file] of
    the versions directory of [nid]; [fs.existsSync] finds a file or a
    directory.  The handler is synchronous and has no [try]: what it
    throws goes to Express. *)
Definition downloadVersion (nid file : string) : M Response :=
  verDir ← gets (existing_verDir nid);
  match verDir with
  | None => reply 404 (JObj [("error", JStr "not found")])
  | Some dir =>
      match dir !! file with
      | None => reply 404 (JObj [("error", JStr "not found")])
      | Some _ =>
          gz ← lift (readFileSync dir file);
          raw ← lift (gunzipBufferSync gz);
          payload ← lift (JSON_parse (string_of_list_byte raw));
          ciphertext ← lift (member payload "ciphertext");
          iv ← lift (member payload "iv");
          meta ← lift (member payload "meta");
          reply 200 (JObj [("ciphertext", ciphertext); ("iv", iv);
                           ("meta", meta)])
      end
  end.

(** ** DELETE /api/v3/notes/:id *)

(** [if (fs.existsSync(noteDir)) fs.rmSync(noteDir, { recursive: true, force: true })]
    for the entry [noteDir] of [data/blobs], a plain name. *)
Definition rmSync_noteDir (noteDir : string) : M unit :=
  modify (λ w, match blobs w !! noteDir with
               | Some _ => set_blobs (delete noteDir (blobs w)) w
               | None => w
               end).

Definition deleteNote (nid : string) : M Response :=
  notes ← loadNotesIndex;
  let notes := List.filter (λ n, negb (js_is_string (n_id n) nid)) notes in
  saveNotesIndex notes;;
  rmSync_noteDir nid;;
  logHistory "notes.delete" (JObj [("id", JStr nid)]);;
  reply 200 (JObj [("ok", JBool true)]).

(** ** POST /api/v3/enc/derive and /api/v3/enc/encrypt *)

Definition enc_derive (reqBody : jsval) : M Response :=
  let b := js_or reqBody (JObj []) in
  let pin := get_prop b "pin" in
  if negb (truthy pin) then
    reply 400 (JObj [("error", JStr "pin required")])
  else
    try_catch
      (key ← deriveKeyFromPin pin;
       reply 200 (JObj [("key", JStr (base64_encode key))]))
      (λ _, reply 500 (JObj [("error", JStr "derive failed")])).

Definition enc_encrypt (reqBody : jsval) : M Response :=
  let b := js_or reqBody (JObj []) in
  let keyBase64 := get_prop b "keyBase64" in
  let payload := get_prop b "payload" in
  if negb (truthy keyBase64) || negb (truthy payload) then
    reply 400 (JObj [("error", JStr "key & payload required")])
  else
    try_catch
      (keyBuf ← lift (Buffer_from keyBase64 base64_decode);
       let plain := list_byte_of_string (JSON_stringify payload) in
       gz ← lift (gzipBufferSync plain);
       enc ← aesGcmEncrypt keyBuf gz;
       checksum ← lift (sha256Hex (JStr (ciphertext enc)));
       reply 200 (JObj [("ciphertext", JStr (ciphertext enc));
                        ("iv", JStr (iv enc));
                        ("checksum", JStr checksum)]))
      (λ _, reply 500 (JObj [("error", JStr "encrypt failed")])).

End Endpoints.

(** * The JSON collections: courses, topics, tasks, backups

    The five files [tasks.json], [courses.json], [watch.json],
    [topics.json], [sessions.json] and the backup directory, beside the
    files of the note store.  A JSON file is modelled by what [readJson]
    returns for it: the value parsed from it, or [null] when the file is
    missing or is no JSON text. *)

Record Site := {
  world : World;
  tasksFile : jsval;
  coursesFile : jsval;
  watchFile : jsval;
  topicsFile : jsval;
  sessionsFile : jsval;
  backupDir : gmap string jsval
}.

Inductive Collection := TASKS_FILE | COURSES_FILE | WATCH_FILE | TOPICS_FILE
                      | SESSIONS_FILE.

Definition MS (A : Type) : Type := Site → completion A * Site.

Global Instance MS_ret : MRet MS := λ A a s, (Normal a, s).
Global Instance MS_bind : MBind MS := λ A B f m s,
  match m s with
  | (Normal a, s') => f a s'
  | (Throw e, s') => (Throw e, s')
  end.

Definition set_world (w : World) (s : Site) : Site :=
  {| world := w; tasksFile := tasksFile s; coursesFile := coursesFile s;
     watchFile := watchFile s; topicsFile := topicsFile s;
     sessionsFile := sessionsFile s; backupDir := backupDir s |}.


Definition read_file (f : Collection) (s : Site) : jsval :=
  match f with
  | TASKS_FILE => tasksFile s
  | COURSES_FILE => coursesFile s
  | WATCH_FILE => watchFile s
  | TOPICS_FILE => topicsFile s
  | SESSIONS_FILE => sessionsFile s
  end.

Definition write_file (f : Collection) (v : jsval) (s : Site) : Site :=
  {| world := world s;
     tasksFile := match f with TASKS_FILE => v | _ => tasksFile s end;
     coursesFile := match f with COURSES_FILE => v | _ => coursesFile s end;
     watchFile := match f with WATCH_FILE => v | _ => watchFile s end;
     topicsFile := match f with TOPICS_FILE => v | _ => topicsFile s end;
     sessionsFile := match f with SESSIONS_FILE => v | _ => sessionsFile s end;
     backupDir := backupDir s |}.

(** A handler of the note store run on the site. *)
Definition liftW {A} (m : M A) : MS A := λ s,
  let '(r, w') := m (world s) in (r, set_world w' s).

Definition liftC {A} (c : completion A) : MS A := λ s, (c, s).

Definition getsS {A} (f : Site → A) : MS A := λ s, (Normal (f s), s).


Definition respond (c : Z) (v : jsval) : MS Response :=
  mret {| status := c; body := v |}.

(** [JSON.parse(JSON.stringify(v))] on the values modelled: a member whose
    value is [undefined] is dropped, an [undefined] element of an array
    becomes [null].  (The order in which JavaScript lists the members of an
    object, integer-like names first, is not modelled.) *)
Fixpoint json_clone (v : jsval) : jsval :=
  match v with
  | JArr xs =>
      JArr (map (λ x, match x with
                      | JUndefined => JNull
                      | _ => json_clone x
                      end) xs)
  | JObj fs =>
      JObj ((fix members (fs : list (string * jsval)) :=
               match fs with
               | [] => []
               | (k, JUndefined) :: r => members r
               | (k, x) :: r => (k, json_clone x) :: members r
               end) fs)
  | _ => v
  end.

(** [readJson(p)], and [writeJson(p, v)]: [fs.writeFileSync] throws on the
    [undefined] that [JSON.stringify(undefined)] is. *)
Definition readJson (f : Collection) : MS jsval := getsS (read_file f).

Definition writeJson (f : Collection) (v : jsval) : MS unit := λ s,
  match v with
  | JUndefined => (Throw ERR_INVALID_ARG_TYPE, s)
  | _ => (Normal tt, write_file f (json_clone v) s)
  end.

(** [v.length] where [v] may be [null] or [undefined] *)
Definition length_of (v : jsval) : completion jsval :=
  match v with
  | JUndefined | JNull => Throw "Cannot read properties of null or undefined"
  | _ => Normal (js_length v)
  end.

(** The receiver of [unshift], [find], [findIndex], [splice], [push]: JSON
    holds no function, so on anything but an array the call throws
    [... is not a function]. *)
Definition as_array (v : jsval) : completion (list jsval) :=
  match v with
  | JArr xs => Normal xs
  | _ => Throw "is not a function"
  end.

(** [xs.findIndex(x => x.id === id)] *)
Fixpoint findIndex_id (id : string) (xs : list jsval) : completion (option nat) :=
  match xs with
  | [] => Normal None
  | x :: r =>
      match member x "id" with
      | Throw e => Throw e
      | Normal i =>
          if js_is_string i id then Normal (Some O)
          else match findIndex_id id r with
               | Normal (Some n) => Normal (Some (S n))
               | other => other
               end
      end
  end.

(** [xs[i]] is [undefined] out of range. *)
Global Instance jsval_inhabited : Inhabited jsval := populate JUndefined.

(** [xs.splice(i, 1)] *)
Definition splice_one (i : nat) (xs : list jsval) : list jsval :=
  (take i xs ++ drop (S i) xs)%list.

(** ** [Object.assign] *)

Fixpoint has_key (k : string) (fs : list (string * jsval)) : bool :=
  match fs with
  | [] => false
  | (k', _) :: r => String.eqb k k' || has_key k r
  end.

(** [o[k] = v] on the members of a plain object: an existing member keeps
    its place, a new one goes to the end. *)
Fixpoint set_prop (k : string) (v : jsval) (fs : list (string * jsval))
  : list (string * jsval) :=
  match fs with
  | [] => [(k, v)]
  | (k', v') :: r =>
      if String.eqb k k' then (k, v) :: r else (k', v') :: set_prop k v r
  end.

(** Each member name once, with the value a property read finds. *)
Fixpoint own_members (seen : list string) (fs : list (string * jsval))
  : list (string * jsval) :=
  match fs with
  | [] => []
  | (k, v) :: r =>
      if existsb (String.eqb k) seen then own_members seen r
      else (k, v) :: own_members (k :: seen) r
  end.

Fixpoint chars_from (i : nat) (s : string) : list (string * jsval) :=
  match s with
  | EmptyString => []
  | String c r => (pretty i, JStr (String c EmptyString)) :: chars_from (S i) r
  end.

(** The own enumerable properties [Object.assign] copies from a source. *)
Definition own_entries (v : jsval) : list (string * jsval) :=
  match v with
  | JObj fs => own_members [] fs
  | JArr xs => imap (λ i x, (pretty i, x)) xs
  | JStr s => chars_from 0 s
  | _ => []
  end.

(** One assignment [target[k] = v].  On an object that has no member
    [__proto__] of its own, assigning to [__proto__] runs the setter
    inherited from [Object.prototype]: no member is made.  (The prototype
    the setter installs is read by no handler: replies, files and log
    lines hold the members of the object only.) *)
Definition assign_one (fs : list (string * jsval)) (kv : string * jsval)
  : list (string * jsval) :=
  if String.eqb kv.1 "__proto__" && negb (has_key "__proto__" fs) then fs
  else set_prop kv.1 kv.2 fs.

(** [Object.assign(target, ...sources)].  The targets of the source are
    elements found by their [id], which are plain objects. *)
Definition Object_assign (target : jsval) (sources : list jsval) : jsval :=
  match target with
  | JObj fs =>
      JObj (fold_left (λ acc src, fold_left assign_one (own_entries src) acc)
              sources fs)
  | _ => target
  end.

(** [o[k] = v] for a fixed name, on a value that may be no object: on a
    primitive the assignment does nothing, on an array it makes a property
    that [JSON.stringify] does not print. *)
Definition put_prop (o : jsval) (k : string) (v : jsval) : jsval :=
  match o with
  | JObj fs => JObj (set_prop k v fs)
  | _ => o
  end.


Section Collections.

(** ** Courses *)

Definition loadCourses : MS jsval :=
  v ← readJson COURSES_FILE; mret (js_or v (JArr [])).

Definition saveCourses (arr : jsval) : MS unit :=
  writeJson COURSES_FILE arr;;
  liftW (logHistory "courses.update" (JObj [("count", js_length arr)])).

(** GET /api/v3/courses *)
Definition courses_get : MS Response :=
  arr ← loadCourses; respond 200 (JObj [("courses", arr)]).

(** POST /api/v3/courses *)
Definition courses_post (reqBody : jsval) : MS Response :=
  let b := js_or reqBody (JObj []) in
  let name := get_prop b "name" in
  let url := get_prop b "url" in
  let notes := js_default (JStr "") (get_prop b "notes") in
  let tags := js_default (JArr []) (get_prop b "tags") in
  if negb (truthy name) || negb (truthy url) then
    respond 400 (JObj [("error", JStr "name+url required")])
  else
    arr ← loadCourses;
    u ← liftW (id "c");
    t ← liftW now;
    let c := JObj [("id", JStr u); ("name", name); ("url", url);
                   ("notes", notes); ("tags", tags); ("createdAt", JNum t)] in
    xs ← liftC (as_array arr);
    saveCourses (JArr (c :: xs));;
    liftW (logHistory "courses.create" (JObj [("id", JStr u)]));;
    respond 200 (JObj [("ok", JBool true); ("course", c)]).

(** PATCH /api/v3/courses/:id *)
Definition courses_patch (cid : string) (reqBody : jsval) : MS Response :=
  arr ← loadCourses;
  xs ← liftC (as_array arr);
  found ← liftC (findIndex_id cid xs);
  match found with
  | None => respond 404 (JObj [("error", JStr "not found")])
  | Some i =>
      t ← liftW now;
      let c := Object_assign (xs !!! i)
                 [reqBody; JObj [("updatedAt", JNum t)]] in
      saveCourses (JArr (<[i := c]> xs));;
      liftW (logHistory "courses.update" (JObj [("id", get_prop c "id")]));;
      respond 200 (JObj [("ok", JBool true); ("course", c)])
  end.

(** DELETE /api/v3/courses/:id *)
Definition courses_delete (cid : string) : MS Response :=
  arr ← loadCourses;
  xs ← liftC (as_array arr);
  found ← liftC (findIndex_id cid xs);
  match found with
  | Some i =>
      saveCourses (JArr (splice_one i xs));;
      liftW (logHistory "courses.delete" (JObj [("id", JStr cid)]));;
      respond 200 (JObj [("ok", JBool true)])
  | None => respond 404 (JObj [("error", JStr "notfound")])
  end.

(** ** Topics *)

Definition loadTopics : MS jsval :=
  v ← readJson TOPICS_FILE; mret (js_or v (JArr [])).

Definition saveTopics (arr : jsval) : MS unit :=
  writeJson TOPICS_FILE arr;;
  liftW (logHistory "topics.update" (JObj [("count", js_length arr)])).

(** POST /api/v3/topics *)
Definition topics_post (reqBody : jsval) : MS Response :=
  let b := js_or reqBody (JObj []) in
  let name := get_prop b "name" in
  if negb (truthy name) then
    respond 400 (JObj [("error", JStr "name required")])
  else
    arr ← loadTopics;
    u ← liftW (id "t");
    t ← liftW now;
    let topic := JObj [("id", JStr u); ("name", name); ("children", JArr []);
                       ("notes", JStr ""); ("tags", JArr []);
                       ("createdAt", JNum t)] in
    xs ← liftC (as_array arr);
    saveTopics (JArr (topic :: xs));;
    liftW (logHistory "topics.create" (JObj [("id", JStr u)]));;
    respond 200 (JObj [("ok", JBool true); ("topic", topic)]).

(** POST /api/v3/topics/:id/children *)
Definition topics_add_child (tid : string) (reqBody : jsval) : MS Response :=
  arr ← loadTopics;
  xs ← liftC (as_array arr);
  found ← liftC (findIndex_id tid xs);
  match found with
  | None => respond 404 (JObj [("error", JStr "notfound")])
  | Some i =>
      let t := xs !!! i in
      let b := js_or reqBody (JObj []) in
      let name := get_prop b "name" in
      if negb (truthy name) then
        respond 400 (JObj [("error", JStr "name required")])
      else
        u ← liftW (id "st");
        let child := JObj [("id", JStr u); ("name", name); ("notes", JStr "");
                           ("tags", JArr [])] in
        children ← liftC (as_array (js_or (get_prop t "children") (JArr [])));
        let t' := put_prop t "children" (JArr (children ++ [child])%list) in
        saveTopics (JArr (<[i := t']> xs));;
        liftW (logHistory "topics.child.create"
                 (JObj [("topicId", get_prop t' "id"); ("childId", JStr u)]));;
        respond 200 (JObj [("ok", JBool true); ("child", child)])
  end.

(** ** Tasks *)

Definition default_days : jsval := JObj [("A", JArr []); ("B", JArr [])].

Definition loadTasks : MS jsval :=
  v ← readJson TASKS_FILE; mret (js_or v default_days).

Definition saveTasks (obj : jsval) : MS unit :=
  writeJson TASKS_FILE obj;;
  a ← liftC (length_of (get_prop obj "A"));
  b ← liftC (length_of (get_prop obj "B"));
  liftW (logHistory "tasks.update"
           (JObj [("counts", JObj [("A", a); ("B", b)])])).

(** GET /api/v3/tasks, [day] being [req.query.day] *)
Definition tasks_get (day : jsval) : MS Response :=
  let day := if js_is_string day "B" then "B" else "A" in
  tasks ← loadTasks;
  respond 200 (JObj [("day", JStr day);
                     ("tasks", js_or (get_prop tasks day) (JArr []))]).

(** One round of the [forEach] over the days in the PATCH handler: the
    tasks and what [found] holds so far. *)
Definition patch_day (tid : string) (patch : jsval) (acc : jsval * jsval)
    (d : string) : MS (jsval * jsval) :=
  let '(tasks, found) := acc in
  xs ← liftC (as_array (js_or (get_prop tasks d) (JArr [])));
  idx ← liftC (findIndex_id tid xs);
  match idx with
  | Some i =>
      t ← liftW now;
      let x := Object_assign (xs !!! i) [patch; JObj [("updatedAt", JNum t)]] in
      mret (put_prop tasks d (JArr (<[i := x]> xs)), x)
  | None => mret (tasks, found)
  end.

(** PATCH /api/v3/tasks/:id *)
Definition tasks_patch (tid : string) (reqBody : jsval) : MS Response :=
  let patch := js_or reqBody (JObj []) in
  tasks ← loadTasks;
  acc ← patch_day tid patch (tasks, JNull) "A";
  acc ← patch_day tid patch acc "B";
  let '(tasks, found) := acc in
  if negb (truthy found) then
    respond 404 (JObj [("error", JStr "task not found")])
  else
    saveTasks tasks;;
    liftW (logHistory "tasks.update"
             (JObj [("taskId", JStr tid); ("patch", patch)]));;
    respond 200 (JObj [("ok", JBool true); ("task", found)]).

(** One round of the [forEach] in the DELETE handler. *)
Definition delete_day (tid : string) (tasks : jsval) (d : string) : MS jsval :=
  xs ← liftC (as_array (js_or (get_prop tasks d) (JArr [])));
  idx ← liftC (findIndex_id tid xs);
  match idx with
  | Some i => mret (put_prop tasks d (JArr (splice_one i xs)))
  | None => mret tasks
  end.

(** DELETE /api/v3/tasks/:id *)
Definition tasks_delete (tid : string) : MS Response :=
  tasks ← loadTasks;
  tasks ← delete_day tid tasks "A";
  tasks ← delete_day tid tasks "B";
  saveTasks tasks;;
  liftW (logHistory "tasks.delete" (JObj [("taskId", JStr tid)]));;
  respond 200 (JObj [("ok", JBool true)]).

(** ** Start-up defaults *)





(** ** Backups *)






End Collections.

(** * Vocabulary of the statements *)

(** What the versions directory of a note holds; nothing when the
    directory is missing. *)
Definition version_files (w : World) (nid : string) : gmap string Entry :=
  match blobs w !! nid with
  | Some (Some dir) => dir
  | _ => ∅
  end.

(** Every entry of the directory is a regular file. *)
Definition regular_files (dir : gmap string Entry) : Prop :=
  ∀ f, dir !! f ≠ Some Directory.

(** A handler outcome that is not a success: an error status, or no reply
    at all (the rejected promise of an [async] handler). *)
Definition rejected (out : completion Response) : Prop :=
  match out with
  | Normal r => 400 ≤ status r
  | Throw _ => True
  end.

(** [maybeId || id('n')] in world [w] *)
Definition note_id (b : jsval) (w : World) : jsval :=
  if truthy (get_prop b "id") then get_prop b "id"
  else JStr ("n" +:+ uuids w (issued w)).

(** The index entry a create-note request with body [b] makes in [w]. *)
Definition new_entry (b : jsval) (w : World) : NoteEntry :=
  {| n_id := note_id b w;
     n_title := get_prop b "title";
     n_type := js_default (JStr "general") (get_prop b "type");
     n_tags := js_default (JArr []) (get_prop b "tags");
     n_summary := js_default (JStr "") (get_prop b "summary");
     n_createdAt := clock w (ticks w);
     n_updatedAt := clock w (S (ticks w)) |}.

(** The line [saveNotesIndex] logs for that entry. *)
Definition index_logged (w : World) : HistoryEntry :=
  {| h_ts := clock w (ticks w + 2)%nat;
     h_action := "notes.index.update";
     h_payload := JObj [("count", JNum (Z.of_nat (S (length (notesIndex w)))))] |}.

(** The line the handler logs last, at clock reading [t]. *)
Definition create_logged (b : jsval) (w : World) (t : Z) (profile : jsval)
  : HistoryEntry :=
  {| h_ts := t;
     h_action := "notes.create";
     h_payload := JObj [("id", note_id b w); ("title", get_prop b "title");
                        ("profile", profile)] |}.

(** The clock reading that names the version file of a create-note request
    started in [w]: the fourth one, after the two time stamps of the entry
    and the one of the index log line. *)
Definition write_time (w : World) : Z := clock w (ticks w + 3)%nat.

(** [w'] has the configuration, the index, the log and the clock of [w]. *)
Record continues (w w' : World) : Prop := {
  c_clock : clock w' = clock w;
  c_meta : metaFile w' = metaFile w;
  c_index : notesIndex w' = notesIndex w;
  c_log : historyLog w' = historyLog w
}.

(** [w'] has the server secret of [w] and the same random bytes ahead. *)
Record same_sources (w w' : World) : Prop := {
  s_secret : JWT_SECRET w' = JWT_SECRET w;
  s_entropy : entropy w' = entropy w;
  s_drawn : drawn w' = drawn w
}.

(** The nonce the next [crypto.randomBytes(12)] returns in [w]. *)
Definition next_nonce (w : World) : Buffer :=
  map (λ i, entropy w (drawn w + i)%nat) (seq 0 12).

(** [`${t}.json.gz`], the name of the version file written at [t]. *)
Definition file_at (t : Z) : string := pretty t +:+ ".json.gz".

(** Exactly the file named after [t] was written for the note [dir]: it
    holds [data], every other file of the note and every file of any other
    note, plain names all, is as before. *)
Definition stored (dir : string) (t : Z) (data : Buffer) (w w' : World) : Prop :=
  version_files w' dir = <[file_at t := File data]> (version_files w dir)
  ∧ ∀ k, plain_name k = true → k ≠ dir →
      version_files w' k = version_files w k.

(** No version file of any note changed. *)
Definition untouched (w w' : World) : Prop :=
  ∀ k, plain_name k = true → version_files w' k = version_files w k.

(** [encryptionMode || metaConf.encryptionProfile || 'client-only'] for the
    request body [b] in world [w]: the policy the request is handled
    under. *)
Definition policy_of (b : jsval) (w : World) : jsval :=
  if truthy (get_prop b "encryptionMode") then get_prop b "encryptionMode"
  else if truthy (encryptionProfile (metaFile w))
       then encryptionProfile (metaFile w)
       else JStr "client-only".

(** The document a version file holds: cipher text and iv, and a meta of
    iv, check sum, mode and the meta the client sent. *)
Definition version_doc (ct nonce checksum mode meta : jsval) : jsval :=
  JObj [("ciphertext", ct); ("iv", nonce);
        ("meta", JObj [("iv", nonce); ("checksum", checksum); ("mode", mode);
                       ("meta", meta)])].

(** [data] is the gzip of the JSON text of [doc]. *)
Definition bytes_of `{NodeLib} (doc : jsval) (data : Buffer) : Prop :=
  gzipSync (list_byte_of_string (JSON_stringify doc)) = Normal data.

(** [data] gunzips to a JSON text that parses to [doc]. *)
Definition reads_as `{NodeLib} (data : Buffer) (doc : jsval) : Prop :=
  ∃ raw, gunzipSync data = Normal raw
         ∧ JSON_parse (string_of_list_byte raw) = Normal doc.

(** [data] does not gunzip, or not to a JSON text. *)
Definition unreadable `{NodeLib} (data : Buffer) : Prop :=
  match gunzipSync data with
  | Normal raw => ∃ e, JSON_parse (string_of_list_byte raw) = Throw e
  | Throw _ => True
  end.

(** What the listing shows as the meta of a file that holds [data]: the
    [meta] member of the document, or [null] for a file that holds no
    document or a document without one. *)
Definition shown_meta `{NodeLib} (data : Buffer) (m : jsval) : Prop :=
  (∃ doc, reads_as data doc
          ∧ m = if truthy (get_prop doc "meta") then get_prop doc "meta"
                else JNull)
  ∨ (unreadable data ∧ m = JNull).

(** The characters (code points) of a string: the bytes of its UTF-8
    encoding that are not continuation bytes. *)
Definition is_continuation (c : ascii) : bool :=
  let n := N_of_ascii c in (128 <=? n)%N && (n <? 192)%N.

Fixpoint code_points (s : string) : nat :=
  match s with
  | EmptyString => 0
  | String c r => ((if is_continuation c then 0 else 1) + code_points r)%nat
  end.

(** The 16 bytes the next [crypto.randomBytes(16)] returns in [w]: the
    salt bcrypt draws. *)
Definition next_salt (w : World) : Buffer :=
  map (λ i, entropy w (drawn w + i)%nat) (seq 0 16).

(** The conditions of the two branches of [store_blob]. *)
Definition takes_plaintext (blob profile : jsval) : bool :=
  truthy blob && truthy (get_prop blob "plaintext")
  && js_is_string profile "server-assisted".

Definition takes_ciphertext (blob : jsval) : bool :=
  truthy blob && truthy (get_prop blob "ciphertext")
  && truthy (get_prop blob "iv").

Definition encryption_failed : Response :=
  {| status := 500; body := JObj [("error", JStr "server encryption failed")] |}.

Definition note_created (entry : NoteEntry) : Response :=
  {| status := 200;
     body := JObj [("ok", JBool true);
                   ("note",
                    JObj [("id", n_id entry); ("title", n_title entry);
                          ("type", n_type entry); ("tags", n_tags entry);
                          ("summary", n_summary entry);
                          ("createdAt", JNum (n_createdAt entry));
                          ("updatedAt", JNum (n_updatedAt entry))])] |}.


(** The document a request with cipher text and iv has stored under the
    policy [mode]. *)
Definition client_doc (blob mode : jsval) (checksum : string) : jsval :=
  version_doc (get_prop blob "ciphertext") (get_prop blob "iv") (JStr checksum)
    mode (if truthy (get_prop blob "meta") then get_prop blob "meta"
          else JObj []).


(** The readings of [Date.now()] from 9 September 2001 to 20 November 2286:
    the millisecond counts of thirteen digits. *)
Definition epoch_ms (t : Z) : Prop := 10 ^ 12 ≤ t < 10 ^ 13.

(** One element of the listing: the file written at [t], with the meta
    read from it. *)
Definition summary_of (t : Z) (meta : jsval) : jsval :=
  JObj [("filename", JStr (file_at t)); ("ts", JNum t); ("meta", meta)].

(** The meta the listing shows for a file that holds [doc]:
    [content.meta || null]. *)
Definition listed_meta (doc : jsval) : jsval :=
  if truthy (get_prop doc "meta") then get_prop doc "meta" else JNull.

(** [bcrypt.compare(currentPin, meta.pinHash)] resolves to [true]. *)
Definition proves_knowledge `{NodeLib} (currentPin : jsval) (m : MasterMeta)
  : Prop :=
  ∃ d h, currentPin = JStr d ∧ pinHash m = JStr h ∧ bcrypt_compare d h = true.

(** One of the stages of the server-assisted branch fails on the blob: key
    derivation, reading the plaintext into a buffer, compression, or
    encryption under the derived key and the next nonce. *)
Definition server_stage_fails `{NodeLib} (blob : jsval) (w : World) : Prop :=
  match scryptSync (JWT_SECRET w) "server-key-salt-v3" 32 with
  | Throw _ => True
  | Normal serverKey =>
      match Buffer_from (get_prop blob "plaintext") list_byte_of_string with
      | Throw _ => True
      | Normal plain =>
          match gzipSync plain with
          | Throw _ => True
          | Normal gz =>
              match aes_256_gcm_seal serverKey (next_nonce w) gz with
              | Throw _ => True
              | Normal _ => False
              end
          end
      end
  end.



(** The success reply of the first PIN set-up. *)
Definition pin_created : Response :=
  {| status := 200;
     body := JObj [("ok", JBool true); ("message", JStr "PIN created")] |}.

(** [w'] has the files of [w]: configuration, index, blobs and log. *)
Record same_files (w w' : World) : Prop := {
  f_meta : metaFile w' = metaFile w;
  f_index : notesIndex w' = notesIndex w;
  f_blobs : blobs w' = blobs w;
  f_log : historyLog w' = historyLog w
}.

(** What [JSON.stringify] and [JSON.parse] make of an element of an array
    and of the members of an object. *)
Definition stored_element (x : jsval) : jsval :=
  match x with JUndefined => JNull | _ => json_clone x end.

Fixpoint stored_members (fs : list (string * jsval)) : list (string * jsval) :=
  match fs with
  | [] => []
  | (k, JUndefined) :: r => stored_members r
  | (k, x) :: r => (k, json_clone x) :: stored_members r
  end.

(** [s'] has the note store and the files of [s], but for the log, the
    clock and the uuid source of the note store and for the one collection
    [f]. *)
Record same_site_but (f : Collection) (s s' : Site) : Prop := {
  sb_files : ∀ g, g ≠ f → read_file g s' = read_file g s;
  sb_backups : backupDir s' = backupDir s;
  sb_meta : metaFile (world s') = metaFile (world s);
  sb_index : notesIndex (world s') = notesIndex (world s);
  sb_blobs : blobs (world s') = blobs (world s)
}.

(** A line of the history log. *)
Definition logged (t : Z) (action : string) (payload : jsval) : HistoryEntry :=
  {| h_ts := t; h_action := action; h_payload := payload |}.

(** The world after [logHistory(action, payload)]. *)
Definition log_line (action : string) (payload : jsval) (w : World) : World :=
  set_historyLog
    (historyLog w ++ [logged (clock w (ticks w)) action payload])%list
    (set_ticks (S (ticks w)) w).

(** The value is one JSON carries unchanged: a file holds such a value. *)
Definition is_stored (v : jsval) : Prop := json_clone v = v.

(** [i] is the place of the first element of [xs] whose [id] is [cid], with
    no [null] before it (on which reading [id] throws). *)
Definition first_with_id (cid : string) (xs : list jsval) (i : nat) : Prop :=
  (i < length xs)%nat
  ∧ get_prop (xs !!! i) "id" = JStr cid
  ∧ ∀ j, (j < i)%nat →
      xs !!! j ≠ JNull ∧ xs !!! j ≠ JUndefined
      ∧ get_prop (xs !!! j) "id" ≠ JStr cid.

(** No element of [xs] has the [id], and none is [null]. *)
Definition no_id (cid : string) (xs : list jsval) : Prop :=
  ∀ x, x ∈ xs → x ≠ JNull ∧ x ≠ JUndefined ∧ get_prop x "id" ≠ JStr cid.

(** [xs'] is [xs] without its first element whose [id] is [cid], or [xs]
    itself if it has none: what [findIndex] followed by [splice] leaves. *)
Definition without_first (cid : string) (xs xs' : list jsval) : Prop :=
  (∃ i, first_with_id cid xs i ∧ xs' = splice_one i xs)
  ∨ (no_id cid xs ∧ xs' = xs).


(** The success reply of a deletion. *)
Definition ok_reply : Response :=
  {| status := 200; body := JObj [("ok", JBool true)] |}.

Definition error_reply (code : Z) (message : string) : Response :=
  {| status := code; body := JObj [("error", JStr message)] |}.

(** The reply of the listing. *)
Definition versions_reply (versions : list jsval) : Response :=
  {| status := 200; body := JObj [("versions", JArr versions)] |}.

(** The replies of the encryption helpers. *)
Definition encrypted_reply `{NodeLib} (ct nonce : string) : Response :=
  {| status := 200;
     body := JObj [("ciphertext", JStr ct); ("iv", JStr nonce);
                   ("checksum", JStr (sha256_hex ct))] |}.

Definition decrypted_reply (payload : jsval) : Response :=
  {| status := 200; body := JObj [("payload", payload)] |}.

Definition derived_reply `{NodeLib} (key : Buffer) : Response :=
  {| status := 200; body := JObj [("key", JStr (base64_encode key))] |}.

(** No blank in the string. *)
Fixpoint no_blank (s : string) : bool :=
  match s with
  | EmptyString => true
  | String c r => negb (Ascii.eqb c " ") && no_blank r
  end.

(** The payloads [login] signs. *)
Definition access_payload : jsval := JObj [("sub", JStr "default")].
Definition refresh_payload : jsval :=
  JObj [("sub", JStr "default"); ("type", JStr "refresh")].

(** ** Contracts of the library, assumed where a statement names them *)

(** PBKDF2 with SHA-256, for an iteration count and a key length in the
    range of a 32-bit integer, returns a key of the length asked for. *)
Definition pbkdf2_contract `{NodeLib} : Prop :=
  ∀ password salt iterations keylen,
    0 < iterations < 2 ^ 31 → Z.of_nat keylen < 2 ^ 31 →
    ∃ key, pbkdf2 password salt iterations keylen "sha256" = Normal key
           ∧ length key = keylen.

(** AES-256-GCM under a 32-byte key and a 12-byte nonce: sealing succeeds
    with a 16-byte tag, and opening what was sealed gives the plaintext. *)
Definition gcm_contract `{NodeLib} : Prop :=
  ∀ key nonce plaintext,
    length key = 32%nat → length nonce = 12%nat →
    ∃ enc tag,
      aes_256_gcm_seal key nonce plaintext = Normal (enc, tag)
      ∧ length tag = 16%nat
      ∧ aes_256_gcm_open key nonce enc tag = Normal plaintext.

(** What gzip produced gunzips to the input. *)
Definition gzip_contract `{NodeLib} : Prop :=
  ∀ buf z, gzipSync buf = Normal z → gunzipSync z = Normal buf.

(** [JSON.parse] reads back what [JSON.stringify] printed for [v]. *)
Definition json_round_trip `{NodeLib} (v : jsval) : Prop :=
  JSON_parse (JSON_stringify v) = Normal v.

(** Decoding base64 inverts encoding. *)
Definition base64_contract `{NodeLib} : Prop :=
  ∀ buf, base64_decode (base64_encode buf) = buf.

(** gzip accepts every buffer. *)
Definition gzip_succeeds `{NodeLib} : Prop :=
  ∀ buf, ∃ z, gzipSync buf = Normal z.

(** The base64 text of a buffer that is not empty is not empty. *)
Definition base64_nonempty `{NodeLib} : Prop :=
  ∀ buf, buf ≠ [] → base64_encode buf ≠ EmptyString.

(** scrypt, for a key length in the range of a 32-bit integer, returns a
    key of the length asked for. *)
Definition scrypt_contract `{NodeLib} : Prop :=
  ∀ password salt keylen,
    Z.of_nat keylen < 2 ^ 31 →
    ∃ key, scryptSync password salt keylen = Normal key ∧ length key = keylen.

(** bcrypt, at the cost the program uses and whatever 16-byte salt was
    drawn: a hash is not the empty string, and data compares true with a
    hash made of it. *)
Definition bcrypt_contract `{NodeLib} : Prop :=
  ∀ salt data,
    length salt = 16%nat →
    bcrypt_hash salt data BCRYPT_ROUNDS ≠ EmptyString
    ∧ bcrypt_compare data (bcrypt_hash salt data BCRYPT_ROUNDS) = true.

(** [jwt.sign] issues a token for [payload] with life time [ttl] under
    every secret that is not empty. *)
Definition jwt_issues `{JwtLib} (payload : jsval) (ttl : string) : Prop :=
  ∀ secret clk n,
    secret ≠ EmptyString →
    ∃ tok n', jwt_sign payload secret ttl clk n = (Normal tok, n').

(** What [jwt.verify] decodes from a token that [jwt.sign] made of a JSON
    payload, under the same secret, is that payload with the claims [iat]
    and [exp] added. *)
Definition jwt_contract `{NodeLib} `{JwtLib} : Prop :=
  ∀ payload secret ttl clk n tok n' clk' m payload' m',
    json_round_trip payload →
    jwt_sign payload secret ttl clk n = (Normal tok, n') →
    jwt_verify (JStr tok) secret clk' m = (Normal payload', m') →
    ∀ k, k ≠ "iat" → k ≠ "exp" → get_prop payload' k = get_prop payload k.

(** * A reference instance

    A small, executable instance of [NodeLib] on which the handlers can be
    run: a keyed byte-shift cipher with a 16-byte tag over key, nonce and
    ciphertext, additive digests, a two-byte gzip header, Latin-1 in place
    of base64, and a JSON printer and reader.  It meets the three
    contracts above; nothing else is claimed of it. *)

Module Ref.

Definition byte_of_Z (z : Z) : byte :=
  default x00 (Byte.of_N (Z.to_N (z mod 256))).

Definition Z_of_byte (b : byte) : Z := Z.of_N (Byte.to_N b).

Definition digest (bs : Buffer) : Z :=
  fold_left (λ acc b, (acc * 257 + Z_of_byte b + 1) mod 1000000007) bs 7.

Definition keystream (seed : Z) (n : nat) : Buffer :=
  map (λ i, byte_of_Z (seed + Z.of_nat i)) (seq 0 n).

Definition shift (k : Z) (b : byte) : byte := byte_of_Z (Z_of_byte b + k).
Definition unshift (k : Z) (b : byte) : byte := byte_of_Z (Z_of_byte b - k).

Definition mask (key nonce : Buffer) : Z := digest (key ++ nonce)%list mod 256.

Definition tag_of (key nonce enc : Buffer) : Buffer :=
  keystream (digest (key ++ nonce ++ enc)%list) 16.

Definition seal (key nonce plaintext : Buffer) : completion (Buffer * Buffer) :=
  if decide (length key = 32%nat) then
    let enc := map (shift (mask key nonce)) plaintext in
    Normal (enc, tag_of key nonce enc)
  else Throw "Invalid key length".

Definition open (key nonce enc tag : Buffer) : completion Buffer :=
  if decide (length key = 32%nat) then
    if decide (length tag = 16%nat) then
      if decide (tag = tag_of key nonce enc) then
        Normal (map (unshift (mask key nonce)) enc)
      else Throw "Unsupported state or unable to authenticate data"
    else Throw "Invalid authentication tag length"
  else Throw "Invalid key length".

Definition hash (salt : Buffer) (data : string) (rounds : Z) : string :=
  "$2b$" +:+ pretty rounds +:+ "$" +:+ pretty (digest (list_byte_of_string data)).

Definition compare (data hashed : string) : bool :=
  String.eqb hashed (hash [] data 12).

Definition gzip (buf : Buffer) : completion Buffer := Normal (x1f :: x8b :: buf).

Definition gunzip (buf : Buffer) : completion Buffer :=
  match buf with
  | x1f :: x8b :: rest => Normal rest
  | _ => Throw "incorrect header check"
  end.

Definition quote : string := String (ascii_of_nat 34) EmptyString.

Definition join (sep : string) (parts : list string) : string :=
  match parts with
  | [] => EmptyString
  | p :: ps => fold_left (λ acc q, acc +:+ sep +:+ q) ps p
  end.

Fixpoint stringify (v : jsval) : string :=
  match v with
  | JUndefined | JNull => "null"
  | JBool true => "true"
  | JBool false => "false"
  | JNum n => pretty n
  | JStr s => quote +:+ s +:+ quote
  | JArr xs => "[" +:+ join "," (map stringify xs) +:+ "]"
  | JObj fs =>
      "{" +:+ join "," (map (λ kv, quote +:+ kv.1 +:+ quote +:+ ":"
                                   +:+ stringify kv.2) fs) +:+ "}"
  end.

Fixpoint take_until (stop : ascii) (s : string) : option (string * string) :=
  match s with
  | EmptyString => None
  | String c r =>
      if Ascii.eqb c stop then Some (EmptyString, r)
      else match take_until stop r with
           | Some (a, r') => Some (String c a, r')
           | None => None
           end
  end.

Fixpoint span_digits (s : string) : string * string :=
  match s with
  | EmptyString => (EmptyString, EmptyString)
  | String c r =>
      if is_digit c then let (a, r') := span_digits r in (String c a, r')
      else (EmptyString, s)
  end.

Definition read_number (s : string) : option (jsval * string) :=
  let (ds, r) := span_digits s in
  match ds with
  | EmptyString => None
  | _ => match parse_digits 0 ds with
         | Some n => Some (JNum n, r)
         | None => None
         end
  end.

Definition after (word : string) (s : string) : option string :=
  if String.prefix word s
  then Some (String.substring (String.length word)
               (String.length s - String.length word) s)
  else None.

Fixpoint read_value (fuel : nat) (s : string) : option (jsval * string) :=
  match fuel with
  | O => None
  | S f =>
      match s with
      | EmptyString => None
      | String c r =>
          if Ascii.eqb c (ascii_of_nat 34) then
            match take_until (ascii_of_nat 34) r with
            | Some (str, r') => Some (JStr str, r')
            | None => None
            end
          else if Ascii.eqb c "[" then
            match r with
            | String "]" r' => Some (JArr [], r')
            | _ => match read_items f r with
                   | Some (xs, r') => Some (JArr xs, r')
                   | None => None
                   end
            end
          else if Ascii.eqb c "{" then
            match r with
            | String "}" r' => Some (JObj [], r')
            | _ => match read_members f r with
                   | Some (fs, r') => Some (JObj fs, r')
                   | None => None
                   end
            end
          else if Ascii.eqb c "-" then
            match read_number r with
            | Some (JNum n, r') => Some (JNum (- n), r')
            | _ => None
            end
          else
            match after "true" s, after "false" s, after "null" s with
            | Some r', _, _ => Some (JBool true, r')
            | _, Some r', _ => Some (JBool false, r')
            | _, _, Some r' => Some (JNull, r')
            | _, _, _ => read_number s
            end
      end
  end
with read_items (fuel : nat) (s : string) : option (list jsval * string) :=
  match fuel with
  | O => None
  | S f =>
      match read_value f s with
      | Some (v, String "," r) =>
          match read_items f r with
          | Some (vs, r') => Some (v :: vs, r')
          | None => None
          end
      | Some (v, String "]" r) => Some ([v], r)
      | _ => None
      end
  end
with read_members (fuel : nat) (s : string)
  : option (list (string * jsval) * string) :=
  match fuel with
  | O => None
  | S f =>
      match read_value f s with
      | Some (JStr k, String ":" r) =>
          match read_value f r with
          | Some (v, String "," r') =>
              match read_members f r' with
              | Some (fs, r'') => Some ((k, v) :: fs, r'')
              | None => None
              end
          | Some (v, String "}" r') => Some ([(k, v)], r')
          | _ => None
          end
      | _ => None
      end
  end.

Definition parse (s : string) : completion jsval :=
  match read_value (S (String.length s)) s with
  | Some (v, EmptyString) => Normal v
  | _ => Throw "Unexpected token in JSON"
  end.

Definition from_array (v : jsval) : completion Buffer :=
  match v with
  | JArr xs =>
      Normal (map (λ x, match x with JNum n => byte_of_Z n | _ => x00 end) xs)
  | _ => Throw ERR_INVALID_ARG_TYPE
  end.

Definition to_number (v : jsval) : option Z :=
  match v with
  | JStr s => parse_digits 0 s
  | _ => None
  end.

Definition lib : NodeLib := {|
  bcrypt_hash := hash;
  bcrypt_compare := compare;
  pbkdf2 := λ password salt iterations keylen _,
    Normal (keystream
              (digest (list_byte_of_string password ++ salt)%list + iterations)
              keylen);
  scryptSync := λ password salt keylen,
    Normal (keystream (digest (list_byte_of_string (password +:+ salt))) keylen);
  aes_256_gcm_seal := seal;
  aes_256_gcm_open := open;
  sha256_hex := λ s, pretty (digest (list_byte_of_string s));
  base64_encode := string_of_list_byte;
  base64_decode := list_byte_of_string;
  Buffer_from_object := from_array;
  gzipSync := gzip;
  gunzipSync := gunzip;
  JSON_stringify := stringify;
  JSON_parse := parse;
  ToNumber := to_number
|}.

(** A fresh installation: no PIN, profile [client-only], nothing stored; the
    clock advances by one millisecond at every reading. *)
Definition fresh : World := {|
  metaFile := {| createdAt := 1700000000000; version := "thehaydensphere.v3";
                 pinHash := JNull; encryptionProfile := JStr "client-only" |};
  notesIndex := [];
  blobs := ∅;
  historyLog := [];
  JWT_SECRET := "0123456789abcdef";
  clock := λ n, 1700000000000 + Z.of_nat n;
  ticks := 0;
  entropy := λ n, byte_of_Z (Z.of_nat n * 37 + 11);
  drawn := 0;
  uuids := λ n, "6f1d-" +:+ pretty n;
  issued := 0
|}.

(** The same installation while the clock stands still (all readings fall in
    one millisecond). *)
Definition frozen : World := {|
  metaFile := metaFile fresh;
  notesIndex := [];
  blobs := ∅;
  historyLog := [];
  JWT_SECRET := JWT_SECRET fresh;
  clock := λ _, 1700000000000;
  ticks := 0;
  entropy := entropy fresh;
  drawn := 0;
  uuids := uuids fresh;
  issued := 0
|}.

(** Requests used as examples. *)

Definition plaintext_request : jsval :=
  JObj [("title", JStr "diary");
        ("blob", JObj [("plaintext", JStr "hello world")])].

Definition server_assisted_request (plaintext : jsval) : jsval :=
  JObj [("id", JStr "n1"); ("title", JStr "diary");
        ("blob", JObj [("plaintext", plaintext)]);
        ("encryptionMode", JStr "server-assisted")].

Definition client_fields (ct nonce : string) : list (string * jsval) :=
  [("id", JStr "n1"); ("title", JStr "diary");
   ("blob", JObj [("ciphertext", JStr ct); ("iv", JStr nonce)])].

Definition client_request (ct nonce : string) : jsval :=
  JObj (client_fields ct nonce).

Definition key32 : string := "0123456789abcdef0123456789abcdef".





(** The bytes of a version file that holds a document. *)
Definition stored_bytes (doc : jsval) : Buffer :=
  x1f :: x8b :: list_byte_of_string (stringify doc).

(** A stored document whose meta tells the versions apart. *)
Definition listed_doc (n : Z) : jsval :=
  JObj [("ciphertext", JStr "AAAA"); ("iv", JStr "BBBB");
        ("meta", JObj [("revision", JNum n)])].

(** A world whose only note has three versions, written at [t1], [t2] and
    [t3]. *)
Definition with_versions (t1 t2 t3 : Z) : World :=
  set_blobs
    {[ "n1" := Some (<[file_at t1 := File (stored_bytes (listed_doc 1))]>
                       (<[file_at t2 := File (stored_bytes (listed_doc 2))]>
                          {[file_at t3 := File (stored_bytes (listed_doc 3))]})) ]}
    fresh.

Definition three_versions : World :=
  with_versions 1700000000001 1700000000002 1700000000003.

(** Three versions written around 9 September 2001, when the millisecond
    count went from twelve digits to thirteen. *)
Definition width_change : World :=
  with_versions 999999999998 999999999999 1000000000000.

(** A note whose versions directory holds a file that is no document and
    a directory. *)
Definition with_directory : World :=
  set_blobs
    {[ "n1" := Some (<[file_at 1700000000001 := File [x01]]>
                       {["versions" := Directory]}) ]}
    fresh.

(** A world in which the unlock secret has been set. *)
Definition locked : World :=
  set_metaFile (with_pinHash (JStr (hash [] "123456" 12)) (metaFile fresh)) fresh.

End Ref.

(** Tokens for the reference instance: the secret, a separator and the
    JSON text of the payload; no expiry.  One clock reading per call. *)
Module RefAuth.

Definition token (secret : string) (payload : jsval) : string :=
  (secret +:+ "#") +:+ Ref.stringify payload.

Definition sign (payload : jsval) (secret ttl : string) (clk : nat → Z) (n : nat)
  : completion string * nat :=
  if String.eqb secret "" then (Throw "secretOrPrivateKey must have a value", n)
  else (Normal (token secret payload), S n).

Definition verify (tok : jsval) (secret : string) (clk : nat → Z) (n : nat)
  : completion jsval * nat :=
  match tok with
  | JStr t =>
      match Ref.after (secret +:+ "#") t with
      | Some rest => (Ref.parse rest, S n)
      | None => (Throw "invalid signature", S n)
      end
  | _ => (Throw "jwt must be a string", n)
  end.

Definition jwt : JwtLib := {| jwt_sign := sign; jwt_verify := verify |}.

Definition env : ProcessEnv := {| getenv := λ _, None |}.

End RefAuth.

(** A site for the examples: the fresh installation with two courses, a
    topic, a task in day A, one earlier backup and a stray file beside
    it. *)
Module RefSite.

Definition course (cid name : string) : jsval :=
  JObj [("id", JStr cid); ("name", JStr name);
        ("url", JStr "https://example.org/course"); ("notes", JStr "");
        ("tags", JArr []); ("createdAt", JNum 1699999990000)].

Definition topic (tid name : string) : jsval :=
  JObj [("id", JStr tid); ("name", JStr name); ("children", JArr []);
        ("notes", JStr ""); ("tags", JArr []);
        ("createdAt", JNum 1699999990000)].

Definition task (tid name : string) : jsval :=
  JObj [("id", JStr tid); ("name", JStr name); ("minutes", JNum 30);
        ("done", JBool false); ("notesId", JNull); ("courseId", JNull);
        ("tags", JArr [])].

Definition courses : list jsval := [course "c1" "Logic"; course "c2" "Algebra"].

Definition topics : list jsval := [topic "t1" "Reading list"].

Definition days : list (string * jsval) :=
  [("A", JArr [task "k1" "Reading"; task "k2" "News Study"]); ("B", JArr [])].

Definition backups : gmap string jsval :=
  {[ "backup_1699999999999.json" := JObj [("createdAt", JNum 1699999999999)];
     "README.txt" := JNull ]}.

Definition home : Site := {|
  world := Ref.fresh;
  tasksFile := JObj days;
  coursesFile := JArr courses;
  watchFile := JArr [];
  topicsFile := JArr topics;
  sessionsFile := JArr [];
  backupDir := backups
|}.

(** The site before the first start: no file can be read. *)
Definition blank : Site := {|
  world := Ref.fresh;
  tasksFile := JNull;
  coursesFile := JNull;
  watchFile := JNull;
  topicsFile := JNull;
  sessionsFile := JNull;
  backupDir := ∅
|}.

End RefSite.

(** * Running the handlers *)

Section Effects.
Context `{NodeLib}.

Ltac run :=
  unfold mbind, M_bind, mret, M_ret, lift, gets, modify, Date_now; simpl.

Lemma bind_Normal {A B} (m : M A) (f : A → M B) w a w' :
  m w = (Normal a, w') → (m ≫= f) w = f a w'.
Proof. intros E. unfold mbind, M_bind. by rewrite E. Qed.

Lemma bind_Throw {A B} (m : M A) (f : A → M B) w e w' :
  m w = (Throw e, w') → (m ≫= f) w = (Throw e, w').
Proof. intros E. unfold mbind, M_bind. by rewrite E. Qed.

(** The policy the handler resolves is the one the statements name. *)
Lemma resolve_profile_policy b w :
  resolve_profile (get_prop b "encryptionMode") (metaFile w) = policy_of b w.
Proof.
  unfold resolve_profile, policy_of, js_or.
  destruct (truthy (get_prop b "encryptionMode")) eqn:E; [by rewrite E|].
  destruct (truthy (encryptionProfile (metaFile w))) eqn:E'; by rewrite ?E'.
Qed.

Lemma version_files_blobs w w' k :
  blobs w' !! k = blobs w !! k → version_files w' k = version_files w k.
Proof. unfold version_files. by intros ->. Qed.

Lemma ensure_noteDir_run dir w :
  ∃ d w', ensure_noteDir dir w = (Normal tt, w')
    ∧ blobs w' !! dir = Some d
    ∧ (∀ k, version_files w' k = version_files w k)
    ∧ continues w w' ∧ ticks w' = ticks w
    ∧ same_sources w w'.
Proof.
  unfold ensure_noteDir, modify. destruct (blobs w !! dir) as [d|] eqn:Hd.
  - exists d, w. by repeat split.
  - eexists None, _. split; [done|]. simpl. rewrite lookup_insert_eq.
    split; [done|]. split; [|by repeat split].
    intros k. unfold version_files. simpl.
    destruct (decide (k = dir)) as [->|Hk].
    + by rewrite lookup_insert_eq, Hd.
    + by rewrite lookup_insert_ne.
Qed.

Lemma ensure_verPath_run dir w d :
  blobs w !! dir = Some d →
  ∃ w', ensure_verPath dir w = (Normal tt, w')
    ∧ blobs w' !! dir = Some (Some (version_files w dir))
    ∧ (∀ k, version_files w' k = version_files w k)
    ∧ continues w w' ∧ ticks w' = ticks w.
Proof.
  intros Hd. unfold ensure_verPath. rewrite Hd. destruct d as [d|].
  - eexists. split; [done|]. unfold version_files.
    rewrite Hd. repeat split; simpl; auto.
  - eexists. split; [done|]. unfold version_files.
    simpl. rewrite lookup_insert_eq, Hd. split; [done|]. split.
    + intros k. destruct (decide (k = dir)) as [->|Hk].
      * by rewrite lookup_insert_eq, Hd.
      * by rewrite lookup_insert_ne.
    + repeat split; simpl; auto.
Qed.

Lemma writeFileSync_run dir name data w d :
  blobs w !! dir = Some (Some d) →
  d !! name ≠ Some Directory →
  ∃ w', writeFileSync dir name data w = (Normal tt, w')
    ∧ version_files w' dir = <[name := File data]> d
    ∧ (∀ k, k ≠ dir → version_files w' k = version_files w k)
    ∧ continues w w' ∧ ticks w' = ticks w.
Proof.
  intros Hd Hfree. unfold writeFileSync. rewrite Hd.
  assert (Hw : ∃ w',
            (Normal tt,
             set_blobs (<[dir := Some (<[name := File data]> d)]> (blobs w)) w)
            = (Normal tt, w')
            ∧ version_files w' dir = <[name := File data]> d
            ∧ (∀ k, k ≠ dir → version_files w' k = version_files w k)
            ∧ continues w w' ∧ ticks w' = ticks w).
  { eexists. split; [done|]. unfold version_files. simpl.
    rewrite lookup_insert_eq. split; [done|]. split.
    - intros k Hk. by rewrite lookup_insert_ne.
    - repeat split; simpl; auto. }
  destruct (d !! name) as [[old|]|]; done.
Qed.

Lemma writeFileSync_blocked dir name data w d :
  blobs w !! dir = Some (Some d) →
  d !! name = Some Directory →
  ∃ e, writeFileSync dir name data w = (Throw e, w).
Proof.
  intros Hd Hdir. unfold writeFileSync. rewrite Hd, Hdir. eauto.
Qed.

(** The document the client branch serialises is the one the statements
    name. *)
Lemma client_doc_code blob profile cs :
  versionFile (get_prop blob "ciphertext") (get_prop blob "iv")
    (versionMeta (get_prop blob "iv") (JStr cs) profile
       (js_or (get_prop blob "meta") (JObj [])))
  = client_doc blob profile cs.
Proof. reflexivity. Qed.

Lemma client_write_run dir blob profile w d :
  blobs w !! dir = Some d →
  ∃ out w',
    client_write dir blob profile w = (out, w')
    ∧ continues w w'
    ∧ match out with
      | Normal _ =>
          ∃ cs data,
            sha256Hex (get_prop blob "ciphertext") = Normal cs
            ∧ bytes_of (client_doc blob profile cs) data
            ∧ stored dir (clock w (ticks w)) data w w'
            ∧ ticks w' = S (ticks w)
      | Throw _ =>
          (∀ k, version_files w' k = version_files w k)
          ∧ ∀ cs data,
              sha256Hex (get_prop blob "ciphertext") = Normal cs →
              bytes_of (client_doc blob profile cs) data →
              version_files w dir !! file_at (clock w (ticks w))
              = Some Directory
      end.
Proof.
  intros Hd. unfold client_write.
  destruct (ensure_verPath_run dir w d Hd) as (w1 & E1 & Hb1 & Hu1 & Hc1 & Ht1).
  rewrite (bind_Normal _ _ _ _ _ E1).
  destruct (sha256Hex (get_prop blob "ciphertext")) as [cs|e] eqn:Ecs; run.
  2:{ eexists _, _. split; [done|]. split; [apply Hc1|]. by split. }
  rewrite client_doc_code.
  destruct (version_bytes (client_doc blob profile cs)) as [data|e] eqn:Edata.
  2:{ eexists _, _. split; [done|]. split.
      - destruct Hc1. split; simpl; auto.
      - split; [intros k; apply Hu1|]. intros cs' data' [= <-] Hb.
        unfold bytes_of in Hb. unfold version_bytes, gzipBufferSync in Edata.
        congruence. }
  assert (Hname : version_filename (clock w1 (ticks w1))
                  = file_at (clock w (ticks w))).
  { destruct Hc1 as [-> _ _ _]. by rewrite Ht1. }
  rewrite Hname.
  destruct (version_files w dir !! file_at (clock w (ticks w))) as [[old|]|]
    eqn:Eold.
  3:{ destruct (writeFileSync_run dir (file_at (clock w (ticks w))) data
                  (set_ticks (S (ticks w1)) w1) _ Hb1) as
        (w2 & E2 & Hf2 & Ho2 & Hc2 & Ht2); [by rewrite Eold|].
      rewrite E2. eexists _, _. split; [done|]. split.
      { destruct Hc1, Hc2. simpl in *. split; congruence. }
      exists cs, data. split; [done|]. split; [done|]. split; [split|].
      - by rewrite Hf2.
      - intros k _ Hk. rewrite Ho2 by done. apply Hu1.
      - rewrite Ht2. simpl. by rewrite Ht1. }
  - destruct (writeFileSync_run dir (file_at (clock w (ticks w))) data
                (set_ticks (S (ticks w1)) w1) _ Hb1) as
      (w2 & E2 & Hf2 & Ho2 & Hc2 & Ht2); [by rewrite Eold|].
    rewrite E2. eexists _, _. split; [done|]. split.
    { destruct Hc1, Hc2. simpl in *. split; congruence. }
    exists cs, data. split; [done|]. split; [done|]. split; [split|].
    + by rewrite Hf2.
    + intros k _ Hk. rewrite Ho2 by done. apply Hu1.
    + rewrite Ht2. simpl. by rewrite Ht1.
  - destruct (writeFileSync_blocked dir (file_at (clock w (ticks w))) data
                (set_ticks (S (ticks w1)) w1) _ Hb1 Eold) as [e E2].
    rewrite E2. eexists _, _. split; [done|]. split.
    { destruct Hc1. split; simpl; auto. }
    split; [intros k; apply Hu1|done].
Qed.

Lemma server_assisted_write_run dir blob w d :
  blobs w !! dir = Some d →
  ∃ out w',
    server_assisted_write dir blob w = (out, w')
    ∧ continues w w'
    ∧ match out with
      | Normal _ =>
          ∃ data, stored dir (clock w (ticks w)) data w w'
                  ∧ ticks w' = S (ticks w)
      | Throw _ => ∀ k, version_files w' k = version_files w k
      end.
Proof.
  intros Hd. unfold server_assisted_write. run.
  destruct (scryptSync _ _ _) as [serverKey|e].
  2:{ eexists _, _. by repeat split. }
  destruct (Buffer_from _ _) as [plain|e].
  2:{ eexists _, _. by repeat split. }
  destruct (gzipBufferSync plain) as [gz|e].
  2:{ eexists _, _. by repeat split. }
  unfold aesGcmEncrypt, randomBytes. run.
  destruct (aes_256_gcm_seal _ _ _) as [[enc tag]|e].
  2:{ eexists _, _. by repeat split. }
  set (w0 := set_drawn _ w).
  destruct (ensure_verPath_run dir w0 d Hd) as (w1 & E1 & Hb1 & Hu1 & Hc1 & Ht1).
  rewrite E1.
  destruct (version_bytes _) as [data|e].
  2:{ eexists _, _. split; [done|]. destruct Hc1. split; [by split|].
      intros k. apply Hu1. }
  assert (Hname : version_filename (clock w1 (ticks w1))
                  = file_at (clock w (ticks w))).
  { destruct Hc1 as [-> _ _ _]. by rewrite Ht1. }
  rewrite Hname.
  change (version_files w0 dir) with (version_files w dir) in Hb1.
  destruct (version_files w dir !! file_at (clock w (ticks w))) as [[old|]|]
    eqn:Eold.
  3:{ destruct (writeFileSync_run dir (file_at (clock w (ticks w))) data
                  (set_ticks (S (ticks w1)) w1) _ Hb1) as
        (w2 & E2 & Hf2 & Ho2 & Hc2 & Ht2); [by rewrite Eold|].
      rewrite E2. eexists _, _. split; [done|]. split.
      { destruct Hc1, Hc2. simpl in *. split; congruence. }
      exists data. split; [split|].
      - by rewrite Hf2.
      - intros k _ Hk. rewrite Ho2 by done. apply Hu1.
      - rewrite Ht2. simpl. by rewrite Ht1. }
  - destruct (writeFileSync_run dir (file_at (clock w (ticks w))) data
                (set_ticks (S (ticks w1)) w1) _ Hb1) as
      (w2 & E2 & Hf2 & Ho2 & Hc2 & Ht2); [by rewrite Eold|].
    rewrite E2. eexists _, _. split; [done|]. split.
    { destruct Hc1, Hc2. simpl in *. split; congruence. }
    exists data. split; [split|].
    + by rewrite Hf2.
    + intros k _ Hk. rewrite Ho2 by done. apply Hu1.
    + rewrite Ht2. simpl. by rewrite Ht1.
  - destruct (writeFileSync_blocked dir (file_at (clock w (ticks w))) data
                (set_ticks (S (ticks w1)) w1) _ Hb1 Eold) as [e E2].
    rewrite E2. eexists _, _. split; [done|]. split.
    { destruct Hc1. split; simpl; auto. }
    intros k. apply Hu1.
Qed.

Lemma store_blob_run dir blob profile w d :
  blobs w !! dir = Some d →
  ∃ out w',
    store_blob dir blob profile w = (out, w')
    ∧ continues w w'
    ∧ match out with
      | Normal None =>
          if takes_plaintext blob profile || takes_ciphertext blob then
            ∃ data,
              stored dir (clock w (ticks w)) data w w'
              ∧ ticks w' = S (ticks w)
              ∧ (takes_plaintext blob profile = false →
                 ∃ cs, sha256Hex (get_prop blob "ciphertext") = Normal cs
                       ∧ bytes_of (client_doc blob profile cs) data)
          else w' = w
      | Normal (Some r) =>
          r = encryption_failed ∧ takes_plaintext blob profile = true
          ∧ ∀ k, version_files w' k = version_files w k
      | Throw _ =>
          takes_plaintext blob profile = false
          ∧ takes_ciphertext blob = true
          ∧ (∀ k, version_files w' k = version_files w k)
          ∧ ∀ cs data,
              sha256Hex (get_prop blob "ciphertext") = Normal cs →
              bytes_of (client_doc blob profile cs) data →
              version_files w dir !! file_at (clock w (ticks w))
              = Some Directory
      end.
Proof.
  intros Hd. unfold store_blob. fold (takes_plaintext blob profile).
  fold (takes_ciphertext blob).
  destruct (takes_plaintext blob profile).
  - destruct (server_assisted_write_run dir blob w d Hd)
      as ([[]|e] & w' & E & Hc & Ho).
    + unfold try_catch. rewrite (bind_Normal _ _ _ _ _ E). run.
      eexists _, _. split; [done|]. split; [done|].
      destruct Ho as (data & Hs & Ht). exists data.
      split; [done|]. split; [done|]. done.
    + unfold try_catch. rewrite (bind_Throw _ _ _ _ _ E). unfold reply. run.
      eexists _, _. split; [done|]. split; [done|]. by split.
  - destruct (takes_ciphertext blob).
    + destruct (client_write_run dir blob profile w d Hd)
        as ([[]|e] & w' & E & Hc & Ho).
      * rewrite (bind_Normal _ _ _ _ _ E). run. eexists _, _.
        split; [done|]. split; [done|]. simpl.
        destruct Ho as (cs & data & Hcs & Hdata & Hs & Ht).
        exists data. split; [done|]. split; [done|]. eauto.
      * rewrite (bind_Throw _ _ _ _ _ E). eexists _, _.
        split; [done|]. split; [done|]. destruct Ho. by repeat split.
    + run. eexists _, _. split; [done|]. by split.
Qed.

Lemma create_entry_run b w :
  ∃ w1,
    create_entry b w = (Normal (note_id b w, new_entry b w), w1)
    ∧ notesIndex w1 = new_entry b w :: notesIndex w
    ∧ historyLog w1 = (historyLog w ++ [index_logged w])%list
    ∧ blobs w1 = blobs w
    ∧ clock w1 = clock w ∧ metaFile w1 = metaFile w
    ∧ ticks w1 = (ticks w + 3)%nat
    ∧ same_sources w w1.
Proof.
  unfold create_entry, note_id, new_entry, index_logged, note_id.
  destruct (truthy (get_prop b "id")); eexists; (split; [reflexivity|]);
    simpl; repeat split; simpl; repeat f_equal; lia.
Qed.

Lemma createNote_run reqBody w s :
  let b := js_or reqBody (JObj []) in
  let blob := get_prop b "blob" in
  let profile := policy_of b w in
  truthy (get_prop b "title") = true →
  note_id b w = JStr s →
  ∃ out w',
    createNote reqBody w = (out, w')
    ∧ notesIndex w' = new_entry b w :: notesIndex w
    ∧ clock w' = clock w ∧ metaFile w' = metaFile w
    ∧ match out with
      | Normal r =>
          (r = note_created (new_entry b w)
           ∧ if takes_plaintext blob profile || takes_ciphertext blob then
               ∃ data,
                 stored s (write_time w) data w w'
                 ∧ ticks w' = (ticks w + 5)%nat
                 ∧ (takes_plaintext blob profile = false →
                    ∃ cs, sha256Hex (get_prop blob "ciphertext") = Normal cs
                          ∧ bytes_of (client_doc blob profile cs) data)
             else
               untouched w w'
               ∧ historyLog w'
                 = (historyLog w
                    ++ [index_logged w;
                        create_logged b w (write_time w) profile])%list)
          ∨ (r = encryption_failed ∧ takes_plaintext blob profile = true
             ∧ untouched w w')
      | Throw _ =>
          takes_plaintext blob profile = false
          ∧ takes_ciphertext blob = true ∧ untouched w w'
          ∧ ∀ cs data,
              sha256Hex (get_prop blob "ciphertext") = Normal cs →
              bytes_of (client_doc blob profile cs) data →
              version_files w s !! file_at (write_time w) = Some Directory
      end.
Proof.
  intros b blob profile Ht Hid. unfold createNote. fold b. rewrite Ht. simpl.
  destruct (create_entry_run b w)
    as (w1 & E1 & Hn1 & Hl1 & Hb1 & Hc1 & Hm1 & Ht1 & _).
  rewrite (bind_Normal _ _ _ _ _ E1), Hid. simpl.
  unfold lift at 1. unfold mbind at 1. unfold M_bind at 1.
  destruct (ensure_noteDir_run s w1) as (d & w2 & E2 & Hd2 & Hu2 & Hc2 & Ht2 & _).
  rewrite (bind_Normal _ _ _ _ _ E2).
  unfold gets at 1. unfold mbind at 1. unfold M_bind at 1.
  destruct Hc2 as [Hck2 Hm2 Hn2 Hl2]. rewrite Hm2, Hm1, resolve_profile_policy.
  fold blob. fold profile.
  assert (Hu1 : ∀ k, version_files w1 k = version_files w k).
  { intros k. apply version_files_blobs. by rewrite Hb1. }
  assert (Hu : ∀ k, version_files w2 k = version_files w k).
  { intros k. by rewrite Hu2, Hu1. }
  assert (Hwt : clock w2 (ticks w2) = write_time w).
  { unfold write_time. by rewrite Hck2, Hc1, Ht2, Ht1. }
  destruct (store_blob_run s blob profile w2 d Hd2)
    as ([[r|]|e] & w3 & E3 & [Hck3 Hm3 Hn3 Hl3] & Ho).
  - rewrite (bind_Normal _ _ _ _ _ E3). destruct Ho as (-> & Hp & Hu3).
    eexists _, _. split; [done|].
    rewrite Hn3, Hn2, Hck3, Hck2, Hm3, Hm2. repeat split; auto.
    right. repeat split; auto.
    intros k _. by rewrite Hu3, Hu.
  - rewrite (bind_Normal _ _ _ _ _ E3).
    unfold logHistory, append_history, reply. run.
    eexists _, _. split; [done|]. simpl.
    rewrite Hn3, Hn2, Hck3, Hck2, Hm3, Hm2. repeat split; auto.
    left. split; [done|].
    destruct (takes_plaintext blob profile || takes_ciphertext blob).
    + destruct Ho as (data & [Hs Hso] & Ht3 & Hdata). exists data.
      split; [|split].
      * rewrite Hwt in Hs. split.
        -- change (version_files w3 s
                   = <[file_at (write_time w) := File data]> (version_files w s)).
           by rewrite Hs, Hu.
        -- intros k Hk Hne.
           change (version_files w3 k = version_files w k).
           by rewrite Hso, Hu.
      * simpl. rewrite Ht3, Ht2, Ht1. lia.
      * done.
    + subst w3. split.
      * intros k _. simpl.
        change (version_files w2 k = version_files w k). apply Hu.
      * rewrite Hl2, Hl1, <- app_assoc. simpl. unfold create_logged, write_time.
        by rewrite Hc1, Ht2, Ht1, Hid.
  - rewrite (bind_Throw _ _ _ _ _ E3). destruct Ho as (Hp & Hq & Hu3 & Hlib).
    eexists _, _. split; [done|].
    rewrite Hn3, Hn2, Hck3, Hck2, Hm3, Hm2.
    split; [done|]. split; [done|]. split; [done|].
    split; [done|]. split; [done|]. split.
    + intros k _. by rewrite Hu3, Hu.
    + intros cs data Hcs Hdata. rewrite <- Hu, <- Hwt. by eapply Hlib.
Qed.

(** A client write whose document the library can compress, with no
    directory in the way of the file, succeeds. *)
Lemma createNote_client_ok reqBody w s c data :
  let b := js_or reqBody (JObj []) in
  let blob := get_prop b "blob" in
  let profile := policy_of b w in
  truthy (get_prop b "title") = true →
  note_id b w = JStr s →
  takes_plaintext blob profile = false →
  takes_ciphertext blob = true →
  get_prop blob "ciphertext" = JStr c →
  bytes_of (client_doc blob profile (sha256_hex c)) data →
  version_files w s !! file_at (write_time w) ≠ Some Directory →
  ∃ w',
    createNote reqBody w = (Normal (note_created (new_entry b w)), w')
    ∧ stored s (write_time w) data w w'
    ∧ notesIndex w' = new_entry b w :: notesIndex w
    ∧ clock w' = clock w ∧ metaFile w' = metaFile w
    ∧ ticks w' = (ticks w + 5)%nat.
Proof.
  intros b blob profile Ht Hid Hp Hq Hc Hdata Hfree.
  destruct (createNote_run reqBody w s Ht Hid)
    as ([r|e] & w' & E & Hn & Hck & Hm & Ho);
    fold b in Ho; fold blob in Ho; fold profile in Ho.
  - destruct Ho as [[-> Ho]|(_ & Hp' & _)]; [|congruence].
    rewrite Hp, Hq in Ho. simpl in Ho.
    destruct Ho as (data' & Hs & Ht' & Hlib).
    destruct (Hlib eq_refl) as (cs & Hcs & Hdata').
    rewrite Hc in Hcs. injection Hcs as <-.
    assert (data' = data) as ->.
    { unfold bytes_of in Hdata, Hdata'. congruence. }
    exists w'. split; [done|]. split; [done|]. by repeat split.
  - destruct Ho as (_ & _ & _ & Hlib). rewrite Hc in Hlib.
    by destruct (Hfree (Hlib (sha256_hex c) data eq_refl Hdata)).
Qed.

Lemma server_assisted_write_fails dir blob w :
  server_stage_fails blob w →
  ∃ e w', server_assisted_write dir blob w = (Throw e, w').
Proof.
  unfold server_stage_fails, server_assisted_write. run.
  destruct (scryptSync _ _ _) as [serverKey|e]; [|by eexists _, _].
  destruct (Buffer_from _ _) as [plain|e]; [|by eexists _, _].
  unfold gzipBufferSync.
  destruct (gzipSync plain) as [gz|e]; [|by eexists _, _].
  unfold aesGcmEncrypt, randomBytes. run. fold (next_nonce w).
  destruct (aes_256_gcm_seal _ _ _) as [[enc tag]|e]; [done|by eexists _, _].
Qed.

Lemma server_stage_fails_sources blob w w' :
  same_sources w w' → server_stage_fails blob w → server_stage_fails blob w'.
Proof.
  intros [Hs He Hd]. unfold server_stage_fails, next_nonce.
  by rewrite Hs, He, Hd.
Qed.

(** A failing stage of the server-assisted branch ends the request with
    the error reply of the [catch]. *)
Lemma createNote_stage_failure reqBody w s :
  let b := js_or reqBody (JObj []) in
  let blob := get_prop b "blob" in
  let profile := policy_of b w in
  truthy (get_prop b "title") = true →
  note_id b w = JStr s →
  takes_plaintext blob profile = true →
  server_stage_fails blob w →
  (createNote reqBody w).1 = Normal encryption_failed.
Proof.
  intros b blob profile Ht Hid Hp Hfail. unfold createNote. fold b.
  rewrite Ht. simpl.
  destruct (create_entry_run b w)
    as (w1 & E1 & _ & _ & _ & _ & Hm1 & _ & Hs1).
  rewrite (bind_Normal _ _ _ _ _ E1), Hid. simpl.
  unfold lift at 1. unfold mbind at 1. unfold M_bind at 1.
  destruct (ensure_noteDir_run s w1) as (d & w2 & E2 & _ & _ & Hc2 & _ & Hs2).
  rewrite (bind_Normal _ _ _ _ _ E2).
  unfold gets at 1. unfold mbind at 1. unfold M_bind at 1.
  destruct Hc2 as [_ Hm2 _ _]. rewrite Hm2, Hm1, resolve_profile_policy.
  fold blob. fold profile.
  unfold store_blob. fold (takes_plaintext blob profile). rewrite Hp.
  destruct (server_assisted_write_fails s blob w2) as (e & w3 & E3).
  { eauto using server_stage_fails_sources. }
  unfold try_catch at 1. unfold mbind at 1. unfold M_bind at 1.
  rewrite (bind_Throw _ _ _ _ _ E3). reflexivity.
Qed.

End Effects.

(** * The order of strings *)

Lemma ascii_compare_trans_lt a b c :
  Ascii.compare a b = Lt → Ascii.compare b c = Lt → Ascii.compare a c = Lt.
Proof.
  unfold Ascii.compare. rewrite !N.compare_lt_iff. lia.
Qed.

Lemma string_compare_refl s : String.compare s s = Eq.
Proof.
  induction s as [|a s IH]; simpl; [done|].
  unfold Ascii.compare. by rewrite N.compare_refl.
Qed.

Lemma string_compare_trans_lt s1 : ∀ s2 s3,
  String.compare s1 s2 = Lt → String.compare s2 s3 = Lt →
  String.compare s1 s3 = Lt.
Proof.
  induction s1 as [|a s1 IH]; intros [|b s2] [|c s3]; simpl; try done.
  destruct (Ascii.compare a b) eqn:Eab; try done;
    destruct (Ascii.compare b c) eqn:Ebc; try done; intros H1 H2.
  - apply Ascii.compare_eq_iff in Eab, Ebc. subst.
    unfold Ascii.compare. rewrite N.compare_refl. eauto.
  - apply Ascii.compare_eq_iff in Eab. subst. by rewrite Ebc.
  - apply Ascii.compare_eq_iff in Ebc. subst. by rewrite Eab.
  - by rewrite (ascii_compare_trans_lt _ _ _ Eab Ebc).
Qed.

Lemma N_of_utf16_rank c :
  N_of_ascii (utf16_rank c)
  = (let n := N_of_ascii c in
     if n <? 238 then n
     else if n <? 240 then n + 5
     else if n <? 245 then n - 2
     else n)%N.
Proof.
  unfold utf16_rank. pose proof (N_ascii_bounded c) as Hc. cbv zeta.
  destruct (N.ltb_spec (N_of_ascii c) 238); [done|].
  destruct (N.ltb_spec (N_of_ascii c) 240);
    [by rewrite N_ascii_embedding by lia|].
  destruct (N.ltb_spec (N_of_ascii c) 245);
    [by rewrite N_ascii_embedding by lia|done].
Qed.

Lemma utf16_rank_inj a b : utf16_rank a = utf16_rank b → a = b.
Proof.
  intros Heq. apply (f_equal N_of_ascii) in Heq.
  rewrite !N_of_utf16_rank in Heq. cbv zeta in Heq.
  rewrite <- (ascii_N_embedding a), <- (ascii_N_embedding b). f_equal.
  destruct (N.ltb_spec (N_of_ascii a) 238), (N.ltb_spec (N_of_ascii a) 240),
    (N.ltb_spec (N_of_ascii a) 245), (N.ltb_spec (N_of_ascii b) 238),
    (N.ltb_spec (N_of_ascii b) 240), (N.ltb_spec (N_of_ascii b) 245); lia.
Qed.

Lemma utf16_key_inj a : ∀ b, utf16_key a = utf16_key b → a = b.
Proof.
  induction a as [|c a IH]; intros [|d b]; simpl; try done.
  intros [= Hc Hr]. f_equal; [by apply utf16_rank_inj|by apply IH].
Qed.

Lemma utf16_key_app a b : utf16_key (a +:+ b) = utf16_key a +:+ utf16_key b.
Proof. induction a as [|c a IH]; simpl; [done|]. by rewrite IH. Qed.

(** The order of the code units is the order of the bytes on digits. *)
Lemma utf16_key_digits s : all_digits s = true → utf16_key s = s.
Proof.
  induction s as [|c s IH]; [done|]. simpl.
  intros [Hc Hs]%andb_true_iff. rewrite IH by done. f_equal.
  unfold is_digit, digit_of in Hc. unfold utf16_rank.
  destruct (N.ltb_spec (N_of_ascii c) 238); [done|].
  destruct (Z.leb_spec 48 (Z.of_N (N_of_ascii c))),
    (Z.leb_spec (Z.of_N (N_of_ascii c)) 57); simpl in Hc; try done. lia.
Qed.

Lemma str_le_alt a b :
  str_le a b ↔ String.compare (utf16_key a) (utf16_key b) = Lt ∨ a = b.
Proof.
  unfold str_le, String.leb. split.
  - destruct (String.compare (utf16_key a) (utf16_key b)) eqn:E;
      try done; auto.
    right. by apply utf16_key_inj, String.compare_eq_iff.
  - intros [->| ->]; [done|]. by rewrite string_compare_refl.
Qed.

Global Instance str_le_trans : Transitive str_le.
Proof.
  intros a b c. rewrite !str_le_alt. intros [Hab| ->] [Hbc| ->]; auto.
  left. eauto using string_compare_trans_lt.
Qed.

Global Instance str_le_antisymm : AntiSymm (=) str_le.
Proof.
  intros a b Hab Hba. apply utf16_key_inj. by apply String.leb_antisym.
Qed.

Global Instance str_le_total : Total str_le.
Proof. intros a b. apply String.leb_total. Qed.

(** ** Decimal printing and the order of file names *)

Lemma pretty_N_go_length x : ∀ s,
  (String.length s + (if decide (0 < x)%N then 1 else 0) ≤ String.length (pretty_N_go x s))%nat.
Proof.
  induction (N.lt_wf_0 x) as [x _ IH]; intros s.
  destruct (decide (0 < x)%N) as [Hx|Hx].
  - rewrite pretty_N_go_step by done.
    etrans; [|apply IH; by apply N.div_lt]. simpl. lia.
  - assert (x = 0%N) as -> by lia. rewrite pretty_N_go_0. lia.
Qed.

Lemma pretty_N_char_compare a b :
  (a < 10)%N → (b < 10)%N →
  Ascii.compare (pretty_N_char a) (pretty_N_char b) = N.compare a b.
Proof.
  intros Ha Hb.
  assert (a = 0 ∨ a = 1 ∨ a = 2 ∨ a = 3 ∨ a = 4 ∨ a = 5 ∨ a = 6 ∨ a = 7
          ∨ a = 8 ∨ a = 9)%N as Ha' by lia.
  assert (b = 0 ∨ b = 1 ∨ b = 2 ∨ b = 3 ∨ b = 4 ∨ b = 5 ∨ b = 6 ∨ b = 7
          ∨ b = 8 ∨ b = 9)%N as Hb' by lia.
  destruct Ha' as [->|[->|[->|[->|[->|[->|[->|[->|[->| ->]]]]]]]]];
  destruct Hb' as [->|[->|[->|[->|[->|[->|[->|[->|[->| ->]]]]]]]]]; reflexivity.
Qed.

Lemma N_compare_div_mod (x y : N) :
  N.compare x y
  = match N.compare (x `div` 10) (y `div` 10) with
    | Eq => N.compare (x `mod` 10) (y `mod` 10)
    | c => c
    end.
Proof.
  pose proof (N.div_mod x 10 ltac:(lia)) as Ex.
  pose proof (N.div_mod y 10 ltac:(lia)) as Ey.
  pose proof (N.mod_lt x 10 ltac:(lia)) as Hx.
  pose proof (N.mod_lt y 10 ltac:(lia)) as Hy.
  revert Ex Ey Hx Hy.
  generalize (x `div` 10)%N (y `div` 10)%N (x `mod` 10)%N (y `mod` 10)%N.
  intros qx qy rx ry -> -> Hx Hy.
  destruct (N.compare_spec qx qy) as [Hd|Hd|Hd].
  - subst qy. destruct (N.compare_spec rx ry) as [Hm|Hm|Hm].
    + apply N.compare_eq_iff. lia.
    + apply N.compare_lt_iff. lia.
    + apply N.compare_gt_iff. lia.
  - apply N.compare_lt_iff. lia.
  - apply N.compare_gt_iff. lia.
Qed.

Lemma pretty_N_go_compare x : ∀ y s s',
  String.length (pretty_N_go x s) = String.length (pretty_N_go y s') →
  String.length s = String.length s' →
  String.compare (pretty_N_go x s) (pretty_N_go y s')
  = match N.compare x y with Eq => String.compare s s' | c => c end.
Proof.
  induction (N.lt_wf_0 x) as [x _ IH]; intros y s s' Hl Hs.
  destruct (decide (0 < x)%N) as [Hx|Hx]; destruct (decide (0 < y)%N) as [Hy|Hy].
  - rewrite (pretty_N_go_step x), (pretty_N_go_step y) in * by done.
    rewrite IH; [|by apply N.div_lt|done|simpl; lia].
    rewrite (N_compare_div_mod x y).
    destruct (N.compare (x `div` 10) (y `div` 10)); try done.
    simpl. rewrite pretty_N_char_compare by (by apply N.mod_lt).
    by destruct (N.compare (x `mod` 10) (y `mod` 10)).
  - assert (y = 0%N) as -> by lia. rewrite pretty_N_go_0 in Hl.
    pose proof (pretty_N_go_length x s). rewrite decide_True in * by done. lia.
  - assert (x = 0%N) as -> by lia. rewrite pretty_N_go_0 in Hl.
    pose proof (pretty_N_go_length y s'). rewrite decide_True in * by done. lia.
  - assert (x = 0%N) as -> by lia. assert (y = 0%N) as -> by lia.
    by rewrite !pretty_N_go_0.
Qed.

Lemma pretty_N_go_app x : ∀ s1 s2,
  pretty_N_go x (s1 +:+ s2) = pretty_N_go x s1 +:+ s2.
Proof.
  induction (N.lt_wf_0 x) as [x _ IH]; intros s1 s2.
  destruct (decide (0 < x)%N) as [Hx|Hx].
  - rewrite !(pretty_N_go_step x) by done.
    rewrite <- IH by (by apply N.div_lt). done.
  - assert (x = 0%N) as -> by lia. by rewrite !pretty_N_go_0.
Qed.

Lemma pretty_N_go_length_mono x : ∀ y s s',
  (x ≤ y)%N → String.length s = String.length s' →
  (String.length (pretty_N_go x s) ≤ String.length (pretty_N_go y s'))%nat.
Proof.
  induction (N.lt_wf_0 x) as [x _ IH]; intros y s s' Hxy Hs.
  destruct (decide (0 < x)%N) as [Hx|Hx].
  - rewrite (pretty_N_go_step x), (pretty_N_go_step y) by lia.
    apply IH; [by apply N.div_lt|by apply N.Div0.div_le_mono|simpl; lia].
  - assert (x = 0%N) as -> by lia. rewrite pretty_N_go_0, Hs.
    pose proof (pretty_N_go_length y s'). lia.
Qed.

Lemma pretty_Zpos p : pretty (Zpos p) = pretty_N_go (Npos p) "".
Proof. done. Qed.

Lemma version_filename_pos p :
  version_filename (Zpos p) = pretty_N_go (Npos p) ".json.gz".
Proof.
  unfold version_filename. rewrite pretty_Zpos.
  by rewrite <- pretty_N_go_app.
Qed.

Lemma string_length_app s1 s2 :
  String.length (s1 +:+ s2) = (String.length s1 + String.length s2)%nat.
Proof. induction s1; simpl; auto. Qed.

Lemma pretty_N_go_nil x s : pretty_N_go x s = pretty_N_go x "" +:+ s.
Proof. by rewrite <- pretty_N_go_app. Qed.

Lemma version_filename_compare t1 t2 :
  0 < t1 → 0 < t2 →
  String.length (pretty t1) = String.length (pretty t2) →
  String.compare (version_filename t1) (version_filename t2)
  = Z.compare t1 t2.
Proof.
  intros H1 H2 Hl. destruct t1 as [|p1|]; try lia. destruct t2 as [|p2|]; try lia.
  rewrite !version_filename_pos. rewrite pretty_N_go_compare.
  - simpl. by destruct (p1 ?= p2)%positive.
  - rewrite !pretty_Zpos in Hl.
    rewrite (pretty_N_go_nil (Npos p1)), (pretty_N_go_nil (Npos p2)).
    rewrite !string_length_app. by rewrite Hl.
  - done.
Qed.

(** ** Reading the time stamp back from the file name *)

Lemma digit_of_pretty_N_char d :
  (d < 10)%N → digit_of (pretty_N_char d) = Some (Z.of_N d).
Proof.
  intros Hd.
  assert (d = 0 ∨ d = 1 ∨ d = 2 ∨ d = 3 ∨ d = 4 ∨ d = 5 ∨ d = 6 ∨ d = 7
          ∨ d = 8 ∨ d = 9)%N as Hd' by lia.
  destruct Hd' as [->|[->|[->|[->|[->|[->|[->|[->|[->| ->]]]]]]]]]; reflexivity.
Qed.

Lemma parse_digits_pretty_N_go x : ∀ s acc,
  ∃ k : nat,
    parse_digits acc (pretty_N_go x s)
    = parse_digits (acc * 10 ^ Z.of_nat k + Z.of_N x) s.
Proof.
  induction (N.lt_wf_0 x) as [x _ IH]; intros s acc.
  destruct (decide (0 < x)%N) as [Hx|Hx].
  - rewrite pretty_N_go_step by done.
    destruct (IH (x `div` 10)%N ltac:(by apply N.div_lt)
                (String (pretty_N_char (x `mod` 10)) s) acc) as [k ->].
    exists (S k). simpl. rewrite digit_of_pretty_N_char by (by apply N.mod_lt).
    f_equal. rewrite Nat2Z.inj_succ, Z.pow_succ_r by lia.
    rewrite (N.div_mod x 10) at 3 by done.
    rewrite N2Z.inj_add, N2Z.inj_mul. simpl Z.of_N. ring.
  - assert (x = 0%N) as -> by lia. exists 0%nat.
    rewrite pretty_N_go_0. f_equal. simpl. lia.
Qed.

Lemma parse_digits_pretty t : 0 < t → parse_digits 0 (pretty t) = Some t.
Proof.
  intros Ht. destruct t as [|p|]; try lia. rewrite pretty_Zpos.
  destruct (parse_digits_pretty_N_go (Npos p) "" 0) as [k ->]. simpl.
  f_equal.
Qed.

Lemma all_digits_pretty_N_go x : ∀ s,
  all_digits s = true → all_digits (pretty_N_go x s) = true.
Proof.
  induction (N.lt_wf_0 x) as [x _ IH]; intros s Hs.
  destruct (decide (0 < x)%N) as [Hx|Hx].
  - rewrite pretty_N_go_step by done. apply IH; [by apply N.div_lt|].
    simpl. rewrite Hs. unfold is_digit.
    by rewrite digit_of_pretty_N_char by (by apply N.mod_lt).
  - assert (x = 0%N) as -> by lia. by rewrite pretty_N_go_0.
Qed.

Lemma prefix_json_gz c r :
  c ≠ "."%char → String.prefix ".json.gz" (String c r) = false.
Proof.
  intros Hc.
  change (String.prefix ".json.gz" (String c r))
    with (match ascii_dec "." c with
          | left _ => String.prefix "json.gz" r
          | right _ => false
          end).
  destruct (ascii_dec "." c); congruence.
Qed.

Lemma split_head_digits s :
  all_digits s = true → split_head ".json.gz" (s +:+ ".json.gz") = s.
Proof.
  induction s as [|c s IH]; [done|].
  intros [Hc Hs]%andb_true_iff.
  change (split_head ".json.gz" (String c s +:+ ".json.gz"))
    with (if String.prefix ".json.gz" (String c (s +:+ ".json.gz"))
          then EmptyString
          else String c (split_head ".json.gz" (s +:+ ".json.gz"))).
  rewrite prefix_json_gz, IH; [done..|].
  intros ->. done.
Qed.


Lemma pretty_length_mono a b :
  0 < a → a ≤ b →
  (String.length (pretty a) ≤ String.length (pretty b))%nat.
Proof.
  intros Ha Hab. destruct a as [|p|]; try lia. destruct b as [|q|]; try lia.
  rewrite !pretty_Zpos. apply pretty_N_go_length_mono; [lia|done].
Qed.

Section Listing.
Context `{NodeLib}.

Lemma Number_version_filename t :
  0 < t < 2 ^ 53 →
  Number (split_head ".json.gz" (version_filename t)) = JNum t.
Proof.
  intros [Ht Hb]. unfold version_filename.
  rewrite split_head_digits.
  - unfold Number. rewrite parse_digits_pretty by done.
    by rewrite (proj2 (Z.ltb_lt _ _) Hb).
  - destruct t as [|p|]; try lia. rewrite pretty_Zpos.
    by apply all_digits_pretty_N_go.
Qed.

Lemma version_filename_lt t1 t2 :
  0 < t1 → t1 < t2 →
  String.length (pretty t1) = String.length (pretty t2) →
  String.compare (version_filename t1) (version_filename t2) = Lt.
Proof.
  intros H1 H2 Hl. rewrite version_filename_compare by (done || lia).
  by apply Z.compare_lt_iff.
Qed.

Lemma utf16_key_version_filename t :
  0 < t → utf16_key (version_filename t) = version_filename t.
Proof.
  intros Ht. unfold version_filename.
  rewrite utf16_key_app, utf16_key_digits; [done|].
  destruct t as [|p|]; try lia. rewrite pretty_Zpos.
  by apply all_digits_pretty_N_go.
Qed.

(** Among the names of positive time stamps printed with the same number
    of digits, [sort()] puts the earlier first. *)
Lemma version_filename_le t1 t2 :
  0 < t1 → t1 < t2 →
  String.length (pretty t1) = String.length (pretty t2) →
  str_le (version_filename t1) (version_filename t2).
Proof.
  intros H1 H2 Hl. apply str_le_alt. left.
  rewrite !utf16_key_version_filename by lia. by apply version_filename_lt.
Qed.

Lemma no_separator_app a b :
  no_separator (a +:+ b) = no_separator a && no_separator b.
Proof.
  induction a as [|c a IH]; simpl; [done|]. rewrite IH.
  by rewrite !andb_assoc.
Qed.

Lemma no_separator_digits s : all_digits s = true → no_separator s = true.
Proof.
  induction s as [|c s IH]; [done|]. simpl.
  intros [Hc Hs]%andb_true_iff. rewrite IH by done.
  unfold is_digit, digit_of in Hc.
  destruct c as [[] [] [] [] [] [] [] []]; try done.
Qed.

(** The name of a file written at a clock reading that is a positive safe
    integer is a plain name. *)
Lemma file_at_plain t : 0 < t < 2 ^ 53 → plain_name (file_at t) = true.
Proof.
  intros [Ht Hb]. unfold plain_name, file_at.
  assert (Hlen : (String.length (pretty t) ≤ 16)%nat).
  { pose proof (pretty_length_mono t (2 ^ 53) Ht ltac:(lia)) as Hm.
    change (String.length (pretty (2 ^ 53))) with 16%nat in Hm. done. }
  assert (Hd : all_digits (pretty t) = true).
  { destruct t as [|p|]; try lia. rewrite pretty_Zpos.
    by apply all_digits_pretty_N_go. }
  rewrite no_separator_app, (no_separator_digits _ Hd), string_length_app.
  assert (Hne : ∀ x, (String.length x ≤ 2)%nat →
            String.eqb (pretty t +:+ ".json.gz") x = false).
  { intros x Hx. apply String.eqb_neq. intros Heq.
    apply (f_equal String.length) in Heq.
    rewrite string_length_app in Heq. simpl in Heq. lia. }
  rewrite !Hne by (simpl; lia). simpl.
  apply Nat.leb_le. lia.
Qed.

Lemma string_compare_lt_ne a b : String.compare a b = Lt → a ≠ b.
Proof. intros Hlt ->. by rewrite string_compare_refl in Hlt. Qed.

Lemma js_sort_three (f1 f2 f3 : string) (l : list string) :
  str_le f1 f2 → str_le f2 f3 →
  l ≡ₚ [f1; f2; f3] → js_sort l = [f1; f2; f3].
Proof.
  intros H12 H23 Hp. unfold js_sort.
  apply (Sorted_unique str_le).
  - apply Sorted_merge_sort, _.
  - by repeat constructor.
  - by rewrite merge_sort_Permutation.
Qed.

Lemma readdirSync_three (f1 f2 f3 : string) (d1 d2 d3 : Entry) :
  f1 ≠ f2 → f2 ≠ f3 → f1 ≠ f3 →
  readdirSync (<[f1 := d1]> (<[f2 := d2]> {[f3 := d3]})) ≡ₚ [f1; f2; f3].
Proof.
  intros H12 H23 H13. unfold readdirSync.
  rewrite map_to_list_insert by (by simplify_map_eq).
  rewrite map_to_list_insert by (by simplify_map_eq).
  by rewrite map_to_list_singleton.
Qed.

(** ** What the listing reads from a file *)

Lemma summary_meta_reads data doc :
  reads_as data doc → summary_meta data = listed_meta doc.
Proof.
  intros (raw & Hraw & Hdoc). unfold summary_meta, gunzipBufferSync.
  rewrite Hraw. unfold mbind, completion_bind. by rewrite Hdoc.
Qed.

Lemma summary_meta_unreadable data :
  unreadable data → summary_meta data = JNull.
Proof.
  unfold unreadable, summary_meta, gunzipBufferSync.
  destruct (gunzipSync data) as [raw|e]; [|done].
  intros [e He]. unfold mbind, completion_bind. by rewrite He.
Qed.

Lemma version_summary_file (dir : gmap string Entry) f data :
  dir !! f = Some (File data) →
  version_summary dir f
  = Normal (JObj [("filename", JStr f);
                  ("ts", Number (split_head ".json.gz" f));
                  ("meta", summary_meta data)]).
Proof. intros Hf. unfold version_summary, readFileSync. by rewrite Hf. Qed.

Lemma version_summary_directory (dir : gmap string Entry) f :
  dir !! f = Some Directory → ∃ e, version_summary dir f = Throw e.
Proof. intros Hf. unfold version_summary, readFileSync. rewrite Hf. eauto. Qed.

(** The summary of the file written at [t], a safe integer, that holds a
    document. *)
Lemma version_summary_written (dir : gmap string Entry) t data doc :
  0 < t < 2 ^ 53 →
  dir !! file_at t = Some (File data) →
  reads_as data doc →
  version_summary dir (file_at t) = Normal (summary_of t (listed_meta doc)).
Proof.
  intros Ht Hd Hdoc. rewrite (version_summary_file _ _ _ Hd).
  change (file_at t) with (version_filename t).
  rewrite Number_version_filename by done.
  by rewrite (summary_meta_reads _ _ Hdoc).
Qed.

Lemma version_summary_shown (dir : gmap string Entry) t data m :
  0 < t < 2 ^ 53 →
  dir !! file_at t = Some (File data) →
  shown_meta data m →
  version_summary dir (file_at t) = Normal (summary_of t m).
Proof.
  intros Ht Hd Hm. rewrite (version_summary_file _ _ _ Hd).
  change (file_at t) with (version_filename t).
  rewrite Number_version_filename by done.
  destruct Hm as [(doc & Hdoc & ->)|[Hbad ->]].
  - by rewrite (summary_meta_reads _ _ Hdoc).
  - by rewrite (summary_meta_unreadable _ Hbad).
Qed.

Lemma map_throwing_Normal {A B} (g : A → completion B) (l : list A) :
  (∀ x, x ∈ l → ∃ y, g x = Normal y) →
  ∃ ys, map_throwing g l = Normal ys ∧ Forall2 (λ x y, g x = Normal y) l ys.
Proof.
  induction l as [|x l IH]; intros Hl.
  - exists []. by split.
  - destruct (Hl x) as [y Hy]; [by left|].
    destruct IH as (ys & E & Hys); [intros z Hz; apply Hl; by right|].
    exists (y :: ys). simpl. rewrite Hy, E. split; [done|]. by constructor.
Qed.

Lemma map_throwing_Throw {A B} (g : A → completion B) (l : list A) x e :
  x ∈ l → g x = Throw e → ∃ e', map_throwing g l = Throw e'.
Proof.
  intros Hx Hg. induction l as [|z l IH]; [by apply elem_of_nil in Hx|].
  simpl. destruct (g z) as [y|e1] eqn:Ez; [|eauto].
  apply elem_of_cons in Hx as [->|Hx]; [congruence|].
  destruct (IH Hx) as [e' ->]. eauto.
Qed.

Lemma version_files_dir w nid (dir : gmap string Entry) :
  version_files w nid = dir → dir ≠ ∅ → existing_verDir nid w = Some dir.
Proof.
  unfold version_files, existing_verDir.
  destruct (blobs w !! nid) as [[d|]|]; congruence.
Qed.

(** File names are sorted as strings: for positive safe integers printed
    with the same number of digits that is the order of the numbers, and
    the listing is newest first. *)
Lemma listVersions_same_width
    (nid : string) (w : World) (t1 t2 t3 : Z) (d1 d2 d3 : Buffer)
    (m1 m2 m3 : jsval) :
  0 < t1 → t1 < t2 → t2 < t3 → t3 < 2 ^ 53 →
  String.length (pretty t1) = String.length (pretty t3) →
  version_files w nid
  = <[file_at t1 := File d1]>
      (<[file_at t2 := File d2]> {[file_at t3 := File d3]}) →
  shown_meta d1 m1 → shown_meta d2 m2 → shown_meta d3 m3 →
  listVersions nid w
  = (Normal {| status := 200;
               body := JObj [("versions",
                              JArr [summary_of t3 m3; summary_of t2 m2;
                                    summary_of t1 m1])] |}, w).
Proof.
  intros H0 H12 H23 Hsafe Hlen Hfiles Hr1 Hr2 Hr3.
  pose proof (version_files_dir _ _ _ Hfiles ltac:(apply insert_non_empty))
    as Hdir.
  pose proof (pretty_length_mono t1 t2 ltac:(lia) ltac:(lia)) as Hm12.
  pose proof (pretty_length_mono t2 t3 ltac:(lia) ltac:(lia)) as Hm23.
  change file_at with version_filename in *.
  assert (Hlt12 : String.compare (version_filename t1) (version_filename t2) = Lt)
    by (apply version_filename_lt; lia).
  assert (Hlt23 : String.compare (version_filename t2) (version_filename t3) = Lt)
    by (apply version_filename_lt; lia).
  assert (Hlt13 : String.compare (version_filename t1) (version_filename t3) = Lt)
    by (apply version_filename_lt; lia).
  pose proof (string_compare_lt_ne _ _ Hlt12) as Hne12.
  pose proof (string_compare_lt_ne _ _ Hlt23) as Hne23.
  pose proof (string_compare_lt_ne _ _ Hlt13) as Hne13.
  unfold listVersions, gets, reply, lift, mbind, M_bind, mret, M_ret.
  rewrite Hdir.
  rewrite (js_sort_three (version_filename t1) (version_filename t2)
             (version_filename t3));
    [|apply version_filename_le; lia|apply version_filename_le; lia
     |by apply readdirSync_three].
  change (reverse [version_filename t1; version_filename t2; version_filename t3])
    with [version_filename t3; version_filename t2; version_filename t1].
  cbn [map_throwing].
  change version_filename with file_at.
  rewrite (version_summary_shown _ t3 d3 m3),
    (version_summary_shown _ t2 d2 m2),
    (version_summary_shown _ t1 d1 m1); [done|lia|..]; try done; try lia.
  - by rewrite lookup_insert_eq.
  - rewrite lookup_insert_ne by done. by rewrite lookup_insert_eq.
  - rewrite !lookup_insert_ne by done. by rewrite lookup_singleton_eq.
Qed.

Lemma pretty_epoch_ms t : epoch_ms t → String.length (pretty t) = 13%nat.
Proof.
  intros [Hlo Hhi].
  pose proof (pretty_length_mono (10 ^ 12) t ltac:(lia) Hlo) as H1.
  pose proof (pretty_length_mono t (10 ^ 13 - 1) ltac:(lia) ltac:(lia)) as H2.
  change (String.length (pretty (10 ^ 12))) with 13%nat in H1.
  change (String.length (pretty (10 ^ 13 - 1))) with 13%nat in H2.
  lia.
Qed.

(** C6 (as amended). A note, named by one directory entry, whose stored
    versions are three files written at times t1 < t2 < t3 that are
    readings of the clock of thirteen digits, as every reading from
    September 2001 to November 2286 is (so t2, between the other two, is
    one as well), is listed newest first: the summaries of t3, t2 and t1 in
    this order, each one the file name, the time stamp and the [meta]
    member of the document the file holds ([null] if it has none, or holds
    no document), never its ciphertext.  File names are sorted as strings,
    so the order of the listing is that of the times only among names of
    one length. *)
Theorem listVersions_newest_first
    (nid : string) (w : World) (t1 t2 t3 : Z) (d1 d2 d3 : Buffer)
    (m1 m2 m3 : jsval) :
  plain_name nid = true →
  epoch_ms t1 → epoch_ms t3 →
  t1 < t2 → t2 < t3 →
  version_files w nid
  = <[file_at t1 := File d1]>
      (<[file_at t2 := File d2]> {[file_at t3 := File d3]}) →
  shown_meta d1 m1 → shown_meta d2 m2 → shown_meta d3 m3 →
  listVersions nid w
  = (Normal
       {| status := 200;
          body :=
            JObj [("versions",
                   JArr [JObj [("filename", JStr (file_at t3)); ("ts", JNum t3);
                               ("meta", m3)];
                         JObj [("filename", JStr (file_at t2)); ("ts", JNum t2);
                               ("meta", m2)];
                         JObj [("filename", JStr (file_at t1)); ("ts", JNum t1);
                               ("meta", m1)]])] |}, w).
Proof.
  intros _ E1 E3 H12 H23 Hfiles Hr1 Hr2 Hr3.
  apply (listVersions_same_width nid w t1 t2 t3 d1 d2 d3); try done.
  - destruct E1. lia.
  - destruct E3. lia.
  - by rewrite !pretty_epoch_ms.
Qed.

End Listing.

(** * The create-note handler *)

Section Notes.
Context `{NodeLib}.

Lemma plain_name_nonempty s : plain_name s = true → s ≠ EmptyString.
Proof. by intros Hs ->. Qed.

(** C1 (as amended). A create-note request with a title, whose note
    identifier (the id of the request or, when it gives none, the one the
    server makes) is a string that names one directory entry, and
    whose blob carries plaintext (and no ciphertext with iv) while the
    resolved policy is client-only, is accepted: the reply is the success
    reply with the new index entry, not an error.  No version file is
    written and nothing persisted holds the plaintext: the index gains the
    entry, the log gains the two lines of every create, the configuration
    is as before. *)
Theorem plaintext_under_client_only_is_accepted reqBody w s :
  let b := js_or reqBody (JObj []) in
  let blob := get_prop b "blob" in
  truthy (get_prop b "title") = true →
  note_id b w = JStr s →
  plain_name s = true →
  truthy (get_prop blob "plaintext") = true →
  policy_of b w = JStr "client-only" →
  takes_ciphertext blob = false →
  ∃ w',
    createNote reqBody w = (Normal (note_created (new_entry b w)), w')
    ∧ untouched w w'
    ∧ notesIndex w' = new_entry b w :: notesIndex w
    ∧ metaFile w' = metaFile w
    ∧ historyLog w'
      = (historyLog w
         ++ [index_logged w;
             create_logged b w (write_time w) (JStr "client-only")])%list.
Proof.
  intros b blob Ht Hid _ Hp Hprof Hq.
  destruct (createNote_run reqBody w s Ht Hid)
    as (out & w' & E & Hn & Hck & Hm & Ho).
  fold b in Ho; fold blob in Ho. rewrite Hprof in Ho.
  assert (Hsa : takes_plaintext blob (JStr "client-only") = false).
  { unfold takes_plaintext. simpl. by rewrite andb_false_r. }
  rewrite Hsa, Hq in Ho. simpl in Ho. destruct out as [r|e].
  - destruct Ho as [[-> [Hu Hl]]|(_ & [=] & _)].
    exists w'. by repeat split.
  - by destruct Ho as (_ & [=] & _).
Qed.

(** C2 (as amended). A create-note request whose note identifier is a
    string that names one directory entry and that carries a blob the
    handler stores either succeeds, and then exactly one version file is
    written, or fails, and then no version file of any note is written or
    changed.  A failure of key derivation, of compression or of encryption
    in the server-assisted branch is such a failure: it is answered with
    the error reply of the [catch].  The index entry of the note is
    persisted before the blob is looked at, so it is there in every case,
    also after a failure. *)
Theorem failed_write_leaves_no_version reqBody w s :
  let b := js_or reqBody (JObj []) in
  let blob := get_prop b "blob" in
  let profile := policy_of b w in
  truthy (get_prop b "title") = true →
  note_id b w = JStr s →
  plain_name s = true →
  takes_plaintext blob profile || takes_ciphertext blob = true →
  ∃ out w',
    createNote reqBody w = (out, w')
    ∧ notesIndex w' = new_entry b w :: notesIndex w
    ∧ match out with
      | Normal r =>
          (r = note_created (new_entry b w)
           ∧ ∃ data, stored s (write_time w) data w w')
          ∨ (r = encryption_failed ∧ untouched w w')
      | Throw _ => untouched w w'
      end
    ∧ (takes_plaintext blob profile = true →
       server_stage_fails blob w →
       out = Normal encryption_failed).
Proof.
  intros b blob profile Ht Hid _ Hblob.
  destruct (createNote_run reqBody w s Ht Hid)
    as (out & w' & E & Hn & Hck & Hm & Ho).
  fold b in Ho; fold blob in Ho; fold profile in Ho. rewrite Hblob in Ho.
  exists out, w'. split; [done|]. split; [done|]. split.
  - destruct out as [r|e].
    + destruct Ho as [[-> (data & Hs & _)]|(-> & _ & Hu)]; [left|right]; eauto.
    + by destruct Ho as (_ & _ & Hu & _).
  - intros Hp Hfail.
    pose proof (createNote_stage_failure reqBody w s Ht Hid Hp Hfail) as Hout.
    by rewrite E in Hout.
Qed.

Lemma string_app_inv_r (a b s : string) : a +:+ s = b +:+ s → a = b.
Proof.
  revert b. induction a as [|c a IH]; intros [|c' b] Heq; simpl in Heq.
  - done.
  - apply (f_equal String.length) in Heq.
    rewrite !string_length_app in Heq. simpl in Heq. lia.
  - apply (f_equal String.length) in Heq.
    rewrite !string_length_app in Heq. simpl in Heq. lia.
  - injection Heq as <- Heq. f_equal. by apply IH.
Qed.

Lemma version_filename_inj t1 t2 :
  version_filename t1 = version_filename t2 → t1 = t2.
Proof.
  unfold version_filename. intros Heq.
  by apply (inj pretty), (string_app_inv_r _ _ ".json.gz").
Qed.

Lemma file_at_inj t1 t2 : file_at t1 = file_at t2 → t1 = t2.
Proof. apply version_filename_inj. Qed.

(** A write that is answered with the success reply stored its file. *)
Lemma createNote_stored reqBody w s :
  let b := js_or reqBody (JObj []) in
  let blob := get_prop b "blob" in
  let profile := policy_of b w in
  truthy (get_prop b "title") = true →
  note_id b w = JStr s →
  takes_plaintext blob profile || takes_ciphertext blob = true →
  (createNote reqBody w).1 = Normal (note_created (new_entry b w)) →
  metaFile (createNote reqBody w).2 = metaFile w
  ∧ ∃ data, stored s (write_time w) data w (createNote reqBody w).2.
Proof.
  intros b blob profile Ht Hid Hblob Hok.
  destruct (createNote_run reqBody w s Ht Hid)
    as (out & w' & E & _ & _ & Hm & Ho).
  fold b in Ho; fold blob in Ho; fold profile in Ho.
  rewrite Hblob in Ho. rewrite E in *. simpl in *. subst out.
  split; [done|]. destruct Ho as [[_ (data & Hs & _)]|([=] & _)]. eauto.
Qed.

(** C3 (as amended). Two writes to the same note, named by a string that
    names one directory entry, whose file time stamps differ leave two
    distinct version files: the file of the first write is still there,
    with the same bytes, after the second, and no other file of the note or
    of any other note has changed.  A version file is named by its time
    stamp alone: nothing breaks a tie, so the statement is about writes at
    different readings of the clock. *)
Theorem writes_at_distinct_times_are_retained req1 req2 w s :
  let b1 := js_or req1 (JObj []) in
  let b2 := js_or req2 (JObj []) in
  let blob1 := get_prop b1 "blob" in
  let blob2 := get_prop b2 "blob" in
  let w1 := (createNote req1 w).2 in
  let w2 := (createNote req2 w1).2 in
  let profile1 := policy_of b1 w in
  let profile2 := policy_of b2 w1 in
  truthy (get_prop b1 "title") = true →
  truthy (get_prop b2 "title") = true →
  get_prop b1 "id" = JStr s → get_prop b2 "id" = JStr s →
  plain_name s = true →
  takes_plaintext blob1 profile1 || takes_ciphertext blob1 = true →
  takes_plaintext blob2 profile2 || takes_ciphertext blob2 = true →
  (createNote req1 w).1 = Normal (note_created (new_entry b1 w)) →
  (createNote req2 w1).1 = Normal (note_created (new_entry b2 w1)) →
  write_time w ≠ write_time w1 →
  ∃ data1 data2,
    version_files w1 s !! file_at (write_time w) = Some (File data1)
    ∧ version_files w2 s !! file_at (write_time w) = Some (File data1)
    ∧ version_files w2 s !! file_at (write_time w1) = Some (File data2)
    ∧ file_at (write_time w) ≠ file_at (write_time w1)
    ∧ (∀ f, f ≠ file_at (write_time w) →
            f ≠ file_at (write_time w1) →
            version_files w2 s !! f = version_files w s !! f)
    ∧ (∀ k, plain_name k = true → k ≠ s →
            version_files w2 k = version_files w k).
Proof.
  intros b1 b2 blob1 blob2 w1 w2 profile1 profile2
    Ht1 Ht2 Hid1 Hid2 Hs Hb1 Hb2 Hok1 Hok2 Hne.
  assert (Hs' : truthy (JStr s) = true).
  { simpl. apply negb_true_iff, String.eqb_neq. by apply plain_name_nonempty. }
  assert (Hn1 : note_id b1 w = JStr s).
  { unfold note_id. by rewrite Hid1, Hs'. }
  assert (Hn2 : note_id b2 w1 = JStr s).
  { unfold note_id. by rewrite Hid2, Hs'. }
  destruct (createNote_stored req1 w s Ht1 Hn1 Hb1 Hok1)
    as (Hm1 & data1 & Hf1 & Ho1).
  fold w1 in Hm1, Hf1, Ho1.
  destruct (createNote_stored req2 w1 s Ht2 Hn2 Hb2 Hok2)
    as (_ & data2 & Hf2 & Ho2).
  fold w2 in Hf2, Ho2.
  assert (Hfn : file_at (write_time w) ≠ file_at (write_time w1)).
  { intros Heq. by apply Hne, file_at_inj. }
  exists data1, data2. rewrite Hf2, Hf1. repeat split.
  - by rewrite lookup_insert_eq.
  - rewrite lookup_insert_ne by done. by rewrite lookup_insert_eq.
  - by rewrite lookup_insert_eq.
  - done.
  - intros f Hf Hf'. by rewrite !lookup_insert_ne.
  - intros k Hp Hk. rewrite Ho2 by done. by apply Ho1.
Qed.

Lemma truthy_of_member blob k c :
  get_prop blob k = JStr c → truthy blob = true.
Proof. by destruct blob. Qed.

Lemma truthy_JStr c : c ≠ EmptyString → truthy (JStr c) = true.
Proof. intros Hc. simpl. apply negb_true_iff. by apply String.eqb_neq. Qed.

(** What a request that names its mode, hybrid or client-only, and carries
    a ciphertext with iv stores. *)
Lemma createNote_named_mode fields w s c (mode : string) data :
  let blob := assoc "blob" fields in
  mode = "hybrid" ∨ mode = "client-only" →
  truthy (assoc "title" fields) = true →
  note_id (JObj fields) w = JStr s →
  get_prop blob "ciphertext" = JStr c → c ≠ EmptyString →
  truthy (get_prop blob "iv") = true →
  bytes_of
    (JObj [("ciphertext", JStr c); ("iv", get_prop blob "iv");
           ("meta",
            JObj [("iv", get_prop blob "iv");
                  ("checksum", JStr (sha256_hex c));
                  ("mode", JStr mode);
                  ("meta", if truthy (get_prop blob "meta")
                           then get_prop blob "meta" else JObj [])])])
    data →
  version_files w s !! file_at (write_time w) ≠ Some Directory →
  ∃ w',
    createNote (JObj (("encryptionMode", JStr mode) :: fields)) w
    = (Normal (note_created (new_entry (JObj fields) w)), w')
    ∧ stored s (write_time w) data w w'.
Proof.
  intros blob Hmode Ht Hid Hc Hne Hiv Hdata Hfree.
  assert (Hq : takes_ciphertext blob = true).
  { unfold takes_ciphertext.
    by rewrite (truthy_of_member _ _ _ Hc), Hc, truthy_JStr, Hiv. }
  destruct Hmode as [-> | ->].
  - edestruct (createNote_client_ok
                 (JObj (("encryptionMode", JStr "hybrid") :: fields)) w s c data)
      as (w' & E & Hs & _); try done.
    + unfold takes_plaintext. simpl. by rewrite andb_false_r.
    + unfold client_doc, version_doc. simpl. fold blob. by rewrite Hc.
    + by exists w'.
  - edestruct (createNote_client_ok
                 (JObj (("encryptionMode", JStr "client-only") :: fields))
                 w s c data)
      as (w' & E & Hs & _); try done.
    + unfold takes_plaintext. simpl. by rewrite andb_false_r.
    + unfold client_doc, version_doc. simpl. fold blob. by rewrite Hc.
    + by exists w'.
Qed.

(** C9. Under the hybrid policy the stored file is the compressed JSON text
    of a document that holds the ciphertext and the iv the client sent,
    untouched: no server-side wrapping is applied.  The same request under
    client-only stores, at the same file name, the same document except for
    the mode written in its meta.  The note is named by a string that names
    one directory entry, and no directory stands where the file is
    written. *)
Theorem hybrid_stores_the_client_payload fields w s c data_h data_c :
  let blob := assoc "blob" fields in
  let nonce := get_prop blob "iv" in
  let doc (mode : string) :=
    JObj [("ciphertext", JStr c); ("iv", nonce);
          ("meta",
           JObj [("iv", nonce);
                 ("checksum", JStr (sha256_hex c));
                 ("mode", JStr mode);
                 ("meta", if truthy (get_prop blob "meta")
                          then get_prop blob "meta" else JObj [])])] in
  let request (mode : string) :=
    JObj (("encryptionMode", JStr mode) :: fields) in
  truthy (assoc "title" fields) = true →
  note_id (JObj fields) w = JStr s →
  plain_name s = true →
  get_prop blob "ciphertext" = JStr c → c ≠ EmptyString →
  truthy nonce = true →
  gzipSync (list_byte_of_string (JSON_stringify (doc "hybrid")))
  = Normal data_h →
  gzipSync (list_byte_of_string (JSON_stringify (doc "client-only")))
  = Normal data_c →
  version_files w s !! file_at (write_time w) ≠ Some Directory →
  ∃ wh wc,
    createNote (request "hybrid") w
    = (Normal (note_created (new_entry (JObj fields) w)), wh)
    ∧ createNote (request "client-only") w
      = (Normal (note_created (new_entry (JObj fields) w)), wc)
    ∧ version_files wh s
      = <[file_at (write_time w) := File data_h]> (version_files w s)
    ∧ version_files wc s
      = <[file_at (write_time w) := File data_c]> (version_files w s)
    ∧ (∀ k, plain_name k = true → k ≠ s →
            version_files wh k = version_files w k
            ∧ version_files wc k = version_files w k).
Proof.
  intros blob nonce doc request Ht Hid _ Hc Hne Hiv Hh Hco Hfree.
  destruct (createNote_named_mode fields w s c "hybrid" data_h)
    as (wh & Eh & Hsh & Hoh); auto.
  destruct (createNote_named_mode fields w s c "client-only" data_c)
    as (wc & Ec & Hsc & Hoc); auto.
  exists wh, wc. repeat split; auto.
Qed.

End Notes.

(** * Key derivation and the cipher *)

Section Crypto.
Context `{NodeLib}.

Lemma clamp_index_inside len i : 0 ≤ i ≤ len → clamp_index len i = i.
Proof.
  intros Hi. unfold clamp_index.
  rewrite (proj2 (Z.ltb_ge _ _)) by lia. lia.
Qed.

Lemma Buffer_slice_split (enc tag : Buffer) :
  length tag = 16%nat →
  let buffer := (enc ++ tag)%list in
  Buffer_slice_from buffer (Z.of_nat (length buffer) - 16) = tag
  ∧ Buffer_slice buffer 0 (Z.of_nat (length buffer) - 16) = enc.
Proof.
  intros Htag buffer. unfold Buffer_slice_from, Buffer_slice.
  subst buffer. rewrite length_app, Htag.
  replace (Z.of_nat (length enc + 16) - 16) with (Z.of_nat (length enc)) by lia.
  rewrite !clamp_index_inside by lia. split.
  - rewrite Nat2Z.id, drop_app_length. apply take_ge. lia.
  - rewrite Z.sub_0_r, Nat2Z.id. simpl. apply take_app_length.
Qed.

Lemma randomBytes_run n w :
  ∃ buf w', randomBytes n w = (Normal buf, w') ∧ length buf = n.
Proof.
  unfold randomBytes. eexists _, _. split; [done|].
  by rewrite length_map, length_seq.
Qed.

(** C4. For every payload and every 32-byte key, encrypting and then
    decrypting what was produced, cipher text and nonce, under the same key
    gives the payload back.  The cipher and base64 are the library's: the
    statement assumes their contracts and is about what the two helpers do
    around them (a fresh 12-byte nonce, the tag appended to the encrypted
    bytes and cut off again, both parts sent through base64). *)
Theorem aesGcm_round_trip (K P : Buffer) (w : World) :
  gcm_contract → base64_contract →
  length K = 32%nat →
  ∃ sealed w',
    aesGcmEncrypt K P w = (Normal sealed, w')
    ∧ aesGcmDecrypt K (JStr (ciphertext sealed)) (JStr (iv sealed)) = Normal P.
Proof.
  intros Hgcm Hb64 HK. unfold aesGcmEncrypt.
  destruct (randomBytes_run 12 w) as (nonce & w1 & Er & Hiv).
  destruct (Hgcm K nonce P HK Hiv) as (enc & tag & Hseal & Htag & Hopen).
  rewrite (bind_Normal _ _ _ _ _ Er).
  unfold lift, mbind, M_bind, mret, M_ret. rewrite Hseal.
  eexists _, _. split; [done|]. simpl.
  unfold aesGcmDecrypt, Buffer_from, mbind, completion_bind.
  rewrite !Hb64.
  destruct (Buffer_slice_split enc tag Htag) as [-> ->]. done.
Qed.

Lemma deriveKeyFromPin_run secret w :
  deriveKeyFromPin (JStr secret) w
  = (pbkdf2 secret PIN_SALT PBKDF2_ITERATIONS KEY_BYTES "sha256", w).
Proof. done. Qed.

(** C8 (as amended). For every secret that is a string the derivation
    returns a key of exactly 32 bytes, never a shorter one: the key is what
    PBKDF2 with SHA-256 gives for the secret under the fixed salt after
    200000 iterations, which is more than the 100000 asked for; on a string
    it can fail only if PBKDF2 itself fails, which its contract excludes.
    A secret that is not a string (a number, a boolean, an array or an
    object of the request) is refused with a type error: no key is
    returned for it. *)
Theorem deriveKeyFromPin_derives_32_bytes (secret : jsval) (w : World) :
  pbkdf2_contract →
  match secret with
  | JStr s =>
      ∃ key,
        deriveKeyFromPin secret w = (Normal key, w)
        ∧ length key = 32%nat
        ∧ pbkdf2 s (list_byte_of_string "TheHaydenSphereSaltV3") 200000 32
            "sha256"
          = Normal key
  | _ => ∃ e, deriveKeyFromPin secret w = (Throw e, w)
  end.
Proof.
  intros Hkdf. destruct secret as [| | | |s| |]; try (by eexists).
  rewrite deriveKeyFromPin_run.
  destruct (Hkdf s PIN_SALT PBKDF2_ITERATIONS KEY_BYTES) as (key & E & Hlen);
    [done..|].
  exists key. rewrite E. by repeat split.
Qed.

(** C10 (as amended). Key derivation is deterministic: two invocations on
    the same PIN, whatever the state of the store, the clock and the random
    source at either, end alike and leave the world as it was; salt and
    iteration count are constants of the program.  For a PIN that is a
    string both return the same 32-byte key; for any other value both
    throw, and there is no key. *)
Theorem deriveKeyFromPin_deterministic (pin : jsval) (w1 w2 : World) :
  pbkdf2_contract →
  ∃ out,
    deriveKeyFromPin pin w1 = (out, w1)
    ∧ deriveKeyFromPin pin w2 = (out, w2)
    ∧ match pin with
      | JStr s =>
          ∃ key, out = Normal key ∧ length key = 32%nat
                 ∧ pbkdf2 s (list_byte_of_string "TheHaydenSphereSaltV3")
                     200000 32 "sha256"
                   = Normal key
      | _ => ∃ e, out = Throw e
      end.
Proof.
  intros Hkdf.
  destruct pin as [| | | |s| |];
    try (by eexists; split; [done|]; split; [done|]; eexists).
  rewrite !deriveKeyFromPin_run.
  destruct (Hkdf s PIN_SALT PBKDF2_ITERATIONS KEY_BYTES) as (key & E & Hlen);
    [done..|].
  exists (Normal key). rewrite E. repeat split. by exists key.
Qed.


End Crypto.

(** * Setting the unlock secret *)

Section Pin.
Context `{NodeLib}.

Lemma utf16_length_truthy s : (0 < utf16_length s)%nat → truthy (JStr s) = true.
Proof. intros Hs. apply truthy_JStr. intros ->. simpl in Hs. lia. Qed.

Lemma long_enough s :
  (6 ≤ utf16_length s)%nat →
  negb (truthy (JStr s)) || js_lt_num (js_length (JStr s)) 6 = false.
Proof.
  intros Hlen. rewrite utf16_length_truthy by lia.
  change (js_lt_num (js_length (JStr s)) 6)
    with (Z.of_nat (utf16_length s) <? 6).
  by rewrite (proj2 (Z.ltb_ge _ _)) by lia.
Qed.

Lemma too_short s :
  (utf16_length s < 6)%nat →
  negb (truthy (JStr s)) || js_lt_num (js_length (JStr s)) 6 = true.
Proof.
  intros Hlen.
  change (js_lt_num (js_length (JStr s)) 6)
    with (Z.of_nat (utf16_length s) <? 6).
  rewrite (proj2 (Z.ltb_lt _ _)) by lia. apply orb_true_r.
Qed.

(** A character takes one or two code units. *)
Lemma code_points_le_utf16_length s : (code_points s ≤ utf16_length s)%nat.
Proof.
  induction s as [|c s IH]; [done|]. simpl.
  enough (Hc : ((if is_continuation c then 0 else 1) ≤ utf16_units c)%nat) by lia.
  unfold is_continuation, utf16_units. cbv zeta.
  generalize (N_of_ascii c). intros n.
  destruct (N.leb_spec 128 n), (N.ltb_spec n 128), (N.ltb_spec n 192),
    (N.ltb_spec n 240); simpl; lia.
Qed.

Lemma setup_pin_first reqBody w s :
  let b := js_or reqBody (JObj []) in
  get_prop b "pin" = JStr s →
  (6 ≤ utf16_length s)%nat →
  truthy (pinHash (metaFile w)) = false →
  ∃ t w',
    setup_pin reqBody w = (Normal pin_created, w')
    ∧ metaFile w'
      = with_pinHash (JStr (bcrypt_hash (next_salt w) s BCRYPT_ROUNDS))
          (metaFile w)
    ∧ historyLog w'
      = (historyLog w
         ++ [{| h_ts := t; h_action := "auth.setupPin";
                h_payload := JObj [("createdAt", JNum (clock w (ticks w)))] |}])%list
    ∧ notesIndex w' = notesIndex w
    ∧ blobs w' = blobs w.
Proof.
  intros b Hpin Hlen Hunset. unfold setup_pin. fold b. rewrite Hpin.
  rewrite long_enough by done.
  unfold gets, mbind, M_bind, mret, M_ret. rewrite Hunset. simpl.
  eexists _, _. split; [done|]. done.
Qed.

Lemma setup_pin_later reqBody w :
  let b := js_or reqBody (JObj []) in
  truthy (pinHash (metaFile w)) = true →
  ¬ proves_knowledge (get_prop b "currentPin") (metaFile w) →
  ∃ out, setup_pin reqBody w = (out, w) ∧ rejected out.
Proof.
  intros b Hset Hno. unfold setup_pin. fold b.
  destruct (negb (truthy (get_prop b "pin"))
            || js_lt_num (js_length (get_prop b "pin")) 6).
  { eexists. split; [done|]. simpl. lia. }
  unfold gets, mbind, M_bind, mret, M_ret. rewrite Hset. simpl.
  destruct (truthy (get_prop b "currentPin")); simpl.
  2:{ eexists. split; [done|]. simpl. lia. }
  unfold bcrypt_compare_async.
  destruct (get_prop b "currentPin") as [| | | |d| |] eqn:Ecur;
    try (eexists; split; [done|]; done).
  destruct (pinHash (metaFile w)) as [| | | |h| |] eqn:Ehash;
    try (eexists; split; [done|]; done).
  unfold mret, M_ret. destruct (bcrypt_compare d h) eqn:Ecmp; simpl.
  - destruct Hno. by exists d, h.
  - eexists. split; [done|]. simpl. lia.
Qed.

(** C7. While no unlock secret is set, a set-up call with a secret of at
    least 6 characters succeeds and stores the bcrypt hash of the secret,
    and only that, in MasterMeta: the other members are as before, and the
    log line of the set-up carries a time stamp alone.  The length is
    counted as JavaScript counts it, in UTF-16 code units, of which a
    secret of 6 characters has at least 6.  Once a secret is set, every
    set-up call that does not prove knowledge of it (no [currentPin], or
    one bcrypt does not match against the stored hash) is rejected and
    leaves MasterMeta, and the whole world, unchanged. *)
Theorem setup_pin_first_then_guarded reqBody w :
  let b := js_or reqBody (JObj []) in
  (∀ s, get_prop b "pin" = JStr s →
        (6 ≤ utf16_length s)%nat →
        truthy (pinHash (metaFile w)) = false →
        ∃ t w',
          setup_pin reqBody w
          = (Normal {| status := 200;
                       body := JObj [("ok", JBool true);
                                     ("message", JStr "PIN created")] |}, w')
          ∧ pinHash (metaFile w') = JStr (bcrypt_hash (next_salt w) s 12)
          ∧ createdAt (metaFile w') = createdAt (metaFile w)
          ∧ version (metaFile w') = version (metaFile w)
          ∧ encryptionProfile (metaFile w') = encryptionProfile (metaFile w)
          ∧ historyLog w'
            = (historyLog w
               ++ [{| h_ts := t; h_action := "auth.setupPin";
                      h_payload :=
                        JObj [("createdAt", JNum (clock w (ticks w)))] |}])%list
          ∧ notesIndex w' = notesIndex w
          ∧ blobs w' = blobs w)
  ∧ (truthy (pinHash (metaFile w)) = true →
     ¬ proves_knowledge (get_prop b "currentPin") (metaFile w) →
     ∃ out, setup_pin reqBody w = (out, w) ∧ rejected out).
Proof.
  intros b. split.
  - intros s Hpin Hlen Hunset.
    destruct (setup_pin_first reqBody w s Hpin Hlen Hunset)
      as (t & w' & E & Hm & Hl & Hn & Hb).
    exists t, w'. rewrite Hm. by repeat split.
  - apply setup_pin_later.
Qed.

End Pin.

(** * The encryption helper endpoints *)

Section Helpers.
Context `{NodeLib}.

Lemma next_nonce_length w : length (next_nonce w) = 12%nat.
Proof. unfold next_nonce. by rewrite length_map, length_seq. Qed.

(** Sealing under a 32-byte key: what [aesGcmEncrypt] returns and draws. *)
Lemma aesGcmEncrypt_run (K P : Buffer) (w : World) :
  gcm_contract → length K = 32%nat →
  ∃ enc tag,
    aesGcmEncrypt K P w
    = (Normal {| ciphertext := base64_encode (enc ++ tag)%list;
                 iv := base64_encode (next_nonce w) |},
       set_drawn (drawn w + 12)%nat w)
    ∧ aes_256_gcm_seal K (next_nonce w) P = Normal (enc, tag)
    ∧ length tag = 16%nat
    ∧ aes_256_gcm_open K (next_nonce w) enc tag = Normal P.
Proof.
  intros Hgcm HK.
  destruct (Hgcm K (next_nonce w) P HK (next_nonce_length w))
    as (enc & tag & Hseal & Htag & Hopen).
  exists enc, tag. split; [|done].
  unfold aesGcmEncrypt, randomBytes, lift, mbind, M_bind, mret, M_ret.
  fold (next_nonce w). by rewrite Hseal.
Qed.

(** Opening what was sealed: the tag is cut off where it was appended. *)
Lemma aesGcmDecrypt_sealed (K enc tag nonce : Buffer) :
  base64_contract → length tag = 16%nat →
  aesGcmDecrypt K (JStr (base64_encode (enc ++ tag)%list))
    (JStr (base64_encode nonce))
  = aes_256_gcm_open K nonce enc tag.
Proof.
  intros Hb64 Htag.
  unfold aesGcmDecrypt, Buffer_from, mbind, completion_bind.
  rewrite !Hb64.
  by destruct (Buffer_slice_split enc tag Htag) as [-> ->].
Qed.

Lemma app_tag_nonempty (enc tag : Buffer) :
  length tag = 16%nat → (enc ++ tag)%list ≠ [].
Proof. intros Htag Heq. apply (f_equal length) in Heq. rewrite length_app in Heq. simpl in Heq. lia. Qed.

Lemma next_nonce_nonempty w : next_nonce w ≠ [].
Proof. intros Heq. pose proof (next_nonce_length w) as Hl. rewrite Heq in Hl. done. Qed.

(** The encrypt helper followed by the decrypt helper: for a key whose
    base64 text decodes to 32 bytes and a payload JSON can carry, the
    encrypt helper answers 200 with a ciphertext, an iv and the SHA-256
    checksum of the ciphertext, and the decrypt helper, given the same key
    with that ciphertext and iv, answers 200 with the payload as JSON reads
    it back.  The cipher, base64, gzip and JSON are taken with their
    contracts. *)
Theorem enc_encrypt_then_decrypt
    (reqBody : jsval) (key : string) (payload v : jsval) (w : World) :
  let b := js_or reqBody (JObj []) in
  gcm_contract → base64_contract → base64_nonempty →
  gzip_contract → gzip_succeeds →
  get_prop b "keyBase64" = JStr key → key ≠ EmptyString →
  length (base64_decode key) = 32%nat →
  get_prop b "payload" = payload → truthy payload = true →
  JSON_parse (JSON_stringify payload) = Normal v →
  ∃ ct nonce w',
    enc_encrypt reqBody w = (Normal (encrypted_reply ct nonce), w')
    ∧ ∀ w2,
        enc_decrypt (JObj [("keyBase64", JStr key); ("ciphertext", JStr ct);
                           ("iv", JStr nonce)]) w2
        = (Normal (decrypted_reply v), w2).
Proof.
  intros b Hgcm Hb64 Hne Hgz Hgzs Hkey Hk Hlen Hpay Htr Hjson.
  unfold enc_encrypt. fold b. rewrite Hkey, Hpay, Htr, (truthy_JStr key Hk).
  simpl.
  destruct (Hgzs (list_byte_of_string (JSON_stringify payload))) as [gz Egz].
  destruct (aesGcmEncrypt_run (base64_decode key) gz w Hgcm Hlen)
    as (enc & tag & Eenc & _ & Htag & Hopen).
  exists (base64_encode (enc ++ tag)%list), (base64_encode (next_nonce w)).
  eexists. split.
  - unfold try_catch, lift, mbind, M_bind, gzipBufferSync. simpl.
    rewrite Egz, Eenc. reflexivity.
  - intros w2.
    pose proof (truthy_JStr key Hk) as Tk.
    pose proof (truthy_JStr _ (Hne _ (app_tag_nonempty enc tag Htag))) as Tc.
    pose proof (truthy_JStr _ (Hne _ (next_nonce_nonempty w))) as Tn.
    unfold enc_decrypt. simpl in *. rewrite Tk, Tc, Tn. simpl.
    unfold try_catch, lift, mbind, M_bind, reply, mret, M_ret.
    rewrite aesGcmDecrypt_sealed, Hopen by done.
    unfold gunzipBufferSync. rewrite (Hgz _ _ Egz).
    by rewrite string_of_list_byte_of_string, Hjson.
Qed.

Lemma deriveKeyFromPin_not_a_string pin w :
  (∀ s, pin ≠ JStr s) →
  deriveKeyFromPin pin w = (Throw ERR_INVALID_ARG_TYPE, w).
Proof. intros Hpin. destruct pin; try done. by destruct (Hpin s). Qed.

(** The derive helper never throws and never changes the world.  It
    answers 400 when the pin is missing or falsy, 200 with the base64 text
    of the 32-byte PBKDF2 key when the pin is a string, and 500 for every
    other pin (a number, [true], an array, an object): those make
    [crypto.pbkdf2] throw, which the [catch] of the handler turns into the
    error reply. *)
Theorem enc_derive_answers (reqBody : jsval) (w : World) :
  let pin := get_prop (js_or reqBody (JObj [])) "pin" in
  pbkdf2_contract →
  ∃ r,
    enc_derive reqBody w = (Normal r, w)
    ∧ (truthy pin = false → r = error_reply 400 "pin required")
    ∧ (∀ s, pin = JStr s → s ≠ EmptyString →
         ∃ key, length key = 32%nat ∧ r = derived_reply key
                ∧ pbkdf2 s PIN_SALT PBKDF2_ITERATIONS 32 "sha256" = Normal key)
    ∧ (truthy pin = true → (∀ s, pin ≠ JStr s) →
         r = error_reply 500 "derive failed").
Proof.
  intros pin Hkdf. unfold enc_derive. fold pin.
  destruct (truthy pin) eqn:Htr; simpl.
  2:{ eexists. split; [done|]. split; [done|]. split; [|done].
      intros s -> Hs. by rewrite truthy_JStr in Htr. }
  destruct pin as [| | | |s| |] eqn:Epin; try done.
  all: try (eexists; split; [reflexivity|]; split; [done|]; split;
            [intros s; discriminate|done]).
  destruct (Hkdf s PIN_SALT PBKDF2_ITERATIONS KEY_BYTES) as (key & E & Hlen);
    [done..|].
  exists (derived_reply key). unfold try_catch, mbind, M_bind.
  rewrite deriveKeyFromPin_run, E. split; [done|]. split; [done|]. split.
  - intros s' [= <-] _. by exists key.
  - intros _ Hno. by destruct (Hno s).
Qed.

(** The decrypt and encrypt helpers never throw: whatever the request,
    they answer 200, 400 or 500.  The decrypt helper leaves the world as it
    was; the encrypt helper changes nothing but the random source, from
    which it draws the 12 bytes of one nonce or nothing. *)
Theorem enc_helpers_never_throw (reqBody : jsval) (w : World) :
  (∃ r, enc_decrypt reqBody w = (Normal r, w)
        ∧ (status r = 200 ∨ status r = 400 ∨ status r = 500))
  ∧ (∃ r w', enc_encrypt reqBody w = (Normal r, w')
             ∧ (status r = 200 ∨ status r = 400 ∨ status r = 500)
             ∧ (w' = w ∨ w' = set_drawn (drawn w + 12)%nat w)
             ∧ (status r = 400 → w' = w)).
Proof.
  split.
  - unfold enc_decrypt.
    destruct (negb _ || negb _ || negb _); [eexists; split; [done|]; auto|].
    unfold try_catch, lift, mbind, M_bind, reply, mret, M_ret.
    destruct (Buffer_from _ _); [|eexists; split; [done|]; auto].
    destruct (aesGcmDecrypt _ _ _); [|eexists; split; [done|]; auto].
    destruct (gunzipBufferSync _); [|eexists; split; [done|]; auto].
    destruct (JSON_parse _); eexists; (split; [done|]); auto.
  - unfold enc_encrypt.
    destruct (negb _ || negb _); [eexists _, _; split; [done|]; auto|].
    unfold try_catch, lift, mbind, M_bind, reply, mret, M_ret.
    destruct (Buffer_from _ _);
      [|eexists _, _; split; [done|]; simpl; split; [auto|]; split; [auto|lia]].
    destruct (gzipBufferSync _);
      [|eexists _, _; split; [done|]; simpl; split; [auto|]; split; [auto|lia]].
    unfold aesGcmEncrypt, randomBytes, lift, mbind, M_bind, mret, M_ret.
    destruct (aes_256_gcm_seal _ _ _) as [[enc tag]|e];
      eexists _, _; (split; [done|]); simpl; (split; [auto|]); (split; [auto|lia]).
Qed.

Lemma clamp_index_bounds len i : 0 ≤ len → 0 ≤ clamp_index len i ≤ len.
Proof. intros Hlen. unfold clamp_index. destruct (i <? 0) eqn:E; lia. Qed.

(** [buf.slice(0, n)] and [buf.slice(n)] cut the buffer in two at one
    place, whatever [n]: negative, or beyond the end. *)
Lemma Buffer_slice_cut (buf : Buffer) (n : Z) :
  let k := Z.to_nat (clamp_index (Z.of_nat (length buf)) n) in
  Buffer_slice buf 0 n = take k buf ∧ Buffer_slice_from buf n = drop k buf.
Proof.
  intros k. unfold Buffer_slice_from, Buffer_slice.
  pose proof (clamp_index_bounds (Z.of_nat (length buf)) n ltac:(lia)) as Hn.
  rewrite (clamp_index_inside _ 0) by lia.
  rewrite (clamp_index_inside _ (Z.of_nat (length buf))) by lia.
  fold k. split.
  - rewrite Z.sub_0_r. done.
  - apply take_ge. rewrite length_drop. lia.
Qed.

(** Decrypting cuts the decoded input in two and hands both parts to the
    cipher: the parts, in order, are the whole input, and the part passed
    as the tag has 16 bytes exactly when the input has at least 16.  A
    shorter input is never read out of bounds: it reaches the cipher with
    a tag of fewer than 16 bytes. *)
Theorem aesGcmDecrypt_cuts_the_tag (K : Buffer) (c nonce : string) :
  let buffer := base64_decode c in
  ∃ ct tag,
    aesGcmDecrypt K (JStr c) (JStr nonce)
    = aes_256_gcm_open K (base64_decode nonce) ct tag
    ∧ (ct ++ tag)%list = buffer
    ∧ (length tag ≤ 16)%nat
    ∧ (length tag = 16%nat ↔ (16 ≤ length buffer)%nat).
Proof.
  intros buffer.
  destruct (Buffer_slice_cut buffer (Z.of_nat (length buffer) - 16)) as [Hct Htag].
  eexists _, _. split; [reflexivity|]. fold buffer.
  rewrite Hct, Htag, take_drop. split; [done|].
  rewrite length_drop. unfold clamp_index.
  destruct (Z.of_nat (length buffer) - 16 <? 0) eqn:E; lia.
Qed.

End Helpers.

(** * Reading, listing and deleting what was stored *)

Section Versions.
Context `{NodeLib}.

Lemma stored_from dir t data w0 w w' :
  (∀ k, version_files w k = version_files w0 k) →
  stored dir t data w w' → stored dir t data w0 w'.
Proof.
  intros Hu [Hs Ho]. split.
  - by rewrite Hs, Hu.
  - intros k Hk Hne. by rewrite Ho, Hu.
Qed.

Lemma stored_until dir t data w w' w1 :
  stored dir t data w w' →
  (∀ k, version_files w1 k = version_files w' k) → stored dir t data w w1.
Proof.
  intros [Hs Ho] Hu. split.
  - by rewrite Hu, Hs.
  - intros k Hk Hne. by rewrite Hu, Ho.
Qed.

(** The head of the create-note handler, up to the branch on the blob. *)
Lemma createNote_enters reqBody w s :
  let b := js_or reqBody (JObj []) in
  let blob := get_prop b "blob" in
  let profile := policy_of b w in
  truthy (get_prop b "title") = true →
  note_id b w = JStr s →
  ∃ w2 d,
    createNote reqBody w
    = (early ← store_blob s blob profile;
       match early with
       | Some r => mret r
       | None =>
           logHistory "notes.create"
             (JObj [("id", JStr s); ("title", get_prop b "title");
                    ("profile", profile)]);;
           reply 200 (JObj [("ok", JBool true);
                            ("note", entry_json (new_entry b w))])
       end) w2
    ∧ blobs w2 !! s = Some d
    ∧ (∀ k, version_files w2 k = version_files w k)
    ∧ notesIndex w2 = new_entry b w :: notesIndex w
    ∧ historyLog w2 = (historyLog w ++ [index_logged w])%list
    ∧ clock w2 = clock w ∧ metaFile w2 = metaFile w
    ∧ ticks w2 = (ticks w + 3)%nat
    ∧ same_sources w w2.
Proof.
  intros b blob profile Ht Hid. unfold createNote. fold b. rewrite Ht. simpl.
  destruct (create_entry_run b w)
    as (w1 & E1 & Hn1 & Hl1 & Hb1 & Hc1 & Hm1 & Ht1 & Hs1).
  rewrite (bind_Normal _ _ _ _ _ E1), Hid. simpl.
  unfold lift at 1. unfold mbind at 1. unfold M_bind at 1.
  destruct (ensure_noteDir_run s w1)
    as (d & w2 & E2 & Hd2 & Hu2 & [Hck2 Hm2 Hn2 Hl2] & Ht2 & Hs2).
  rewrite (bind_Normal _ _ _ _ _ E2).
  unfold gets at 1. unfold mbind at 1. unfold M_bind at 1.
  rewrite Hm2, Hm1, resolve_profile_policy. fold blob. fold profile.
  exists w2, d. split; [done|]. split; [done|]. split.
  { intros k. rewrite Hu2. apply version_files_blobs. by rewrite Hb1. }
  rewrite Hn2, Hl2, Hck2, Hm2, Ht2.
  repeat (split; [done|]).
  destruct Hs1, Hs2. split; congruence.
Qed.

Lemma stored_lookup dir t data w w' :
  stored dir t data w w' →
  existing_verDir dir w'
  = Some (<[file_at t := File data]> (version_files w dir)).
Proof.
  intros [Hs _]. apply version_files_dir; [done|]. apply insert_non_empty.
Qed.

(** What gzip made of the JSON text of a document reads back as the
    document. *)
Lemma bytes_of_reads_as doc data :
  gzip_contract → json_round_trip doc →
  bytes_of doc data → reads_as data doc.
Proof.
  intros Hgz Hjson Hdata. exists (list_byte_of_string (JSON_stringify doc)).
  split; [by apply Hgz|]. by rewrite string_of_list_byte_of_string.
Qed.

(** Downloading a file that holds a document. *)
Lemma downloadVersion_written nid f files data ct nonce vmeta w :
  existing_verDir nid w = Some files →
  files !! f = Some (File data) →
  reads_as data (JObj [("ciphertext", ct); ("iv", nonce); ("meta", vmeta)]) →
  downloadVersion nid f w
  = (Normal {| status := 200;
               body := JObj [("ciphertext", ct); ("iv", nonce);
                             ("meta", vmeta)] |}, w).
Proof.
  intros Hdir Hf (raw & Hraw & Hdoc).
  unfold downloadVersion, gets, mbind, M_bind, mret, M_ret. rewrite Hdir.
  simpl. rewrite Hf. unfold lift, readFileSync, gunzipBufferSync.
  rewrite Hf, Hraw, Hdoc. reflexivity.
Qed.

(** What a client stored can be downloaded unchanged.  After a create-note
    request for a note named by one directory entry that carries a
    ciphertext with iv (client-only or hybrid), with no directory where the
    file is written, the download route, asked for the file named by the
    time stamp of the write, answers 200 with the ciphertext and the iv the
    client sent and with the meta the write recorded: the iv, the SHA-256
    checksum of the ciphertext, the mode, and the client's own meta. *)
Theorem client_write_then_download reqBody w s c :
  let b := js_or reqBody (JObj []) in
  let blob := get_prop b "blob" in
  let profile := policy_of b w in
  let nonce := get_prop blob "iv" in
  let recorded :=
    JObj [("iv", nonce); ("checksum", JStr (sha256_hex c)); ("mode", profile);
          ("meta", if truthy (get_prop blob "meta")
                   then get_prop blob "meta" else JObj [])] in
  gzip_contract → gzip_succeeds →
  truthy (get_prop b "title") = true →
  note_id b w = JStr s →
  plain_name s = true →
  takes_plaintext blob profile = false →
  takes_ciphertext blob = true →
  get_prop blob "ciphertext" = JStr c →
  json_round_trip
    (JObj [("ciphertext", JStr c); ("iv", nonce); ("meta", recorded)]) →
  version_files w s !! file_at (write_time w) ≠ Some Directory →
  ∃ w',
    createNote reqBody w
    = (Normal (note_created (new_entry b w)), w')
    ∧ downloadVersion s (file_at (write_time w)) w'
      = (Normal {| status := 200;
                   body := JObj [("ciphertext", JStr c); ("iv", nonce);
                                 ("meta", recorded)] |}, w').
Proof.
  intros b blob profile nonce recorded Hgz Hgzs Ht Hid _ Hp Hq Hc Hjson Hfree.
  set (doc := JObj [("ciphertext", JStr c); ("iv", nonce); ("meta", recorded)]).
  destruct (Hgzs (list_byte_of_string (JSON_stringify doc))) as [data Hdata].
  assert (Hdoc : client_doc blob profile (sha256_hex c) = doc).
  { unfold client_doc, version_doc. by rewrite Hc. }
  rewrite <- Hdoc in Hdata.
  destruct (createNote_client_ok reqBody w s c data Ht Hid Hp Hq Hc Hdata Hfree)
    as (w' & E & Hs & _).
  rewrite Hdoc in Hdata.
  exists w'. split; [done|].
  apply (downloadVersion_written _ _ _ data (JStr c) nonce recorded _
           (stored_lookup _ _ _ _ _ Hs)).
  - by rewrite lookup_insert_eq.
  - by apply bytes_of_reads_as.
Qed.

Lemma server_assisted_write_ok dir blob w d p key gz enc tag data :
  let ct := base64_encode (enc ++ tag)%list in
  let nonce := base64_encode (next_nonce w) in
  blobs w !! dir = Some d →
  scryptSync (JWT_SECRET w) "server-key-salt-v3" 32 = Normal key →
  get_prop blob "plaintext" = JStr p →
  gzipSync (list_byte_of_string p) = Normal gz →
  aes_256_gcm_seal key (next_nonce w) gz = Normal (enc, tag) →
  bytes_of
    (version_doc (JStr ct) (JStr nonce) (JStr (sha256_hex ct))
       (JStr "server-assisted")
       (if truthy (get_prop blob "meta") then get_prop blob "meta"
        else JObj []))
    data →
  version_files w dir !! file_at (clock w (ticks w)) ≠ Some Directory →
  ∃ w',
    server_assisted_write dir blob w = (Normal tt, w')
    ∧ stored dir (clock w (ticks w)) data w w'
    ∧ continues w w' ∧ ticks w' = S (ticks w).
Proof.
  intros ct nonce Hd Hkey Hp Hgz Hseal Hdata Hfree.
  assert (Hvb : version_bytes
            (versionFile (JStr ct) (JStr nonce)
               (versionMeta (JStr nonce) (JStr (sha256_hex ct))
                  (JStr "server-assisted")
                  (js_or (get_prop blob "meta") (JObj [])))) = Normal data)
    by exact Hdata.
  unfold server_assisted_write, gets, lift, mbind, M_bind.
  rewrite Hkey, Hp. simpl. unfold gzipBufferSync. rewrite Hgz.
  unfold aesGcmEncrypt, randomBytes, lift, mbind, M_bind, mret, M_ret.
  fold (next_nonce w). rewrite Hseal. simpl.
  set (w0 := set_drawn _ w).
  destruct (ensure_verPath_run dir w0 d Hd) as (w1 & E1 & Hb1 & Hu1 & Hc1 & Ht1).
  rewrite E1. unfold Date_now. fold ct. fold nonce.
  fold (gzipBufferSync
          (list_byte_of_string
             (JSON_stringify
                (versionFile (JStr ct) (JStr nonce)
                   (versionMeta (JStr nonce) (JStr (sha256_hex ct))
                      (JStr "server-assisted")
                      (js_or (get_prop blob "meta") (JObj []))))))).
  fold (version_bytes
          (versionFile (JStr ct) (JStr nonce)
             (versionMeta (JStr nonce) (JStr (sha256_hex ct))
                (JStr "server-assisted")
                (js_or (get_prop blob "meta") (JObj []))))).
  rewrite Hvb.
  assert (Hname : version_filename (clock w1 (ticks w1))
                  = file_at (clock w (ticks w))).
  { destruct Hc1 as [-> _ _ _]. by rewrite Ht1. }
  rewrite Hname.
  destruct (writeFileSync_run dir (file_at (clock w (ticks w))) data
              (set_ticks (S (ticks w1)) w1) _ Hb1 Hfree)
    as (w2 & E2 & Hf2 & Ho2 & Hc2 & Ht2).
  rewrite E2. exists w2. split; [done|]. split; [split|split].
  - by rewrite Hf2.
  - intros k _ Hk. rewrite Ho2 by done. apply Hu1.
  - destruct Hc1, Hc2. simpl in *. split; congruence.
  - rewrite Ht2. simpl. by rewrite Ht1.
Qed.

(** What the server encrypted can be opened with the server key.  A
    create-note request under the server-assisted policy, for a note named
    by one directory entry, whose blob carries a plaintext string, with no
    directory where the file is written, succeeds and stores one file: the
    compressed JSON text of a document whose ciphertext opens, under the
    key scrypt derives from the server secret and with the iv stored beside
    it, to a gzip stream of the plaintext; the meta of the document holds
    that iv, the SHA-256 checksum of the ciphertext and the mode. *)
Theorem server_assisted_blob_opens reqBody w s p :
  let b := js_or reqBody (JObj []) in
  let blob := get_prop b "blob" in
  scrypt_contract → gcm_contract → base64_contract →
  gzip_contract → gzip_succeeds →
  truthy (get_prop b "title") = true →
  note_id b w = JStr s →
  plain_name s = true →
  get_prop blob "plaintext" = JStr p → p ≠ EmptyString →
  policy_of b w = JStr "server-assisted" →
  version_files w s !! file_at (write_time w) ≠ Some Directory →
  ∃ w' key ct nonce data gz,
    createNote reqBody w
    = (Normal (note_created (new_entry b w)), w')
    ∧ version_files w' s
      = <[file_at (write_time w) := File data]> (version_files w s)
    ∧ (∀ k, plain_name k = true → k ≠ s →
            version_files w' k = version_files w k)
    ∧ gzipSync
        (list_byte_of_string
           (JSON_stringify
              (JObj [("ciphertext", JStr ct); ("iv", JStr nonce);
                     ("meta",
                      JObj [("iv", JStr nonce);
                            ("checksum", JStr (sha256_hex ct));
                            ("mode", JStr "server-assisted");
                            ("meta", if truthy (get_prop blob "meta")
                                     then get_prop blob "meta"
                                     else JObj [])])])))
      = Normal data
    ∧ scryptSync (JWT_SECRET w) "server-key-salt-v3" 32 = Normal key
    ∧ aesGcmDecrypt key (JStr ct) (JStr nonce) = Normal gz
    ∧ gunzipSync gz = Normal (list_byte_of_string p).
Proof.
  intros b blob Hscrypt Hgcm Hb64 Hgz Hgzs Ht Hid _ Hp Hne Hprof Hfree.
  destruct (createNote_enters reqBody w s Ht Hid)
    as (w2 & d & E & Hd & Hu & Hn & Hl & Hck & Hm & Hticks & [Hsec Hent Hdr]).
  fold b in E. fold blob in E. rewrite E, Hprof.
  destruct (Hscrypt (JWT_SECRET w) "server-key-salt-v3" 32%nat ltac:(done))
    as (key & Hkey & Hklen).
  destruct (Hgzs (list_byte_of_string p)) as [gz Egz].
  assert (Hnonce : next_nonce w2 = next_nonce w).
  { unfold next_nonce. by rewrite Hent, Hdr. }
  destruct (Hgcm key (next_nonce w) gz Hklen (next_nonce_length w))
    as (enc & tag & Hseal & Htag & Hopen).
  set (ct := base64_encode (enc ++ tag)%list).
  set (nonce := base64_encode (next_nonce w)).
  destruct (Hgzs (list_byte_of_string (JSON_stringify
              (version_doc (JStr ct) (JStr nonce) (JStr (sha256_hex ct))
                 (JStr "server-assisted")
                 (if truthy (get_prop blob "meta") then get_prop blob "meta"
                  else JObj [])))))
    as [data Hdata].
  destruct (server_assisted_write_ok s blob w2 d p key gz enc tag data)
    as (w3 & E3 & Hs3 & [Hck3 Hm3 Hn3 Hl3] & Ht3);
    rewrite ?Hnonce, ?Hsec; try done.
  { rewrite Hu, Hck, Hticks. exact Hfree. }
  unfold store_blob. rewrite (truthy_of_member _ _ _ Hp), Hp, (truthy_JStr p Hne).
  simpl. unfold try_catch at 1. unfold mbind at 1. unfold M_bind at 1.
  rewrite (bind_Normal _ _ _ _ _ E3).
  unfold mret at 1. unfold M_ret at 1.
  assert (Hst : stored s (write_time w) data w w3).
  { unfold write_time. rewrite <- Hck, <- Hticks. by apply (stored_from _ _ _ _ w2). }
  destruct Hst as [Hfile Hothers].
  eexists _, key, ct, nonce, data, gz. split; [reflexivity|].
  split; [exact Hfile|]. split; [exact Hothers|].
  split; [exact Hdata|]. split; [done|]. split; [|by apply Hgz].
  subst ct nonce. by rewrite aesGcmDecrypt_sealed, Hopen.
Qed.

Lemma js_is_string_spec v s : js_is_string v s = true ↔ v = JStr s.
Proof.
  destruct v; simpl; try (split; [discriminate|discriminate]).
  rewrite String.eqb_eq. split; [by intros ->|by intros [= ->]].
Qed.

Lemma existing_verDir_missing nid w :
  blobs w !! nid = None → existing_verDir nid w = None.
Proof. intros Hb. unfold existing_verDir. by rewrite Hb. Qed.

Lemma List_filter_sublist {A} (f : A → bool) (l : list A) :
  sublist (List.filter f l) l.
Proof.
  induction l as [|e l IH]; simpl; [constructor|].
  destruct (f e); [by apply sublist_skip|by apply sublist_cons].
Qed.

Lemma deleteNote_run (nid : string) (w : World) :
  ∃ w',
    deleteNote nid w = (Normal ok_reply, w')
    ∧ notesIndex w'
      = List.filter (λ n, negb (js_is_string (n_id n) nid)) (notesIndex w)
    ∧ blobs w' = delete nid (blobs w)
    ∧ metaFile w' = metaFile w.
Proof.
  cbv [deleteNote loadNotesIndex saveNotesIndex rmSync_noteDir logHistory
       append_history reply gets modify Date_now mbind M_bind mret M_ret].
  cbn [blobs set_notesIndex set_historyLog set_ticks].
  destruct (blobs w !! nid) eqn:E.
  - eexists. split; [reflexivity|]. done.
  - eexists. split; [reflexivity|]. simpl. by rewrite delete_id.
Qed.

(** Deleting a note named by one directory entry always answers
    [ok: true], also for a note that does not exist.  Afterwards no index
    entry has the identifier (every entry with it is removed, the others
    stay, in their order), the directory of the note is gone with all its
    versions, so that listing and download answer 404, and the index
    entries' neighbours, the directories of the other notes and the
    configuration are as before. *)
Theorem deleteNote_removes_the_note (nid : string) (w : World) :
  plain_name nid = true →
  ∃ w',
    deleteNote nid w
    = (Normal {| status := 200; body := JObj [("ok", JBool true)] |}, w')
    ∧ (∀ e, e ∈ notesIndex w' ↔ e ∈ notesIndex w ∧ n_id e ≠ JStr nid)
    ∧ sublist (notesIndex w') (notesIndex w)
    ∧ blobs w' !! nid = None
    ∧ (∀ k, plain_name k = true → k ≠ nid → blobs w' !! k = blobs w !! k)
    ∧ metaFile w' = metaFile w
    ∧ listVersions nid w'
      = (Normal {| status := 404;
                   body := JObj [("error", JStr "no versions")] |}, w')
    ∧ ∀ f, plain_name f = true →
           downloadVersion nid f w'
           = (Normal {| status := 404;
                        body := JObj [("error", JStr "not found")] |}, w').
Proof.
  intros _.
  destruct (deleteNote_run nid w) as (w' & E & Hn & Hb & Hm).
  exists w'. split; [done|].
  assert (Hgone : blobs w' !! nid = None) by (rewrite Hb; apply lookup_delete_eq).
  split; [|split; [|split; [done|split; [|split; [done|split]]]]].
  - intros e. rewrite Hn, !list_elem_of_In, filter_In, negb_true_iff.
    rewrite <- not_true_iff_false, js_is_string_spec. done.
  - rewrite Hn. apply List_filter_sublist.
  - intros k _ Hk. rewrite Hb. by apply lookup_delete_ne.
  - unfold listVersions, gets, mbind, M_bind.
    by rewrite existing_verDir_missing.
  - intros f _. unfold downloadVersion, gets, mbind, M_bind.
    by rewrite existing_verDir_missing.
Qed.

(** The names of a directory, in any order. *)
Lemma names_of_dir (names : list string) (dir : gmap string Entry) :
  names ≡ₚ (map_to_list dir).*1 →
  (∀ f, f ∈ names ↔ is_Some (dir !! f)) ∧ length names = size dir.
Proof.
  intros Hp. split.
  - intros f. rewrite Hp, list_elem_of_fmap. split.
    + intros ([k v] & -> & Hkv). apply elem_of_map_to_list in Hkv. eauto.
    + intros [v Hv]. exists (f, v). split; [done|].
      by apply elem_of_map_to_list.
  - rewrite Hp, length_fmap. apply length_map_to_list.
Qed.

(** The names the listing goes through: those of the directory, sorted
    and reversed. *)
Lemma listed_names (dir : gmap string Entry) :
  let names := reverse (js_sort (readdirSync dir)) in
  NoDup names
  ∧ (∀ f, f ∈ names ↔ is_Some (dir !! f))
  ∧ length names = size dir
  ∧ Sorted (flip str_le) names.
Proof.
  intros names.
  assert (Hp : names ≡ₚ (map_to_list dir).*1).
  { unfold names. rewrite reverse_Permutation. unfold js_sort.
    by rewrite merge_sort_Permutation. }
  destruct (names_of_dir names dir Hp) as [Hnames Hlen].
  split; [|split; [done|split; [done|]]].
  - rewrite Hp. apply NoDup_fst_map_to_list.
  - apply Sorted_reverse. unfold js_sort. apply Sorted_merge_sort, _.
Qed.

(** What the summary of a name says about the file. *)
Lemma version_summary_summarises (dir : gmap string Entry) f v :
  version_summary dir f = Normal v →
  ∃ ts m,
    v = JObj [("filename", JStr f); ("ts", ts); ("meta", m)]
    ∧ (∀ t, 0 < t < 2 ^ 53 → f = file_at t → ts = JNum t)
    ∧ ∀ data, dir !! f = Some (File data) →
        (∀ doc, reads_as data doc → m = listed_meta doc)
        ∧ (unreadable data → m = JNull).
Proof.
  unfold version_summary, readFileSync.
  destruct (dir !! f) as [[data|]|] eqn:Hf; try done.
  intros [= <-]. eexists _, _. split; [reflexivity|]. split.
  - intros t Ht ->. by apply Number_version_filename.
  - intros data' [= <-]. split.
    + intros doc Hdoc. by apply summary_meta_reads.
    + apply summary_meta_unreadable.
Qed.

(** The listing of a directory of regular files: one summary for each
    name, in the order the names are gone through. *)
Lemma listVersions_run (nid : string) (w : World) (dir : gmap string Entry) :
  blobs w !! nid = Some (Some dir) →
  regular_files dir →
  ∃ versions,
    listVersions nid w = (Normal (versions_reply versions), w)
    ∧ Forall2 (λ f v, version_summary dir f = Normal v)
        (reverse (js_sort (readdirSync dir))) versions.
Proof.
  intros Hdir Hreg.
  destruct (listed_names dir) as (_ & Hnames & _).
  destruct (map_throwing_Normal (version_summary dir)
              (reverse (js_sort (readdirSync dir)))) as (versions & E & Hall).
  { intros f Hf. apply Hnames in Hf as [[data|] Hf].
    - rewrite (version_summary_file _ _ _ Hf). eauto.
    - by destruct (Hreg f). }
  exists versions. split; [|done].
  unfold listVersions, gets, lift, reply, mbind, M_bind, mret, M_ret.
  unfold existing_verDir. by rewrite Hdir, E.
Qed.

(** The listing of a versions directory.  If every entry of the directory
    is a regular file the reply is 200 with one summary for each file,
    each file once, in descending order of the file names as strings: the
    name, the time stamp read from the name, and the [meta] member of the
    document the file holds, or [null] for a file that cannot be read back
    as a document.  An entry that is itself a directory makes the listing
    throw: the files are read outside the [try]. *)
Theorem listVersions_lists_every_file
    (nid : string) (w : World) (dir : gmap string Entry) :
  plain_name nid = true →
  blobs w !! nid = Some (Some dir) →
  (regular_files dir →
   ∃ names versions,
     listVersions nid w
     = (Normal {| status := 200;
                  body := JObj [("versions", JArr versions)] |}, w)
     ∧ NoDup names
     ∧ (∀ f, f ∈ names ↔ is_Some (dir !! f))
     ∧ length names = size dir
     ∧ Sorted (flip str_le) names
     ∧ Forall2
         (λ f v,
            ∃ ts m,
              v = JObj [("filename", JStr f); ("ts", ts); ("meta", m)]
              ∧ (∀ t, 0 < t < 2 ^ 53 → f = file_at t → ts = JNum t)
              ∧ ∀ data, dir !! f = Some (File data) →
                  (∀ doc, reads_as data doc → m = listed_meta doc)
                  ∧ (unreadable data → m = JNull))
         names versions)
  ∧ (∀ f, dir !! f = Some Directory →
          ∃ e, listVersions nid w = (Throw e, w)).
Proof.
  intros _ Hdir.
  assert (Hv : existing_verDir nid w = Some dir).
  { unfold existing_verDir. by rewrite Hdir. }
  destruct (listed_names dir) as (Hnd & Hnames & Hlen & Hsorted).
  split.
  - intros Hreg.
    destruct (listVersions_run nid w dir Hdir Hreg) as (versions & E & Hall).
    exists (reverse (js_sort (readdirSync dir))), versions.
    split; [done|split; [done|split; [done|split; [done|split; [done|]]]]].
    eapply Forall2_impl; [exact Hall|].
    intros f v Hfv. by apply version_summary_summarises.
  - intros f Hf.
    destruct (version_summary_directory dir f Hf) as [e He].
    destruct (map_throwing_Throw (version_summary dir)
                (reverse (js_sort (readdirSync dir))) f e) as [e' E];
      [apply Hnames; eauto|done|].
    exists e'. unfold listVersions, gets, lift, mbind, M_bind.
    by rewrite Hv, E.
Qed.

Lemma createNote_id_not_a_string_path v :
  (∀ s, v ≠ JStr s) → ∃ e, path_join_BLOBS_DIR v = Throw e.
Proof. destruct v; eauto. intros Hv. by destruct (Hv s). Qed.

(** A create-note request whose [id] is no string (a number, [true], an
    array, an object) fails after the index was written: [path.join]
    throws on the identifier, the handler ends without a reply, and the
    index holds the entry of the note, logged, while no directory was made
    for it. *)
Theorem createNote_needs_a_string_id reqBody w :
  let b := js_or reqBody (JObj []) in
  truthy (get_prop b "title") = true →
  (∀ s, note_id b w ≠ JStr s) →
  ∃ e w',
    createNote reqBody w = (Throw e, w')
    ∧ notesIndex w' = new_entry b w :: notesIndex w
    ∧ historyLog w' = (historyLog w ++ [index_logged w])%list
    ∧ blobs w' = blobs w
    ∧ metaFile w' = metaFile w.
Proof.
  intros b Ht Hid. unfold createNote. fold b. rewrite Ht. simpl.
  destruct (create_entry_run b w)
    as (w1 & E1 & Hn1 & Hl1 & Hb1 & Hc1 & Hm1 & Ht1 & Hs1).
  rewrite (bind_Normal _ _ _ _ _ E1).
  destruct (createNote_id_not_a_string_path _ Hid) as [e He].
  simpl. unfold lift at 1. unfold mbind at 1. unfold M_bind at 1. rewrite He.
  by exists e, w1.
Qed.

(** A stored version shows up in the listing.  After a create-note
    request that carries a ciphertext with iv, for a note named by one
    directory entry whose versions directory holds regular files only,
    written at a clock reading that is a positive safe integer, the
    listing of the note answers 200 and holds the summary of the new file:
    its name, its time stamp read back from the name, and the meta the
    write recorded (never the ciphertext).  If no file of that name was
    there before, the listing is one longer than the number of versions
    the note had. *)
Theorem client_write_then_list reqBody w s c :
  let b := js_or reqBody (JObj []) in
  let blob := get_prop b "blob" in
  let profile := policy_of b w in
  let nonce := get_prop blob "iv" in
  let t := write_time w in
  let recorded :=
    JObj [("iv", nonce); ("checksum", JStr (sha256_hex c)); ("mode", profile);
          ("meta", if truthy (get_prop blob "meta")
                   then get_prop blob "meta" else JObj [])] in
  gzip_contract → gzip_succeeds →
  truthy (get_prop b "title") = true →
  note_id b w = JStr s →
  plain_name s = true →
  takes_plaintext blob profile = false →
  takes_ciphertext blob = true →
  get_prop blob "ciphertext" = JStr c →
  json_round_trip
    (JObj [("ciphertext", JStr c); ("iv", nonce); ("meta", recorded)]) →
  regular_files (version_files w s) →
  0 < t < 2 ^ 53 →
  ∃ w' versions,
    createNote reqBody w
    = (Normal (note_created (new_entry b w)), w')
    ∧ listVersions s w'
      = (Normal {| status := 200;
                   body := JObj [("versions", JArr versions)] |}, w')
    ∧ JObj [("filename", JStr (file_at t)); ("ts", JNum t);
            ("meta", recorded)]
      ∈ versions
    ∧ (version_files w s !! file_at t = None →
       length versions = S (size (version_files w s))).
Proof.
  intros b blob profile nonce t recorded
    Hgz Hgzs Ht Hid Hplain Hp Hq Hc Hjson Hreg Hsafe.
  set (doc := JObj [("ciphertext", JStr c); ("iv", nonce); ("meta", recorded)]).
  destruct (Hgzs (list_byte_of_string (JSON_stringify doc))) as [data Hdata].
  assert (Hdoc : client_doc blob profile (sha256_hex c) = doc).
  { unfold client_doc, version_doc. by rewrite Hc. }
  rewrite <- Hdoc in Hdata.
  destruct (createNote_client_ok reqBody w s c data Ht Hid Hp Hq Hc Hdata
              (Hreg _))
    as (w' & E & Hs & _).
  rewrite Hdoc in Hdata.
  pose proof (stored_lookup _ _ _ _ _ Hs) as Hdir. fold t in Hdir.
  set (dir := <[file_at t := File data]> (version_files w s)) in *.
  assert (Hb : blobs w' !! s = Some (Some dir)).
  { unfold existing_verDir in Hdir.
    by destruct (blobs w' !! s) as [[d|]|]; simplify_eq. }
  assert (Hreg' : regular_files dir).
  { intros f. unfold dir. destruct (decide (f = file_at t)) as [->|Hf].
    - by rewrite lookup_insert_eq.
    - rewrite lookup_insert_ne by done. apply Hreg. }
  destruct (listVersions_run s w' dir Hb Hreg')
    as (versions & El & Hall).
  destruct (listed_names dir) as (_ & Hnames & Hlen & _).
  exists w', versions. split; [done|]. split; [done|]. split.
  - assert (Hin : file_at t ∈ reverse (js_sort (readdirSync dir))).
    { apply Hnames. unfold dir. rewrite lookup_insert_eq. eauto. }
    apply list_elem_of_lookup in Hin as [i Hi].
    destruct (Forall2_lookup_l _ _ _ _ _ Hall Hi) as (v & Hv & Hsum).
    apply list_elem_of_lookup. exists i. rewrite Hv. f_equal.
    rewrite (version_summary_written dir t data doc) in Hsum; try done.
    + injection Hsum as <-. unfold summary_of, listed_meta. done.
    + unfold dir. by rewrite lookup_insert_eq.
    + by apply bytes_of_reads_as.
  - intros Hnew. rewrite <- (Forall2_length _ _ _ Hall), Hlen.
    by apply map_size_insert_None.
Qed.

End Versions.

(** * Changing the unlock secret, logging in *)

Section PinChange.
Context `{NodeLib}.

Lemma js_lt_num_length s n :
  js_lt_num (js_length (JStr s)) n = (Z.of_nat (utf16_length s) <? n).
Proof. done. Qed.

Lemma next_salt_length w : length (next_salt w) = 16%nat.
Proof. unfold next_salt. by rewrite length_map, length_seq. Qed.

(** With an unlock secret set, a set-up call that proves knowledge of it
    (a [currentPin] that bcrypt matches against the stored hash) and asks
    for a new secret of at least 6 UTF-16 code units succeeds: the stored
    hash is replaced by the bcrypt hash, at cost 12, of the new secret
    under the 16 bytes drawn next from the random source, the other
    members of MasterMeta stay, the reply is [PIN changed], and the log
    gains one line that carries a time stamp alone.  Index and blobs are
    as before. *)
Theorem setup_pin_changes_with_the_current_pin reqBody w s :
  let b := js_or reqBody (JObj []) in
  get_prop b "pin" = JStr s →
  (6 ≤ utf16_length s)%nat →
  truthy (pinHash (metaFile w)) = true →
  truthy (get_prop b "currentPin") = true →
  proves_knowledge (get_prop b "currentPin") (metaFile w) →
  ∃ t w',
    setup_pin reqBody w
    = (Normal {| status := 200;
                 body := JObj [("ok", JBool true);
                               ("message", JStr "PIN changed")] |}, w')
    ∧ length (next_salt w) = 16%nat
    ∧ pinHash (metaFile w') = JStr (bcrypt_hash (next_salt w) s 12)
    ∧ createdAt (metaFile w') = createdAt (metaFile w)
    ∧ version (metaFile w') = version (metaFile w)
    ∧ encryptionProfile (metaFile w') = encryptionProfile (metaFile w)
    ∧ historyLog w'
      = (historyLog w
         ++ [{| h_ts := t; h_action := "auth.changePin";
                h_payload := JObj [("ts", JNum (clock w (ticks w)))] |}])%list
    ∧ notesIndex w' = notesIndex w
    ∧ blobs w' = blobs w.
Proof.
  intros b Hpin Hlen Hset Hcur (d & h & Hd & Hh & Hcmp).
  unfold setup_pin. fold b. rewrite Hpin, long_enough by done.
  unfold gets, mbind, M_bind, mret, M_ret. rewrite Hset, Hcur. simpl.
  rewrite Hd, Hh. simpl. unfold mret, M_ret. rewrite Hcmp. simpl.
  exists (clock w (S (ticks w))).
  eexists. split; [reflexivity|].
  split; [exact (next_salt_length w)|done].
Qed.

(** Whatever the request, the set-up handler stores nothing but a bcrypt
    hash.  Either the call is rejected (an error status, or no reply) and
    the world is exactly as before, or it succeeds, and then the pin asked
    for is a string of at least 6 UTF-16 code units, MasterMeta differs
    from before in [pinHash] alone, which is the bcrypt hash of that string
    at cost 12 under the 16 bytes drawn next from the random source, and
    the log gains one line whose payload is a single number.  Index and
    blobs never change. *)
Theorem setup_pin_stores_only_a_hash reqBody w :
  let b := js_or reqBody (JObj []) in
  let out := (setup_pin reqBody w).1 in
  let w' := (setup_pin reqBody w).2 in
  (rejected out ∧ w' = w)
  ∨ (∃ s line k t,
       get_prop b "pin" = JStr s
       ∧ (6 ≤ utf16_length s)%nat
       ∧ length (next_salt w) = 16%nat
       ∧ pinHash (metaFile w') = JStr (bcrypt_hash (next_salt w) s 12)
       ∧ createdAt (metaFile w') = createdAt (metaFile w)
       ∧ version (metaFile w') = version (metaFile w)
       ∧ encryptionProfile (metaFile w') = encryptionProfile (metaFile w)
       ∧ historyLog w' = (historyLog w ++ [line])%list
       ∧ h_payload line = JObj [(k, JNum t)]
       ∧ notesIndex w' = notesIndex w
       ∧ blobs w' = blobs w
       ∧ (out = Normal {| status := 200;
                          body := JObj [("ok", JBool true);
                                        ("message", JStr "PIN created")] |}
          ∨ out = Normal {| status := 200;
                            body := JObj [("ok", JBool true);
                                          ("message", JStr "PIN changed")] |})).
Proof.
  intros b out w'. subst out w'. unfold setup_pin. fold b.
  destruct (truthy (get_prop b "pin")) eqn:Htr; simpl.
  2:{ left. split; [simpl; lia|done]. }
  destruct (js_lt_num (js_length (get_prop b "pin")) 6) eqn:Hlt.
  { left. split; [simpl; lia|done]. }
  unfold gets, mbind, M_bind, mret, M_ret.
  assert (Hpin : (∃ s, get_prop b "pin" = JStr s ∧ (6 ≤ utf16_length s)%nat)
                 ∨ ∀ s, get_prop b "pin" ≠ JStr s).
  { destruct (get_prop b "pin") as [| | | |s| |]; try (right; discriminate).
    left. exists s. split; [done|]. rewrite js_lt_num_length in Hlt.
    apply Z.ltb_ge in Hlt. lia. }
  destruct (truthy (pinHash (metaFile w))) eqn:Hset; simpl.
  - destruct (truthy (get_prop b "currentPin")) eqn:Hcur; simpl.
    2:{ left. split; [simpl; lia|done]. }
    unfold bcrypt_compare_async.
    destruct (get_prop b "currentPin") as [| | | |d| |];
      try (left; split; [done|done]).
    destruct (pinHash (metaFile w)) as [| | | |h| |];
      try (left; split; [done|done]).
    unfold mret, M_ret. destruct (bcrypt_compare d h); simpl.
    2:{ left. split; [simpl; lia|done]. }
    destruct Hpin as [(s & Hs & Hlen)|Hno].
    + right. rewrite Hs. simpl.
      eexists s, _, _, _. split; [done|]. split; [done|].
      split; [exact (next_salt_length w)|].
      repeat (split; [reflexivity|]). auto.
    + left. destruct (get_prop b "pin"); try (split; [done|done]).
      by destruct (Hno s).
  - destruct Hpin as [(s & Hs & Hlen)|Hno].
    + right. rewrite Hs. simpl.
      eexists s, _, _, _. split; [done|]. split; [done|].
      split; [exact (next_salt_length w)|].
      repeat (split; [reflexivity|]). auto.
    + left. destruct (get_prop b "pin"); try (split; [done|done]).
      by destruct (Hno s).
Qed.

End PinChange.

(** * Tokens: login, refresh and the middleware *)

Lemma js_split_cons sep s : ∃ p ps, js_split sep s = p :: ps.
Proof.
  induction s as [|c r (p & ps & IH)]; simpl; [eauto|].
  destruct (Ascii.eqb c sep); [eauto|]. rewrite IH. eauto.
Qed.

Lemma js_split_one s x :
  js_split " " s = [x] ↔ s = x ∧ no_blank x = true.
Proof.
  revert x. induction s as [|c r IH]; intros x; simpl.
  - split; [by intros [= <-]|by intros [<- _]].
  - destruct (Ascii.eqb c " ") eqn:Ec.
    + split.
      * intros [= <- Hr]. by destruct (js_split_cons " " r) as (p & ps & E);
          rewrite E in Hr.
      * intros [<- Hx]. simpl in Hx. by rewrite Ec in Hx.
    + destruct (js_split_cons " " r) as (p & ps & E). rewrite E. split.
      * intros [= <- ->]. apply IH in E as [-> Hp]. simpl. by rewrite Ec.
      * intros [<- Hx]. simpl in Hx. rewrite Ec in Hx. simpl in Hx.
        assert (js_split " " r = [r]) as Hr by (by apply IH).
        rewrite Hr in E. by injection E as <- <-.
Qed.

(** [s.split(' ')] has two parts exactly when [s] is the two parts with one
    blank between them and no other blank. *)
Lemma js_split_two s x y :
  js_split " " s = [x; y]
  ↔ s = x +:+ " " +:+ y ∧ no_blank x = true ∧ no_blank y = true.
Proof.
  revert x. induction s as [|c r IH]; intros x; simpl.
  - split; [discriminate|]. intros [Hs _]. by destruct x.
  - destruct (Ascii.eqb c " ") eqn:Ec.
    + apply Ascii.eqb_eq in Ec as ->. split.
      * intros [= <- Hr]. apply js_split_one in Hr as [-> Hy]. done.
      * intros (Hs & Hx & Hy). destruct x as [|c x]; simpl in *.
        -- injection Hs as ->. f_equal. by apply js_split_one.
        -- injection Hs as <- _. done.
    + destruct (js_split_cons " " r) as (p & ps & E). rewrite E. split.
      * intros [= <- ->]. apply IH in E as (-> & Hp & Hy). simpl.
        by rewrite Ec.
      * intros (Hs & Hx & Hy). destruct x as [|c' x]; simpl in *.
        -- injection Hs as -> _. by rewrite Ascii.eqb_refl in Ec.
        -- injection Hs as <- ->. rewrite Ec in Hx. simpl in Hx.
           assert (js_split " " (x +:+ " " +:+ y) = [x; y]) as Hr
             by (by apply IH).
           rewrite Hr in E. by injection E as <- <-.
Qed.

Section Tokens.
Context `{NodeLib} `{JwtLib} `{ProcessEnv}.

Lemma with_clock_files {A} (f : (nat → Z) → nat → completion A * nat) w :
  same_files w (with_clock f w).2
  ∧ JWT_SECRET (with_clock f w).2 = JWT_SECRET w
  ∧ clock (with_clock f w).2 = clock w.
Proof. unfold with_clock. by destruct (f (clock w) (ticks w)). Qed.

Lemma sign_run payload ttl w :
  ∃ out n,
    jwt_sign payload (JWT_SECRET w) ttl (clock w) (ticks w) = (out, n)
    ∧ sign payload ttl w = (out, set_ticks n w).
Proof.
  unfold sign, with_clock, gets, mbind, M_bind.
  destruct (jwt_sign _ _ _ _ _) as [out n] eqn:E. exists out, n.
  split; [done|]. by destruct out.
Qed.

Lemma verify_run token w :
  ∃ out n,
    jwt_verify token (JWT_SECRET w) (clock w) (ticks w) = (out, n)
    ∧ verify token w = (out, set_ticks n w).
Proof.
  unfold verify, with_clock, gets, mbind, M_bind.
  destruct (jwt_verify _ _ _ _) as [out n] eqn:E. exists out, n.
  split; [done|]. by destruct out.
Qed.

Lemma same_files_ticks n w : same_files w (set_ticks n w).
Proof. by split. Qed.

(** What a login that is answered 200 did. *)
Lemma login_run reqBody w :
  let b := js_or reqBody (JObj []) in
  ∃ out w',
    login reqBody w = (out, w')
    ∧ metaFile w' = metaFile w ∧ notesIndex w' = notesIndex w
    ∧ blobs w' = blobs w
    ∧ match out with
      | Normal r =>
          (proves_knowledge (get_prop b "pin") (metaFile w)
           ∧ ∃ access rfr n n' line,
               jwt_sign access_payload (JWT_SECRET w) ACCESS_TOKEN_TTL
                 (clock w) n = (Normal access, n')
               ∧ r = {| status := 200;
                        body := JObj [("accessToken", JStr access);
                                      ("refreshToken", JStr rfr);
                                      ("expiresIn", JStr ACCESS_TOKEN_TTL)] |}
               ∧ historyLog w' = (historyLog w ++ [line])%list
               ∧ h_action line = "auth.login")
          ∨ ((status r = 400 ∨ status r = 403) ∧ w' = w)
      | Throw _ => historyLog w' = historyLog w
      end.
Proof.
  intros b. unfold login. fold b.
  unfold gets at 1. unfold mbind at 1. unfold M_bind at 1.
  destruct (truthy (pinHash (metaFile w))) eqn:Hset; simpl.
  2:{ eexists _, _. split; [reflexivity|]. repeat (split; [done|]).
      simpl. right. auto. }
  destruct (truthy (get_prop b "pin")) eqn:Hpin; simpl.
  2:{ eexists _, _. split; [reflexivity|]. repeat (split; [done|]).
      simpl. right. auto. }
  unfold bcrypt_compare_async.
  destruct (get_prop b "pin") as [| | | |d| |] eqn:Ed;
    try (eexists _, _; split; [reflexivity|]; repeat (split; [done|]); done).
  destruct (pinHash (metaFile w)) as [| | | |h| |] eqn:Eh;
    try (eexists _, _; split; [reflexivity|]; repeat (split; [done|]); done).
  unfold mret at 1. unfold M_ret at 1. unfold mbind at 1. unfold M_bind at 1.
  destruct (bcrypt_compare d h) eqn:Ecmp; simpl.
  2:{ eexists _, _. split; [reflexivity|]. repeat (split; [done|]).
      simpl. right. auto. }
  destruct (sign_run access_payload ACCESS_TOKEN_TTL w)
    as (out1 & n1 & Es1 & E1).
  unfold mbind at 1. unfold M_bind at 1. fold access_payload. rewrite E1.
  destruct out1 as [access|e];
    [|eexists _, _; split; [reflexivity|]; repeat (split; [done|]); done].
  destruct (sign_run refresh_payload REFRESH_TOKEN_TTL (set_ticks n1 w))
    as (out2 & n2 & Es2 & E2).
  unfold mbind at 1. unfold M_bind at 1. fold refresh_payload. rewrite E2.
  destruct out2 as [rfr|e];
    [|eexists _, _; split; [reflexivity|]; repeat (split; [done|]); done].
  eexists _, _. split; [reflexivity|]. simpl. repeat (split; [done|]).
  left. split.
  - by exists d, h.
  - eexists access, rfr, _, _, _. split; [exact Es1|]. done.
Qed.

(** Login hands out tokens only for the stored secret.  A login is
    answered 200, with the two tokens [jwt.sign] made, only if the pin of
    the request is a string that bcrypt matches against the stored hash,
    and then the log gains the one line [auth.login]; a login answered 400
    or 403 leaves the world exactly as it was; a login that ends without
    a reply (bcrypt or [jwt.sign] threw) leaves the log as it was.  In no
    case does login change the configuration, the index or the blobs. *)
Theorem login_needs_the_pin reqBody w :
  let b := js_or reqBody (JObj []) in
  let out := (login reqBody w).1 in
  let w' := (login reqBody w).2 in
  metaFile w' = metaFile w ∧ notesIndex w' = notesIndex w
  ∧ blobs w' = blobs w
  ∧ match out with
    | Normal r =>
        (status r = 200
         ∧ proves_knowledge (get_prop b "pin") (metaFile w)
         ∧ (∃ access rfr,
              body r = JObj [("accessToken", JStr access);
                             ("refreshToken", JStr rfr);
                             ("expiresIn", JStr ACCESS_TOKEN_TTL)])
         ∧ ∃ line, historyLog w' = (historyLog w ++ [line])%list
                   ∧ h_action line = "auth.login")
        ∨ ((status r = 400 ∨ status r = 403) ∧ w' = w)
    | Throw _ => historyLog w' = historyLog w
    end.
Proof.
  intros b out w'. subst b out w'.
  destruct (login_run reqBody w) as (out & w' & E & Hm & Hn & Hb & Ho).
  rewrite E. simpl. repeat (split; [done|]).
  destruct out as [r|e]; [|done].
  destruct Ho as [(Hk & access & rfr & n & n' & line & _ & -> & Hl & Ha)|Ho];
    [left|by right].
  split; [done|]. split; [done|]. split; eauto.
Qed.

(** The secret that was set is the secret that logs in.  After the first
    set-up with a secret of at least 6 UTF-16 code units the stored hash is
    the bcrypt hash of the secret, a login with that secret is answered 200
    with an access and a refresh token, and a login with any other
    non-empty string that bcrypt does not match against the stored hash is
    answered 403 and changes nothing. *)
Theorem pin_set_then_login (s : string) (w : World) :
  let w1 := (setup_pin (JObj [("pin", JStr s)]) w).2 in
  let h := bcrypt_hash (next_salt w) s 12 in
  bcrypt_contract →
  jwt_issues access_payload ACCESS_TOKEN_TTL →
  jwt_issues refresh_payload REFRESH_TOKEN_TTL →
  JWT_SECRET w ≠ EmptyString →
  (6 ≤ utf16_length s)%nat →
  truthy (pinHash (metaFile w)) = false →
  pinHash (metaFile w1) = JStr h
  ∧ (∃ access rfr w2,
       login (JObj [("pin", JStr s)]) w1
       = (Normal {| status := 200;
                    body := JObj [("accessToken", JStr access);
                                  ("refreshToken", JStr rfr);
                                  ("expiresIn", JStr ACCESS_TOKEN_TTL)] |},
          w2))
  ∧ ∀ s', s' ≠ EmptyString → bcrypt_compare s' h = false →
      login (JObj [("pin", JStr s')]) w1
      = (Normal (error_reply 403 "invalid pin"), w1).
Proof.
  intros w1 h Hbc Ha Hr Hsec Hlen Hunset.
  assert (Hw1 : metaFile w1 = with_pinHash (JStr h) (metaFile w)
                ∧ JWT_SECRET w1 = JWT_SECRET w).
  { subst w1. unfold setup_pin.
    change (get_prop (js_or (JObj [("pin", JStr s)]) (JObj [])) "pin")
      with (JStr s).
    rewrite long_enough by done.
    unfold gets, mbind, M_bind, mret, M_ret. rewrite Hunset. simpl.
    split; reflexivity. }
  destruct Hw1 as (Hmeta & Hsecret).
  destruct (Hbc (next_salt w) s (next_salt_length w)) as [Hne Hcmp].
  change (h ≠ EmptyString) in Hne. change (bcrypt_compare s h = true) in Hcmp.
  assert (Hh : pinHash (metaFile w1) = JStr h) by (by rewrite Hmeta).
  assert (Hth : truthy (pinHash (metaFile w1)) = true)
    by (rewrite Hh; by apply truthy_JStr).
  split; [done|]. split.
  - unfold login.
    change (get_prop (js_or (JObj [("pin", JStr s)]) (JObj [])) "pin")
      with (JStr s).
    unfold gets at 1. unfold mbind at 1. unfold M_bind at 1.
    rewrite Hth, (utf16_length_truthy s) by lia. rewrite Hh. simpl.
    unfold mret at 1. unfold M_ret at 1. unfold mbind at 1. unfold M_bind at 1.
    rewrite Hcmp. simpl.
    destruct (sign_run access_payload ACCESS_TOKEN_TTL w1)
      as (out1 & n1 & Es1 & E1).
    destruct (Ha (JWT_SECRET w1) (clock w1) (ticks w1)) as (access & n1' & Ea);
      [by rewrite Hsecret|].
    rewrite Ea in Es1. injection Es1 as <- <-.
    unfold mbind at 1. unfold M_bind at 1. fold access_payload. rewrite E1.
    destruct (sign_run refresh_payload REFRESH_TOKEN_TTL (set_ticks n1' w1))
      as (out2 & n2 & Es2 & E2).
    destruct (Hr (JWT_SECRET w1) (clock w1) n1') as (rfr & n2' & Er);
      [by rewrite Hsecret|].
    simpl in Es2. rewrite Er in Es2. injection Es2 as <- <-.
    unfold mbind at 1. unfold M_bind at 1. fold refresh_payload. rewrite E2.
    by eexists access, rfr, _.
  - intros s' Hs' Hno. unfold login.
    change (get_prop (js_or (JObj [("pin", JStr s')]) (JObj [])) "pin")
      with (JStr s').
    unfold gets at 1. unfold mbind at 1. unfold M_bind at 1.
    rewrite Hth, (truthy_JStr s' Hs'), Hh. simpl.
    unfold mret at 1. unfold M_ret at 1. unfold mbind at 1. unfold M_bind at 1.
    by rewrite Hno.
Qed.

Lemma member_defined v k :
  v ≠ JNull → v ≠ JUndefined → member v k = Normal (get_prop v k).
Proof. by destruct v. Qed.

(** What the middleware does with a header that has the two parts. *)
Lemma requireAuth_bearer tok next w :
  no_blank tok = true →
  requireAuth (Some ("Bearer " +:+ tok)) next w
  = match jwt_verify (JStr tok) (JWT_SECRET w) (clock w) (ticks w) with
    | (Normal payload, n) =>
        match member payload "sub" with
        | Normal _ => next (set_ticks n w)
        | Throw _ => (Normal (error_reply 401 "invalid token"), set_ticks n w)
        end
    | (Throw _, n) => (Normal (error_reply 401 "invalid token"), set_ticks n w)
    end.
Proof.
  intros Htok. unfold requireAuth.
  change (String.eqb ("Bearer " +:+ tok) "") with false. cbv iota.
  assert (Hparts : js_split " " ("Bearer " +:+ tok) = ["Bearer"; tok])
    by (by apply js_split_two).
  rewrite Hparts. cbn [length nth Nat.eqb negb orb].
  rewrite String.eqb_refl. cbn [negb orb].
  destruct (verify_run (JStr tok) w) as (out & n & Ev & E).
  rewrite Ev. unfold try_catch, mbind, M_bind. rewrite E.
  destruct out as [payload|e]; [|done].
  unfold lift. by destruct (member payload "sub").
Qed.

(** The middleware lets a request through to its handler only with a
    header of the form [Bearer <token>], one blank and no other, whose
    token [jwt.verify] accepts under the server secret.  Such a request
    reaches the handler; every other request is answered 400 or 401
    without the handler being run, and with the files as they were. *)
Theorem requireAuth_admits_bearer_tokens_only
    (authorization : option string) (w : World) :
  (∀ tok payload n,
     authorization = Some ("Bearer " +:+ tok) → no_blank tok = true →
     jwt_verify (JStr tok) (JWT_SECRET w) (clock w) (ticks w)
     = (Normal payload, n) →
     payload ≠ JNull → payload ≠ JUndefined →
     ∀ next, requireAuth authorization next w = next (set_ticks n w))
  ∧ ((∃ tok payload n,
        authorization = Some ("Bearer " +:+ tok) ∧ no_blank tok = true
        ∧ jwt_verify (JStr tok) (JWT_SECRET w) (clock w) (ticks w)
          = (Normal payload, n)
        ∧ payload ≠ JNull ∧ payload ≠ JUndefined)
     ∨ ∃ r w',
         (∀ next, requireAuth authorization next w = (Normal r, w'))
         ∧ (status r = 400 ∨ status r = 401)
         ∧ same_files w w').
Proof.
  split.
  - intros tok payload n -> Htok Hv Hnull Hundef next.
    rewrite requireAuth_bearer, Hv by done.
    by rewrite member_defined.
  - destruct authorization as [auth|].
    2:{ right. eexists _, w. split; [reflexivity|]. split; [by right|done]. }
    destruct (String.eqb auth "") eqn:Eempty.
    { right. eexists _, w. split; [intros next; unfold requireAuth;
        by rewrite Eempty|]. split; [by right|done]. }
    destruct (js_split " " auth) as [|x [|y [|z parts]]] eqn:Eparts.
    1,2,4: right; eexists _, w; split;
      [intros next; unfold requireAuth; rewrite Eempty, Eparts; reflexivity|];
      split; [by left|done].
    destruct (String.eqb x "Bearer") eqn:Ex.
    2:{ right. eexists _, w. split;
          [intros next; unfold requireAuth; rewrite Eempty, Eparts;
           cbn [length nth Nat.eqb negb orb]; rewrite Ex; reflexivity|].
        split; [by left|done]. }
    apply String.eqb_eq in Ex as ->.
    apply js_split_two in Eparts as (-> & _ & Hy).
    change ("Bearer" +:+ " " +:+ y) with ("Bearer " +:+ y) in *.
    destruct (jwt_verify (JStr y) (JWT_SECRET w) (clock w) (ticks w))
      as [[payload|e] n] eqn:Ev.
    + destruct payload eqn:Ep.
      1,2: right; eexists _, _; split;
        [intros next; rewrite requireAuth_bearer, Ev by done; reflexivity|];
        split; [by right|apply same_files_ticks].
      all: left; eexists y, _, n; split; [done|]; split; [done|];
        split; [exact Ev|]; split; discriminate.
    + right. eexists _, _. split;
        [intros next; rewrite requireAuth_bearer, Ev by done; reflexivity|].
      split; [by right|apply same_files_ticks].
Qed.

(** An access token does not refresh.  The access token a successful login
    returned, sent to the refresh route of a server with the same secret,
    is never answered with a new token: the reply is 400 or 403 and the
    files are as they were.  ([jwt.verify] returns the payload that was
    signed, which for an access token has no [type].) *)
Theorem refresh_refuses_access_tokens reqBody w r w1 :
  jwt_contract → json_round_trip access_payload →
  login reqBody w = (Normal r, w1) → status r = 200 →
  ∀ w2, JWT_SECRET w2 = JWT_SECRET w →
    ∃ r' w3,
      refresh (JObj [("refreshToken", get_prop (body r) "accessToken")]) w2
      = (Normal r', w3)
      ∧ (status r' = 400 ∨ status r' = 403)
      ∧ same_files w2 w3.
Proof.
  intros Hjwt Hjson Elogin Hok w2 Hsec.
  destruct (login_run reqBody w) as (out & w' & E & _ & _ & _ & Ho).
  rewrite Elogin in E. injection E as <- <-.
  destruct Ho as [(_ & access & rfr & n & n' & line & Hsign & -> & _)
                  |[[Hs|Hs] _]]; [|rewrite Hs in Hok; done..].
  unfold refresh.
  change (get_prop (js_or (JObj [("refreshToken",
            get_prop (body {| status := 200;
                              body := JObj [("accessToken", JStr access);
                                            ("refreshToken", JStr rfr);
                                            ("expiresIn", JStr ACCESS_TOKEN_TTL)] |})
              "accessToken")]) (JObj [])) "refreshToken")
    with (JStr access).
  destruct (truthy (JStr access)); simpl.
  2:{ eexists _, _. split; [reflexivity|]. split; [by left|done]. }
  destruct (verify_run (JStr access) w2) as (out & m & Ev & E).
  unfold try_catch, mbind, M_bind. rewrite E.
  destruct out as [payload|e].
  2:{ eexists _, _. split; [reflexivity|]. split; [by right|].
      apply same_files_ticks. }
  unfold lift. destruct payload eqn:Ep;
    try (eexists _, _; split; [reflexivity|]; split; [by right|];
         apply same_files_ticks).
  all: rewrite Hsec in Ev;
    pose proof (Hjwt _ _ _ _ _ _ _ _ _ _ _ Hjson Hsign Ev "type"
                  ltac:(discriminate) ltac:(discriminate)) as Htype;
    rewrite member_defined by discriminate; rewrite Htype; simpl;
    eexists _, _; (split; [reflexivity|]); (split; [by left|]);
    apply same_files_ticks.
Qed.

End Tokens.

(** * The JSON collections *)

Section jsval_induction.
Variable P : jsval → Prop.
Hypothesis Hundefined : P JUndefined.
Hypothesis Hnull : P JNull.
Hypothesis Hbool : ∀ b, P (JBool b).
Hypothesis Hnum : ∀ n, P (JNum n).
Hypothesis Hstr : ∀ s, P (JStr s).
Hypothesis Harr : ∀ xs, Forall P xs → P (JArr xs).
Hypothesis Hobj : ∀ fs, Forall (λ kv, P kv.2) fs → P (JObj fs).

Fixpoint jsval_nested_ind (v : jsval) : P v :=
  match v with
  | JUndefined => Hundefined
  | JNull => Hnull
  | JBool b => Hbool b
  | JNum n => Hnum n
  | JStr s => Hstr s
  | JArr xs =>
      Harr xs ((fix go (xs : list jsval) : Forall P xs :=
                  match xs with
                  | [] => Forall_nil_2 P
                  | x :: r => Forall_cons_2 P x r (jsval_nested_ind x) (go r)
                  end) xs)
  | JObj fs =>
      Hobj fs ((fix go (fs : list (string * jsval))
                  : Forall (λ kv, P kv.2) fs :=
                  match fs with
                  | [] => Forall_nil_2 _
                  | kv :: r =>
                      Forall_cons_2 (λ kv, P kv.2) kv r
                        (jsval_nested_ind kv.2) (go r)
                  end) fs)
  end.
End jsval_induction.

Lemma json_clone_arr xs : json_clone (JArr xs) = JArr (map stored_element xs).
Proof. reflexivity. Qed.

Lemma json_clone_obj fs : json_clone (JObj fs) = JObj (stored_members fs).
Proof. reflexivity. Qed.

Lemma json_clone_defined v : v ≠ JUndefined → json_clone v ≠ JUndefined.
Proof. by destruct v. Qed.

Lemma stored_element_eq x : x ≠ JUndefined → stored_element x = json_clone x.
Proof. by destruct x. Qed.

Lemma stored_members_cons k x r :
  x ≠ JUndefined →
  stored_members ((k, x) :: r) = (k, json_clone x) :: stored_members r.
Proof. by destruct x. Qed.

Lemma stored_members_skip k r :
  stored_members ((k, JUndefined) :: r) = stored_members r.
Proof. reflexivity. Qed.

Lemma undefined_or_not (x : jsval) : x = JUndefined ∨ x ≠ JUndefined.
Proof. destruct x; auto. Qed.

(** Writing a value that was read back changes nothing more. *)
Lemma json_clone_idemp v : json_clone (json_clone v) = json_clone v.
Proof.
  induction v as [| | | | |xs IH|fs IH] using jsval_nested_ind; try done.
  - rewrite !json_clone_arr. f_equal. rewrite map_map.
    apply map_ext_Forall. eapply Forall_impl; [exact IH|].
    intros x Hx. simpl in Hx.
    destruct (undefined_or_not x) as [->|Hu]; [done|].
    rewrite (stored_element_eq x Hu).
    rewrite stored_element_eq by (by apply json_clone_defined). exact Hx.
  - rewrite !json_clone_obj. f_equal.
    induction IH as [|[k x] r Hx _ IHr]; [done|]. simpl in Hx.
    destruct (undefined_or_not x) as [->|Hu].
    + by rewrite stored_members_skip.
    + rewrite (stored_members_cons k x r Hu).
      rewrite stored_members_cons by (by apply json_clone_defined).
      by rewrite Hx, IHr.
Qed.


Lemma is_stored_arr xs :
  is_stored (JArr xs) → map stored_element xs = xs.
Proof. unfold is_stored. rewrite json_clone_arr. by intros [= ->]. Qed.

Lemma findIndex_id_first cid xs i :
  first_with_id cid xs i → findIndex_id cid xs = Normal (Some i).
Proof.
  revert i. induction xs as [|x xs IH]; intros i (Hi & Hid & Hbefore).
  - simpl in Hi. lia.
  - destruct i as [|i].
    + simpl in Hid. simpl. destruct x; try done. simpl in *.
      by rewrite (proj2 (js_is_string_spec _ _) Hid).
    + destruct (Hbefore 0%nat ltac:(lia)) as (Hn & Hu & Hne). simpl in Hn, Hu, Hne.
      simpl. rewrite member_defined by done.
      destruct (js_is_string (get_prop x "id") cid) eqn:E.
      { by apply js_is_string_spec in E. }
      rewrite (IH i); [done|]. split; [simpl in Hi; lia|]. split; [done|].
      intros j Hj. apply (Hbefore (S j)). lia.
Qed.

Lemma findIndex_id_none cid xs :
  no_id cid xs → findIndex_id cid xs = Normal None.
Proof.
  induction xs as [|x xs IH]; intros Hno; [done|].
  destruct (Hno x) as (Hn & Hu & Hne); [by left|].
  simpl. rewrite member_defined by done.
  destruct (js_is_string (get_prop x "id") cid) eqn:E.
  { by apply js_is_string_spec in E. }
  rewrite IH; [done|]. intros y Hy. apply Hno. by right.
Qed.

Lemma first_with_id_object cid xs i :
  first_with_id cid xs i → ∃ fs, xs !!! i = JObj fs ∧ assoc "id" fs = JStr cid.
Proof.
  intros (_ & Hid & _). destruct (xs !!! i); try done. eauto.
Qed.

Lemma assoc_set_prop_eq k v fs : assoc k (set_prop k v fs) = v.
Proof.
  induction fs as [|[k' v'] r IH]; simpl.
  - by rewrite String.eqb_refl.
  - destruct (String.eqb k k') eqn:E; simpl.
    + by rewrite String.eqb_refl.
    + by rewrite E.
Qed.

Lemma assoc_set_prop_ne k k' v fs :
  k ≠ k' → assoc k (set_prop k' v fs) = assoc k fs.
Proof.
  intros Hne. apply String.eqb_neq in Hne.
  induction fs as [|[k2 v2] r IH]; simpl.
  - by rewrite Hne.
  - destruct (String.eqb k' k2) eqn:E; simpl.
    + apply String.eqb_eq in E as <-. by rewrite Hne.
    + by rewrite IH.
Qed.

Lemma assoc_assign_one_ne k fs kv :
  k ≠ kv.1 → assoc k (assign_one fs kv) = assoc k fs.
Proof.
  intros Hne. unfold assign_one.
  destruct (_ && _); [done|]. by apply assoc_set_prop_ne.
Qed.

Lemma assoc_assign_one_eq k v fs :
  k ≠ "__proto__" → assoc k (assign_one fs (k, v)) = v.
Proof.
  intros Hk. unfold assign_one. simpl.
  apply String.eqb_neq in Hk. rewrite Hk. simpl. apply assoc_set_prop_eq.
Qed.

Lemma assoc_fold_assign_other k es fs :
  Forall (λ kv, kv.1 ≠ k) es →
  assoc k (fold_left assign_one es fs) = assoc k fs.
Proof.
  intros Hes. revert fs. induction Hes as [|kv es Hkv _ IH]; intros fs; [done|].
  simpl. rewrite IH. apply assoc_assign_one_ne. congruence.
Qed.

Lemma own_members_seen seen fs :
  Forall (λ kv, kv.1 ∉ seen) (own_members seen fs).
Proof.
  revert seen. induction fs as [|[k v] r IH]; intros seen; simpl; [constructor|].
  destruct (existsb (String.eqb k) seen) eqn:E; [apply IH|].
  constructor.
  - simpl. intros Hin. apply not_true_iff_false in E. apply E.
    apply existsb_exists. exists k. split; [by apply list_elem_of_In|].
    apply String.eqb_refl.
  - eapply Forall_impl; [apply IH|]. intros kv Hkv Hin. apply Hkv. by right.
Qed.

Lemma existsb_eqb_elem k seen :
  existsb (String.eqb k) seen = true ↔ k ∈ seen.
Proof.
  rewrite existsb_exists. split.
  - intros (x & Hx & ->%String.eqb_eq). by apply list_elem_of_In.
  - intros Hk. exists k. split; [by apply list_elem_of_In|apply String.eqb_refl].
Qed.

(** What [Object.assign] leaves in a member other than [__proto__]: the
    value the source has for it, if it has one, and the old value if not. *)
Lemma assoc_fold_assign_members k bfs : ∀ seen fs,
  k ≠ "__proto__" → k ∉ seen →
  assoc k (fold_left assign_one (own_members seen bfs) fs)
  = if has_key k bfs then assoc k bfs else assoc k fs.
Proof.
  induction bfs as [|[k1 v1] r IH]; intros seen fs Hk Hseen; [done|].
  simpl. destruct (String.eqb k k1) eqn:Ek.
  - apply String.eqb_eq in Ek as <-.
    destruct (existsb (String.eqb k) seen) eqn:E.
    { by apply existsb_eqb_elem in E. }
    simpl. rewrite assoc_fold_assign_other.
    + by apply assoc_assign_one_eq.
    + eapply Forall_impl; [apply own_members_seen|].
      intros kv Hkv Heq. apply Hkv. rewrite Heq. by left.
  - simpl. apply String.eqb_neq in Ek.
    destruct (existsb (String.eqb k1) seen) eqn:E.
    + by apply IH.
    + simpl. rewrite IH; [|done|].
      * destruct (has_key k r); [done|]. by apply assoc_assign_one_ne.
      * intros [->|Hin]%elem_of_cons; done.
Qed.

Lemma get_prop_Object_assign fs bfs t k :
  k ≠ "__proto__" →
  get_prop (Object_assign (JObj fs) [JObj bfs; JObj [("updatedAt", JNum t)]]) k
  = if String.eqb k "updatedAt" then JNum t
    else if has_key k bfs then assoc k bfs else assoc k fs.
Proof.
  intros Hk. unfold Object_assign. cbn [fold_left own_entries get_prop].
  change (own_members [] [("updatedAt", JNum t)]) with [("updatedAt", JNum t)].
  cbn [fold_left].
  destruct (String.eqb k "updatedAt") eqn:E.
  - apply String.eqb_eq in E as ->. by apply assoc_assign_one_eq.
  - apply String.eqb_neq in E. rewrite assoc_assign_one_ne by done.
    apply assoc_fold_assign_members; [done|]. apply not_elem_of_nil.
Qed.

Section CollectionsProofs.

(** Running a handler of the site one step at a time. *)

Lemma bindS_Normal {A B} (m : MS A) (f : A → MS B) s a s' :
  m s = (Normal a, s') → (m ≫= f) s = f a s'.
Proof. intros E. unfold mbind, MS_bind. by rewrite E. Qed.

Lemma liftW_id prefix s :
  liftW (id prefix) s
  = (Normal (prefix +:+ uuids (world s) (issued (world s))),
     set_world (set_issued (S (issued (world s))) (world s)) s).
Proof. reflexivity. Qed.

Lemma liftW_now s :
  liftW now s
  = (Normal (clock (world s) (ticks (world s))),
     set_world (set_ticks (S (ticks (world s))) (world s)) s).
Proof. reflexivity. Qed.

Lemma liftW_logHistory action payload s :
  liftW (logHistory action payload) s
  = (Normal tt, set_world (log_line action payload (world s)) s).
Proof. reflexivity. Qed.

Lemma liftC_run {A} (c : completion A) s : liftC c s = (c, s).
Proof. reflexivity. Qed.

(** ** Files *)

Lemma write_file_twice f v v' s :
  write_file f v' (write_file f v s) = write_file f v' s.
Proof. by destruct f. Qed.

(** What is written is read back, as JSON carries it.  Writing a value
    other than [undefined] to a collection file succeeds; reading the file
    then gives the value as JSON carries it (without the members that are
    [undefined], with [null] for such elements of arrays); writing what was
    read leaves the file as it is; and no other file changes. *)
Theorem writeJson_then_readJson f v s :
  v ≠ JUndefined →
  ∃ s',
    writeJson f v s = (Normal tt, s')
    ∧ readJson f s' = (Normal (json_clone v), s')
    ∧ writeJson f (json_clone v) s' = (Normal tt, s')
    ∧ (∀ g, g ≠ f → read_file g s' = read_file g s)
    ∧ world s' = world s ∧ backupDir s' = backupDir s.
Proof.
  intros Hv. exists (write_file f (json_clone v) s).
  assert (Hw : ∀ x s0, x ≠ JUndefined →
                 writeJson f x s0 = (Normal tt, write_file f (json_clone x) s0)).
  { intros x s0 Hx. by destruct x. }
  split; [by apply Hw|]. split; [by destruct f|]. split.
  - rewrite Hw by (by apply json_clone_defined).
    by rewrite json_clone_idemp, write_file_twice.
  - split; [|done]. intros g Hg. by destruct f, g.
Qed.

(** ** Courses *)

Lemma loadCourses_run s :
  loadCourses s = (Normal (js_or (coursesFile s) (JArr [])), s).
Proof. reflexivity. Qed.

Lemma saveCourses_arr xs s :
  saveCourses (JArr xs) s
  = (Normal tt,
     set_world (log_line "courses.update"
                  (JObj [("count", JNum (Z.of_nat (length xs)))]) (world s))
       (write_file COURSES_FILE (json_clone (JArr xs)) s)).
Proof. reflexivity. Qed.

Tactic Notation "stepS" open_constr(lem) :=
  rewrite (bindS_Normal _ _ _ _ _ lem).

Lemma courses_post_run reqBody s xs :
  let b := js_or reqBody (JObj []) in
  let w := world s in
  let u := "c" +:+ uuids w (issued w) in
  let c := JObj [("id", JStr u); ("name", get_prop b "name");
                 ("url", get_prop b "url");
                 ("notes", js_default (JStr "") (get_prop b "notes"));
                 ("tags", js_default (JArr []) (get_prop b "tags"));
                 ("createdAt", JNum (clock w (ticks w)))] in
  truthy (get_prop b "name") = true →
  truthy (get_prop b "url") = true →
  js_or (coursesFile s) (JArr []) = JArr xs →
  courses_post reqBody s
  = (Normal {| status := 200;
               body := JObj [("ok", JBool true); ("course", c)] |},
     set_world
       (log_line "courses.create" (JObj [("id", JStr u)])
          (log_line "courses.update"
             (JObj [("count", JNum (Z.of_nat (S (length xs))))])
             (set_ticks (S (ticks w)) (set_issued (S (issued w)) w))))
       (write_file COURSES_FILE (json_clone (JArr (c :: xs))) s)).
Proof.
  intros b w u c Hname Hurl Hfile. unfold courses_post. fold b.
  rewrite Hname, Hurl. cbn [negb orb].
  stepS (loadCourses_run s). rewrite Hfile.
  stepS (liftW_id "c" s). stepS (liftW_now (set_world _ s)).
  stepS (liftC_run (as_array (JArr xs)) (set_world _ (set_world _ s))).
  stepS (saveCourses_arr (c :: xs) (set_world _ (set_world _ s))).
  stepS (liftW_logHistory "courses.create" (JObj [("id", JStr u)])
           (set_world _ (write_file _ _ (set_world _ (set_world _ s))))).
  reflexivity.
Qed.

Lemma courses_delete_found cid s xs i :
  js_or (coursesFile s) (JArr []) = JArr xs →
  first_with_id cid xs i →
  courses_delete cid s
  = (Normal ok_reply,
     set_world
       (log_line "courses.delete" (JObj [("id", JStr cid)])
          (log_line "courses.update"
             (JObj [("count", JNum (Z.of_nat (length (splice_one i xs))))])
             (world s)))
       (write_file COURSES_FILE (json_clone (JArr (splice_one i xs))) s)).
Proof.
  intros Hfile Hi. unfold courses_delete.
  stepS (loadCourses_run s). rewrite Hfile.
  stepS (liftC_run (as_array (JArr xs)) s).
  rewrite (findIndex_id_first _ _ _ Hi).
  stepS (liftC_run (Normal (Some i)) s).
  stepS (saveCourses_arr (splice_one i xs) s).
  stepS (liftW_logHistory "courses.delete" (JObj [("id", JStr cid)])
           (set_world _ (write_file _ _ s))).
  reflexivity.
Qed.

Lemma length_splice_one i (xs : list jsval) :
  (i < length xs)%nat → length (splice_one i xs) = (length xs - 1)%nat.
Proof.
  intros Hi. unfold splice_one.
  rewrite length_app, length_take, length_drop. lia.
Qed.

(** A created course is listed first.  For a request with a name and a url,
    over a courses file that holds an array (or cannot be read), POST
    answers 200 with the course it made: a fresh identifier [c] followed by
    a uuid, the name and url sent, [notes] and [tags] as sent or their
    defaults, and the time of creation.  The file then holds, as JSON, the
    new course followed by the courses it held, which is what GET returns;
    the log gains the lines [courses.update], with the new count, and
    [courses.create]; no other file changes. *)
Theorem courses_post_then_get reqBody s xs :
  let b := js_or reqBody (JObj []) in
  let w := world s in
  let u := "c" +:+ uuids w (issued w) in
  let c := JObj [("id", JStr u); ("name", get_prop b "name");
                 ("url", get_prop b "url");
                 ("notes", js_default (JStr "") (get_prop b "notes"));
                 ("tags", js_default (JArr []) (get_prop b "tags"));
                 ("createdAt", JNum (clock w (ticks w)))] in
  truthy (get_prop b "name") = true →
  truthy (get_prop b "url") = true →
  js_or (coursesFile s) (JArr []) = JArr xs →
  ∃ s',
    courses_post reqBody s
    = (Normal {| status := 200;
                 body := JObj [("ok", JBool true); ("course", c)] |}, s')
    ∧ coursesFile s' = json_clone (JArr (c :: xs))
    ∧ courses_get s'
      = (Normal {| status := 200;
                   body := JObj [("courses", json_clone (JArr (c :: xs)))] |},
         s')
    ∧ historyLog (world s')
      = (historyLog w
         ++ [logged (clock w (S (ticks w))) "courses.update"
               (JObj [("count", JNum (Z.of_nat (S (length xs))))]);
             logged (clock w (S (S (ticks w)))) "courses.create"
               (JObj [("id", JStr u)])])%list
    ∧ same_site_but COURSES_FILE s s'.
Proof.
  intros b w u c Hname Hurl Hfile.
  rewrite (courses_post_run reqBody s xs Hname Hurl Hfile).
  eexists. split; [reflexivity|].
  split; [reflexivity|]. split; [reflexivity|].
  split; [cbn; rewrite <- app_assoc; reflexivity|].
  split; try reflexivity. by intros [].
Qed.

(** Deleting a course removes the first course with the identifier and
    nothing else.  Over a courses file that holds an array: if [i] is the
    place of the first element whose [id] is the identifier asked for,
    DELETE answers [ok: true] and the file then holds, as JSON, the array
    without its element at [i] (a later element with the same [id] stays);
    if no element has the identifier, DELETE answers 404 and nothing at all
    changes, not even the log. *)
Theorem courses_delete_removes_the_first_match cid s xs :
  let w := world s in
  js_or (coursesFile s) (JArr []) = JArr xs →
  (∀ i, first_with_id cid xs i →
     ∃ s',
       courses_delete cid s = (Normal ok_reply, s')
       ∧ coursesFile s' = json_clone (JArr (take i xs ++ drop (S i) xs))
       ∧ historyLog (world s')
         = (historyLog w
            ++ [logged (clock w (ticks w)) "courses.update"
                  (JObj [("count", JNum (Z.of_nat (length xs - 1)))]);
                logged (clock w (S (ticks w))) "courses.delete"
                  (JObj [("id", JStr cid)])])%list
       ∧ same_site_but COURSES_FILE s s')
  ∧ (no_id cid xs →
     courses_delete cid s = (Normal (error_reply 404 "notfound"), s)).
Proof.
  intros w Hfile. split.
  - intros i Hi. rewrite (courses_delete_found cid s xs i Hfile Hi).
    eexists. split; [reflexivity|]. split; [reflexivity|]. split.
    + cbn. rewrite <- app_assoc, length_splice_one by apply Hi. reflexivity.
    + split; try reflexivity. by intros [].
  - intros Hno. unfold courses_delete.
    stepS (loadCourses_run s). rewrite Hfile.
    stepS (liftC_run (as_array (JArr xs)) s).
    rewrite (findIndex_id_none _ _ Hno).
    by stepS (liftC_run (Normal None) s).
Qed.

(** A patch keeps the course in its place and stamps it.  Over a courses
    file that holds an array whose first element with the identifier is at
    [i], PATCH with a JSON object answers 200 with the patched course, and
    the file then holds the array with that course at [i] and every other
    element as it was.  In the patched course [updatedAt] is the time of
    the server, also when the request sends an [updatedAt]; every other
    member the request sends has the value sent, [id] and [createdAt]
    included; every member it does not send is as before. *)
Theorem courses_patch_stamps_the_course cid bfs s xs i :
  let w := world s in
  js_or (coursesFile s) (JArr []) = JArr xs →
  first_with_id cid xs i →
  ∃ c s',
    courses_patch cid (JObj bfs) s
    = (Normal {| status := 200;
                 body := JObj [("ok", JBool true); ("course", c)] |}, s')
    ∧ coursesFile s' = json_clone (JArr (<[i := c]> xs))
    ∧ get_prop c "updatedAt" = JNum (clock w (ticks w))
    ∧ (∀ k, k ≠ "updatedAt" → k ≠ "__proto__" →
         get_prop c k
         = if has_key k bfs then assoc k bfs else get_prop (xs !!! i) k)
    ∧ same_site_but COURSES_FILE s s'.
Proof.
  intros w Hfile Hi. unfold courses_patch.
  destruct (first_with_id_object _ _ _ Hi) as (fs & Hfs & _).
  stepS (loadCourses_run s). rewrite Hfile.
  stepS (liftC_run (as_array (JArr xs)) s).
  rewrite (findIndex_id_first _ _ _ Hi).
  stepS (liftC_run (Normal (Some i)) s).
  stepS (liftW_now s). rewrite Hfs.
  set (c := Object_assign (JObj fs) _).
  stepS (saveCourses_arr (<[i := c]> xs) (set_world _ s)).
  stepS (liftW_logHistory "courses.update" (JObj [("id", get_prop c "id")])
           (set_world _ (write_file _ _ (set_world _ s)))).
  exists c. eexists. split; [reflexivity|]. split; [reflexivity|]. split.
  { subst c. rewrite get_prop_Object_assign by done. reflexivity. }
  split.
  { intros k Hk Hp. subst c. rewrite get_prop_Object_assign by done.
    apply String.eqb_neq in Hk. by rewrite Hk. }
  split; try reflexivity. by intros [].
Qed.

(** A course that was created is deleted by its identifier, and the file
    is as before.  Over a courses file that holds a JSON array, POST with a
    name and a url followed by DELETE with the identifier POST returned
    answers [ok: true], and the file holds the array it held at first. *)
Theorem courses_post_then_delete reqBody s xs :
  let b := js_or reqBody (JObj []) in
  let w := world s in
  let u := "c" +:+ uuids w (issued w) in
  truthy (get_prop b "name") = true →
  truthy (get_prop b "url") = true →
  js_or (coursesFile s) (JArr []) = JArr xs →
  is_stored (JArr xs) →
  ∃ r s1 s2,
    courses_post reqBody s = (Normal r, s1)
    ∧ get_prop (get_prop (body r) "course") "id" = JStr u
    ∧ courses_delete u s1 = (Normal ok_reply, s2)
    ∧ coursesFile s2 = JArr xs.
Proof.
  intros b w u Hname Hurl Hfile Hxs.
  rewrite (courses_post_run reqBody s xs Hname Hurl Hfile).
  eexists _, _, _. split; [reflexivity|]. split; [reflexivity|].
  set (s1 := set_world _ _).
  assert (Hfile1 : js_or (coursesFile s1) (JArr [])
                   = JArr (stored_element
                             (JObj [("id", JStr u); ("name", get_prop b "name");
                                    ("url", get_prop b "url");
                                    ("notes", js_default (JStr "")
                                                (get_prop b "notes"));
                                    ("tags", js_default (JArr [])
                                               (get_prop b "tags"));
                                    ("createdAt", JNum (clock w (ticks w)))])
                           :: xs)).
  { subst s1. cbn [coursesFile set_world write_file].
    rewrite json_clone_arr. cbn [map]. by rewrite (is_stored_arr xs Hxs). }
  rewrite (courses_delete_found u s1 _ 0 Hfile1).
  - split; [reflexivity|]. cbn [coursesFile set_world write_file].
    unfold splice_one. cbn [take drop app]. exact Hxs.
  - split; [simpl; lia|]. split; [reflexivity|]. intros j Hj. lia.
Qed.

(** ** Topics *)

Lemma loadTopics_run s :
  loadTopics s = (Normal (js_or (topicsFile s) (JArr [])), s).
Proof. reflexivity. Qed.

Lemma saveTopics_arr xs s :
  saveTopics (JArr xs) s
  = (Normal tt,
     set_world (log_line "topics.update"
                  (JObj [("count", JNum (Z.of_nat (length xs)))]) (world s))
       (write_file TOPICS_FILE (json_clone (JArr xs)) s)).
Proof. reflexivity. Qed.

(** Adding a child to a topic.  Over a topics file that holds an array:
    for an unknown identifier the reply is 404, whatever the body; for a
    topic that is there and a request without a name it is 400; in both
    cases nothing changes.  For a topic that is there, at place [i], whose
    [children] is an array or is missing, and a request with a name, the
    reply is 200 with the child made (identifier [st] and a uuid, the
    name, empty notes and tags), the topic keeps its place and its other
    members, and its children are the ones it had followed by the new
    one. *)
Theorem topics_add_child_appends tid reqBody s xs :
  let b := js_or reqBody (JObj []) in
  let w := world s in
  let child := JObj [("id", JStr ("st" +:+ uuids w (issued w)));
                     ("name", get_prop b "name"); ("notes", JStr "");
                     ("tags", JArr [])] in
  js_or (topicsFile s) (JArr []) = JArr xs →
  (no_id tid xs →
   topics_add_child tid reqBody s = (Normal (error_reply 404 "notfound"), s))
  ∧ (∀ i, first_with_id tid xs i →
       (truthy (get_prop b "name") = false →
        topics_add_child tid reqBody s
        = (Normal (error_reply 400 "name required"), s))
       ∧ (truthy (get_prop b "name") = true →
          ∀ children,
            js_or (get_prop (xs !!! i) "children") (JArr []) = JArr children →
            ∃ t' s',
              topics_add_child tid reqBody s
              = (Normal {| status := 200;
                           body := JObj [("ok", JBool true); ("child", child)] |},
                 s')
              ∧ topicsFile s' = json_clone (JArr (<[i := t']> xs))
              ∧ get_prop t' "children" = JArr (children ++ [child])
              ∧ (∀ k, k ≠ "children" → get_prop t' k = get_prop (xs !!! i) k)
              ∧ same_site_but TOPICS_FILE s s')).
Proof.
  intros b w child Hfile. split.
  - intros Hno. unfold topics_add_child.
    stepS (loadTopics_run s). rewrite Hfile.
    stepS (liftC_run (as_array (JArr xs)) s).
    rewrite (findIndex_id_none _ _ Hno).
    by stepS (liftC_run (Normal None) s).
  - intros i Hi.
    destruct (first_with_id_object _ _ _ Hi) as (fs & Hfs & _).
    assert (Hrun : topics_add_child tid reqBody s
              = (if negb (truthy (get_prop b "name")) then
                   respond 400 (JObj [("error", JStr "name required")])
                 else
                   u ← liftW (id "st");
                   let child := JObj [("id", JStr u); ("name", get_prop b "name");
                                      ("notes", JStr ""); ("tags", JArr [])] in
                   children ← liftC (as_array
                                       (js_or (get_prop (xs !!! i) "children")
                                          (JArr [])));
                   let t' := put_prop (xs !!! i) "children"
                               (JArr (children ++ [child])%list) in
                   saveTopics (JArr (<[i := t']> xs));;
                   liftW (logHistory "topics.child.create"
                            (JObj [("topicId", get_prop t' "id");
                                   ("childId", JStr u)]));;
                   respond 200 (JObj [("ok", JBool true); ("child", child)])) s).
    { unfold topics_add_child.
      stepS (loadTopics_run s). rewrite Hfile.
      stepS (liftC_run (as_array (JArr xs)) s).
      rewrite (findIndex_id_first _ _ _ Hi).
      by stepS (liftC_run (Normal (Some i)) s). }
    rewrite Hrun. split.
    + intros Hname. by rewrite Hname.
    + intros Hname children Hch. rewrite Hname. cbn [negb].
      stepS (liftW_id "st" s). rewrite Hch.
      stepS (liftC_run (as_array (JArr children)) (set_world _ s)).
      rewrite Hfs. cbn [put_prop].
      stepS (saveTopics_arr _ (set_world _ s)).
      stepS (liftW_logHistory "topics.child.create" _
               (set_world _ (write_file _ _ (set_world _ s)))).
      eexists _, _. split; [reflexivity|]. split; [reflexivity|]. split.
      { cbn [get_prop]. apply assoc_set_prop_eq. }
      split.
      { intros k Hk. cbn [get_prop]. by apply assoc_set_prop_ne. }
      split; try reflexivity. by intros [].
Qed.

Lemma stored_element_idemp x : stored_element (stored_element x) = stored_element x.
Proof.
  destruct (undefined_or_not x) as [->|Hu]; [done|].
  rewrite (stored_element_eq x Hu).
  rewrite stored_element_eq by (by apply json_clone_defined).
  apply json_clone_idemp.
Qed.

Lemma topics_post_run reqBody s xs :
  let b := js_or reqBody (JObj []) in
  let w := world s in
  let u := "t" +:+ uuids w (issued w) in
  let topic := JObj [("id", JStr u); ("name", get_prop b "name");
                     ("children", JArr []); ("notes", JStr "");
                     ("tags", JArr []); ("createdAt", JNum (clock w (ticks w)))] in
  truthy (get_prop b "name") = true →
  js_or (topicsFile s) (JArr []) = JArr xs →
  topics_post reqBody s
  = (Normal {| status := 200;
               body := JObj [("ok", JBool true); ("topic", topic)] |},
     set_world
       (log_line "topics.create" (JObj [("id", JStr u)])
          (log_line "topics.update"
             (JObj [("count", JNum (Z.of_nat (S (length xs))))])
             (set_ticks (S (ticks w)) (set_issued (S (issued w)) w))))
       (write_file TOPICS_FILE (json_clone (JArr (topic :: xs))) s)).
Proof.
  intros b w u topic Hname Hfile. unfold topics_post. fold b.
  rewrite Hname. cbn [negb].
  stepS (loadTopics_run s). rewrite Hfile.
  stepS (liftW_id "t" s). stepS (liftW_now (set_world _ s)).
  stepS (liftC_run (as_array (JArr xs)) (set_world _ (set_world _ s))).
  stepS (saveTopics_arr (topic :: xs) (set_world _ (set_world _ s))).
  stepS (liftW_logHistory "topics.create" (JObj [("id", JStr u)])
           (set_world _ (write_file _ _ (set_world _ (set_world _ s))))).
  reflexivity.
Qed.

Lemma topics_add_child_run tid reqBody s xs i fs children :
  let b := js_or reqBody (JObj []) in
  let w := world s in
  let child := JObj [("id", JStr ("st" +:+ uuids w (issued w)));
                     ("name", get_prop b "name"); ("notes", JStr "");
                     ("tags", JArr [])] in
  let t' := JObj (set_prop "children" (JArr (children ++ [child])) fs) in
  js_or (topicsFile s) (JArr []) = JArr xs →
  first_with_id tid xs i → xs !!! i = JObj fs →
  truthy (get_prop b "name") = true →
  js_or (assoc "children" fs) (JArr []) = JArr children →
  topics_add_child tid reqBody s
  = (Normal {| status := 200;
               body := JObj [("ok", JBool true); ("child", child)] |},
     set_world
       (log_line "topics.child.create"
          (JObj [("topicId", get_prop t' "id");
                 ("childId", JStr ("st" +:+ uuids w (issued w)))])
          (log_line "topics.update"
             (JObj [("count", JNum (Z.of_nat (length (<[i := t']> xs))))])
             (set_issued (S (issued w)) w)))
       (write_file TOPICS_FILE (json_clone (JArr (<[i := t']> xs))) s)).
Proof.
  intros b w child t' Hfile Hi Hfs Hname Hch. unfold topics_add_child.
  stepS (loadTopics_run s). rewrite Hfile.
  stepS (liftC_run (as_array (JArr xs)) s).
  rewrite (findIndex_id_first _ _ _ Hi).
  stepS (liftC_run (Normal (Some i)) s).
  fold b. rewrite Hname. cbn [negb].
  stepS (liftW_id "st" s). rewrite Hfs. cbn [get_prop]. rewrite Hch.
  stepS (liftC_run (as_array (JArr children)) (set_world _ s)).
  cbn [put_prop].
  stepS (saveTopics_arr _ (set_world _ s)).
  stepS (liftW_logHistory "topics.child.create" _
           (set_world _ (write_file _ _ (set_world _ s)))).
  reflexivity.
Qed.

(** A topic that was created takes children by its identifier.  Over a
    topics file that holds an array, POST with a name answers with a topic
    that has no children, identified by [t] and a uuid; adding a child with
    a name to that identifier then answers 200 with the child, identified
    by [st] and the next uuid, and the file holds, before the topics it
    held at first, the topic with this child as its only one. *)
Theorem topics_post_then_add_child reqBody childBody s xs :
  let b := js_or reqBody (JObj []) in
  let cb := js_or childBody (JObj []) in
  let w := world s in
  let u := "t" +:+ uuids w (issued w) in
  let child := JObj [("id", JStr ("st" +:+ uuids w (S (issued w))));
                     ("name", get_prop cb "name"); ("notes", JStr "");
                     ("tags", JArr [])] in
  truthy (get_prop b "name") = true →
  truthy (get_prop cb "name") = true →
  js_or (topicsFile s) (JArr []) = JArr xs →
  ∃ r s1 s2 t,
    topics_post reqBody s = (Normal r, s1)
    ∧ get_prop (get_prop (body r) "topic") "id" = JStr u
    ∧ get_prop (get_prop (body r) "topic") "children" = JArr []
    ∧ topics_add_child u childBody s1
      = (Normal {| status := 200;
                   body := JObj [("ok", JBool true); ("child", child)] |}, s2)
    ∧ topicsFile s2 = json_clone (JArr (t :: xs))
    ∧ get_prop t "id" = JStr u
    ∧ get_prop t "name" = json_clone (get_prop b "name")
    ∧ get_prop t "children" = JArr [child].
Proof.
  intros b cb w u child Hname Hcname Hfile.
  rewrite (topics_post_run reqBody s xs Hname Hfile). fold b w u.
  set (topic := JObj [("id", JStr u); ("name", get_prop b "name");
                      ("children", JArr []); ("notes", JStr "");
                      ("tags", JArr []); ("createdAt", JNum (clock w (ticks w)))]).
  set (s1 := set_world _ _).
  assert (Hn : get_prop b "name" ≠ JUndefined) by (by intros Hu; rewrite Hu in Hname).
  set (rest := [("notes", JStr ""); ("tags", JArr []);
                ("createdAt", JNum (clock w (ticks w)))]).
  assert (Htopic : stored_element topic
                   = JObj (("id", JStr u) :: ("name", json_clone (get_prop b "name"))
                           :: ("children", JArr []) :: rest)).
  { unfold topic. cbn [stored_element]. rewrite json_clone_obj.
    rewrite (stored_members_cons "id") by done.
    rewrite (stored_members_cons "name") by done. reflexivity. }
  assert (Hfile1 : js_or (topicsFile s1) (JArr [])
                   = JArr (stored_element topic :: map stored_element xs)).
  { reflexivity. }
  assert (Hfirst : first_with_id u (stored_element topic :: map stored_element xs) 0).
  { split; [simpl; lia|]. split; [by rewrite Htopic|]. intros j Hj. lia. }
  eexists _, s1, _, _. split; [reflexivity|].
  split; [reflexivity|]. split; [reflexivity|]. split.
  { rewrite (topics_add_child_run u childBody s1 _ 0 _ [] Hfile1 Hfirst Htopic);
      [reflexivity|done|reflexivity]. }
  cbn [topicsFile set_world write_file]. rewrite !json_clone_arr.
  cbn [insert list_insert map]. rewrite map_map.
  rewrite (map_ext _ _ stored_element_idemp).
  split; [reflexivity|]. split; [reflexivity|]. split; [reflexivity|].
  reflexivity.
Qed.

(** ** Tasks *)

Lemma loadTasks_run s :
  loadTasks s = (Normal (js_or (tasksFile s) default_days), s).
Proof. reflexivity. Qed.

Lemma assoc_stored_members k fs v :
  assoc k fs = v → v ≠ JUndefined →
  assoc k (stored_members fs) = json_clone v.
Proof.
  intros Hv Hu. induction fs as [|[k1 v1] r IH]; simpl in Hv; [congruence|].
  destruct (String.eqb k k1) eqn:E.
  - subst v1. rewrite stored_members_cons by done. simpl. by rewrite E.
  - destruct (undefined_or_not v1) as [->|Hv1].
    + rewrite stored_members_skip. by apply IH.
    + rewrite stored_members_cons by done. simpl. rewrite E. by apply IH.
Qed.

Lemma saveTasks_days fs a b s :
  assoc "A" fs = JArr a → assoc "B" fs = JArr b →
  saveTasks (JObj fs) s
  = (Normal tt,
     set_world (log_line "tasks.update"
                  (JObj [("counts",
                          JObj [("A", JNum (Z.of_nat (length a)));
                                ("B", JNum (Z.of_nat (length b)))])])
                  (world s))
       (write_file TASKS_FILE (json_clone (JObj fs)) s)).
Proof.
  intros Ha Hb. unfold saveTasks.
  stepS (eq_refl : writeJson TASKS_FILE (JObj fs) s = (Normal tt, _)).
  cbn [get_prop]. rewrite Ha, Hb.
  stepS (liftC_run (length_of (JArr a)) _).
  stepS (liftC_run (length_of (JArr b)) _).
  reflexivity.
Qed.

Lemma delete_day_run tid fs d xs xs' s :
  assoc d fs = JArr xs → without_first tid xs xs' →
  ∃ fs',
    delete_day tid (JObj fs) d s = (Normal (JObj fs'), s)
    ∧ assoc d fs' = JArr xs'
    ∧ ∀ k, k ≠ d → assoc k fs' = assoc k fs.
Proof.
  intros Hd Hw. unfold delete_day. cbn [get_prop]. rewrite Hd.
  stepS (liftC_run (as_array (JArr xs)) s).
  destruct Hw as [(i & Hi & ->)|(Hno & ->)].
  - rewrite (findIndex_id_first _ _ _ Hi).
    stepS (liftC_run (Normal (Some i)) s).
    eexists. split; [reflexivity|]. split.
    + apply assoc_set_prop_eq.
    + intros k Hk. by apply assoc_set_prop_ne.
  - rewrite (findIndex_id_none _ _ Hno).
    stepS (liftC_run (Normal None) s).
    exists fs. by split.
Qed.

(** Deleting a task always answers [ok: true].  Over a tasks file that
    holds an object with an array for each of the days A and B (the
    default when the file cannot be read), DELETE removes from each day its
    first task with the identifier, if it has one, rewrites the file and
    answers [ok: true], also when no task has the identifier.  The log
    gains [tasks.update], with the number of tasks left in each day, and
    [tasks.delete].  GET then lists the tasks left: those of day B when
    the query says [B], those of day A for any other query. *)
Theorem tasks_delete_always_answers_ok tid s fs a b a' b' :
  let w := world s in
  js_or (tasksFile s) default_days = JObj fs →
  assoc "A" fs = JArr a → assoc "B" fs = JArr b →
  without_first tid a a' → without_first tid b b' →
  ∃ s',
    tasks_delete tid s = (Normal ok_reply, s')
    ∧ get_prop (tasksFile s') "A" = json_clone (JArr a')
    ∧ get_prop (tasksFile s') "B" = json_clone (JArr b')
    ∧ historyLog (world s')
      = (historyLog w
         ++ [logged (clock w (ticks w)) "tasks.update"
               (JObj [("counts",
                       JObj [("A", JNum (Z.of_nat (length a')));
                             ("B", JNum (Z.of_nat (length b')))])]);
             logged (clock w (S (ticks w))) "tasks.delete"
               (JObj [("taskId", JStr tid)])])%list
    ∧ (∀ day,
         let d := if js_is_string day "B" then "B" else "A" in
         tasks_get day s'
         = (Normal {| status := 200;
                      body := JObj [("day", JStr d);
                                    ("tasks",
                                     json_clone
                                       (JArr (if js_is_string day "B"
                                              then b' else a')))] |}, s'))
    ∧ same_site_but TASKS_FILE s s'.
Proof.
  intros w Hfile Ha Hb Hwa Hwb. unfold tasks_delete.
  stepS (loadTasks_run s). rewrite Hfile.
  destruct (delete_day_run tid fs "A" a a' s Ha Hwa) as (fs1 & E1 & Ha1 & Ho1).
  stepS E1.
  assert (Hb1 : assoc "B" fs1 = JArr b) by (by rewrite Ho1).
  destruct (delete_day_run tid fs1 "B" b b' s Hb1 Hwb) as (fs2 & E2 & Hb2 & Ho2).
  stepS E2.
  assert (Ha2 : assoc "A" fs2 = JArr a') by (by rewrite Ho2).
  stepS (saveTasks_days fs2 a' b' s Ha2 Hb2).
  stepS (liftW_logHistory "tasks.delete" (JObj [("taskId", JStr tid)])
           (set_world _ (write_file _ _ s))).
  eexists. split; [reflexivity|].
  pose proof (assoc_stored_members "A" fs2 _ Ha2 ltac:(done)) as Ha3.
  pose proof (assoc_stored_members "B" fs2 _ Hb2 ltac:(done)) as Hb3.
  set (s' := set_world _ _).
  assert (Hfile' : tasksFile s' = JObj (stored_members fs2)) by reflexivity.
  rewrite Hfile'. cbn [get_prop].
  split; [done|]. split; [done|].
  split; [cbn; rewrite <- app_assoc; reflexivity|]. split.
  - intros day. unfold tasks_get.
    stepS (loadTasks_run s'). rewrite Hfile'.
    cbn [js_or truthy get_prop].
    destruct (js_is_string day "B"); [by rewrite Hb3|by rewrite Ha3].
  - split; try reflexivity. by intros [].
Qed.

Lemma js_or_array v (xs : list jsval) :
  js_or v (JArr []) = JArr xs → xs ≠ [] → v = JArr xs.
Proof.
  unfold js_or. destruct (truthy v); [done|]. by intros [= <-].
Qed.

Lemma patch_day_found tid patch fs found d xs i xfs s :
  assoc d fs = JArr xs → first_with_id tid xs i → xs !!! i = JObj xfs →
  let x := Object_assign (JObj xfs)
             [patch; JObj [("updatedAt", JNum (clock (world s) (ticks (world s))))]] in
  patch_day tid patch (JObj fs, found) d s
  = (Normal (JObj (set_prop d (JArr (<[i := x]> xs)) fs), x),
     set_world (set_ticks (S (ticks (world s))) (world s)) s).
Proof.
  intros Hd Hi Hx x. unfold patch_day. cbn [get_prop]. rewrite Hd.
  stepS (liftC_run (as_array (JArr xs)) s).
  rewrite (findIndex_id_first _ _ _ Hi).
  stepS (liftC_run (Normal (Some i)) s).
  stepS (liftW_now s). rewrite Hx. reflexivity.
Qed.

Lemma patch_day_missing tid patch tasks found d xs s :
  js_or (get_prop tasks d) (JArr []) = JArr xs → no_id tid xs →
  patch_day tid patch (tasks, found) d s = (Normal (tasks, found), s).
Proof.
  intros Hd Hno. unfold patch_day. rewrite Hd.
  stepS (liftC_run (as_array (JArr xs)) s).
  rewrite (findIndex_id_none _ _ Hno).
  by stepS (liftC_run (Normal None) s).
Qed.

(** Patching a task.  Over a tasks file in which the days A and B are
    arrays or are missing: if no task of either day has the identifier,
    PATCH answers 404 and nothing changes (where DELETE answers
    [ok: true]); if the first task of day A with the identifier is at
    place [i], and day B has none, PATCH with a JSON object answers 200
    with the patched task, which is then at place [i] of day A in the
    file, stamped with the time of the server in [updatedAt] and holding
    for every other member the value sent, or its old value if none was
    sent. *)
Theorem tasks_patch_stamps_the_task tid bfs s fs a b :
  let w := world s in
  js_or (tasksFile s) default_days = JObj fs →
  js_or (assoc "A" fs) (JArr []) = JArr a →
  js_or (assoc "B" fs) (JArr []) = JArr b →
  no_id tid b →
  (no_id tid a →
   tasks_patch tid (JObj bfs) s
   = (Normal (error_reply 404 "task not found"), s))
  ∧ (∀ i, first_with_id tid a i → assoc "B" fs = JArr b →
       ∃ x s',
         tasks_patch tid (JObj bfs) s
         = (Normal {| status := 200;
                      body := JObj [("ok", JBool true); ("task", x)] |}, s')
         ∧ get_prop (tasksFile s') "A" = json_clone (JArr (<[i := x]> a))
         ∧ get_prop (tasksFile s') "B" = json_clone (JArr b)
         ∧ get_prop x "updatedAt" = JNum (clock w (ticks w))
         ∧ (∀ k, k ≠ "updatedAt" → k ≠ "__proto__" →
              get_prop x k
              = if has_key k bfs then assoc k bfs else get_prop (a !!! i) k)
         ∧ same_site_but TASKS_FILE s s').
Proof.
  intros w Hfile Ha Hb Hnob. split.
  - intros Hnoa. unfold tasks_patch. cbn [js_or truthy].
    stepS (loadTasks_run s). rewrite Hfile.
    stepS (patch_day_missing tid (JObj bfs) (JObj fs) JNull "A" a s Ha Hnoa).
    stepS (patch_day_missing tid (JObj bfs) (JObj fs) JNull "B" b s Hb Hnob).
    reflexivity.
  - intros i Hi HB. unfold tasks_patch. cbn [js_or truthy].
    destruct (first_with_id_object _ _ _ Hi) as (xfs & Hx & _).
    assert (HA : assoc "A" fs = JArr a).
    { apply js_or_array; [done|]. intros ->. destruct Hi as (Hi & _).
      simpl in Hi. lia. }
    stepS (loadTasks_run s). rewrite Hfile.
    stepS (patch_day_found tid (JObj bfs) fs JNull "A" a i xfs s HA Hi Hx).
    set (x := Object_assign (JObj xfs) _).
    assert (HB1 : js_or (get_prop (JObj (set_prop "A" (JArr (<[i := x]> a)) fs)) "B")
                    (JArr []) = JArr b).
    { cbn [get_prop]. by rewrite assoc_set_prop_ne. }
    stepS (patch_day_missing tid (JObj bfs) _ x "B" b _ HB1 Hnob).
    assert (Hxt : truthy x = true) by reflexivity.
    rewrite Hxt. cbn [negb].
    stepS (saveTasks_days _ (<[i := x]> a) b _
             (assoc_set_prop_eq _ _ _)
             (eq_trans (assoc_set_prop_ne "B" "A" _ fs ltac:(done)) HB)).
    stepS (liftW_logHistory "tasks.update" _
             (set_world _ (write_file _ _ (set_world _ s)))).
    exists x. eexists. split; [reflexivity|].
    cbn [tasksFile set_world write_file]. rewrite json_clone_obj.
    cbn [get_prop].
    split; [apply assoc_stored_members; [apply assoc_set_prop_eq|done]|].
    split; [apply assoc_stored_members;
            [by rewrite assoc_set_prop_ne|done]|].
    split.
    { subst x. rewrite get_prop_Object_assign by done. reflexivity. }
    split.
    { intros k Hk Hp. subst x. rewrite get_prop_Object_assign, Hx by done.
      apply String.eqb_neq in Hk. by rewrite Hk. }
    split; try reflexivity. by intros [].
Qed.

(** ** Backups *)


















(** ** Start-up defaults *)

















End CollectionsProofs.

(** * The reference instance meets the contracts *)

Lemma ref_Z_of_byte_of_Z z : Ref.Z_of_byte (Ref.byte_of_Z z) = z mod 256.
Proof.
  unfold Ref.Z_of_byte, Ref.byte_of_Z.
  pose proof (Z.mod_pos_bound z 256 ltac:(lia)) as Hz.
  destruct (Byte.of_N (Z.to_N (z mod 256))) as [b|] eqn:E.
  - apply Byte.to_of_N in E. simpl. rewrite E. lia.
  - apply Byte.of_N_None_iff in E. lia.
Qed.

Lemma ref_byte_of_Z_of_byte b : Ref.byte_of_Z (Ref.Z_of_byte b) = b.
Proof.
  unfold Ref.Z_of_byte, Ref.byte_of_Z.
  pose proof (Byte.to_N_bounded b) as Hb.
  rewrite Z.mod_small by lia. by rewrite N2Z.id, Byte.of_to_N.
Qed.

Lemma ref_byte_of_Z_mod z : Ref.byte_of_Z (z mod 256) = Ref.byte_of_Z z.
Proof. unfold Ref.byte_of_Z. by rewrite Z.mod_mod. Qed.

Lemma ref_unshift_shift k b : Ref.unshift k (Ref.shift k b) = b.
Proof.
  unfold Ref.unshift, Ref.shift. rewrite ref_Z_of_byte_of_Z.
  rewrite <- ref_byte_of_Z_mod, Zminus_mod_idemp_l, ref_byte_of_Z_mod.
  replace (Ref.Z_of_byte b + k - k) with (Ref.Z_of_byte b) by lia.
  apply ref_byte_of_Z_of_byte.
Qed.

Lemma ref_pbkdf2_contract : @pbkdf2_contract Ref.lib.
Proof.
  intros password salt iterations keylen _ _. eexists. split; [done|].
  unfold Ref.keystream. by rewrite length_map, length_seq.
Qed.

Lemma ref_gcm_contract : @gcm_contract Ref.lib.
Proof.
  intros key nonce plaintext Hkey _. simpl. unfold Ref.seal, Ref.open.
  rewrite decide_True by done. eexists _, _. split; [done|]. split.
  - unfold Ref.tag_of, Ref.keystream. by rewrite length_map, length_seq.
  - rewrite decide_True by done.
    rewrite decide_True
      by (unfold Ref.tag_of, Ref.keystream; by rewrite length_map, length_seq).
    rewrite decide_True by done.
    f_equal. rewrite <- list_fmap_compose.
    rewrite <- (list_fmap_id plaintext) at 2.
    apply list_fmap_ext. intros _ b _. apply ref_unshift_shift.
Qed.

Lemma ref_base64_contract : @base64_contract Ref.lib.
Proof. intros buf. apply list_byte_of_string_of_list_byte. Qed.

Lemma ref_gzip_contract : @gzip_contract Ref.lib.
Proof. intros buf z [= <-]. done. Qed.

Lemma ref_gzip_succeeds : @gzip_succeeds Ref.lib.
Proof. intros buf. by eexists. Qed.

Lemma ref_base64_nonempty : @base64_nonempty Ref.lib.
Proof. intros [|b buf] Hne; [done|]. discriminate. Qed.

Lemma ref_scrypt_contract : @scrypt_contract Ref.lib.
Proof.
  intros password salt keylen _. eexists. split; [done|].
  unfold Ref.keystream. by rewrite length_map, length_seq.
Qed.

Lemma ref_bcrypt_contract : @bcrypt_contract Ref.lib.
Proof.
  intros salt data _. split; [discriminate|].
  simpl. unfold Ref.compare, Ref.hash. apply String.eqb_refl.
Qed.

Lemma ref_after_app (a r : string) : Ref.after a (a +:+ r) = Some r.
Proof.
  unfold Ref.after.
  assert (Hp : String.prefix a (a +:+ r) = true).
  { induction a as [|c a IH]; simpl; [by destruct r|].
    destruct (ascii_dec c c); [done|congruence]. }
  rewrite Hp. f_equal. rewrite string_length_app.
  replace (String.length a + String.length r - String.length a)%nat
    with (String.length r) by lia.
  clear Hp. induction a as [|c a IH]; simpl; [|done].
  change ("" +:+ r) with r.
  induction r as [|c r IH]; simpl; [done|]. by rewrite IH.
Qed.

Lemma refauth_jwt_issues payload ttl : @jwt_issues RefAuth.jwt payload ttl.
Proof.
  intros secret clk n Hs. simpl. unfold RefAuth.sign.
  apply String.eqb_neq in Hs. rewrite Hs. eauto.
Qed.

Lemma refauth_jwt_contract : @jwt_contract Ref.lib RefAuth.jwt.
Proof.
  intros payload secret ttl clk n tok n' clk' m payload' m' Hjson Hs Hv k _ _.
  simpl in Hs, Hv. unfold RefAuth.sign in Hs.
  destruct (String.eqb secret ""); [done|]. injection Hs as <- <-.
  unfold RefAuth.verify, RefAuth.token in Hv. rewrite ref_after_app in Hv.
  unfold json_round_trip in Hjson. simpl in Hjson.
  rewrite Hjson in Hv. by injection Hv as <- _.
Qed.

(** * The statements on the reference instance *)

(** Counterexample to the rejection: on a fresh installation (profile
    client-only) a request with a title and a plaintext blob is answered
    200 with [ok: true]: it is not rejected. *)
Lemma plaintext_under_client_only_not_rejected :
  let blob := get_prop Ref.plaintext_request "blob" in
  let out := (@createNote Ref.lib Ref.plaintext_request Ref.fresh).1 in
  truthy (get_prop blob "plaintext") = true
  ∧ policy_of Ref.plaintext_request Ref.fresh = JStr "client-only"
  ∧ out = Normal (note_created (new_entry Ref.plaintext_request Ref.fresh))
  ∧ ¬ rejected out.
Proof.
  split; [reflexivity|]. split; [reflexivity|].
  split; [vm_compute; reflexivity|].
  vm_compute. intros Hle. by apply Hle.
Qed.

Lemma plaintext_under_client_only_witness :
  ∃ w',
    @createNote Ref.lib Ref.plaintext_request Ref.fresh
    = (Normal (note_created (new_entry Ref.plaintext_request Ref.fresh)), w')
    ∧ untouched Ref.fresh w'
    ∧ notesIndex w'
      = new_entry Ref.plaintext_request Ref.fresh :: notesIndex Ref.fresh
    ∧ metaFile w' = metaFile Ref.fresh
    ∧ historyLog w'
      = (historyLog Ref.fresh
         ++ [index_logged Ref.fresh;
             create_logged Ref.plaintext_request Ref.fresh
               (write_time Ref.fresh) (JStr "client-only")])%list.
Proof.
  apply (@plaintext_under_client_only_is_accepted Ref.lib
           Ref.plaintext_request Ref.fresh "n6f1d-0"); vm_compute; reflexivity.
Defined.

(** Counterexample to the all-or-nothing write: a server-assisted request
    whose plaintext is the number 42 fails in the [try] ([Buffer.from]
    throws on a number) and is answered 500, yet the index, empty before,
    holds the entry of the note. *)
Lemma failed_encryption_keeps_the_index_entry :
  let req := Ref.server_assisted_request (JNum 42) in
  let run := @createNote Ref.lib req Ref.fresh in
  run.1 = Normal encryption_failed
  ∧ notesIndex Ref.fresh = []
  ∧ notesIndex run.2 = [new_entry req Ref.fresh].
Proof. vm_compute. done. Qed.

Lemma failed_write_witness :
  let req := Ref.server_assisted_request (JNum 42) in
  let blob := get_prop req "blob" in
  ∃ out w',
    @createNote Ref.lib req Ref.fresh = (out, w')
    ∧ notesIndex w' = new_entry req Ref.fresh :: notesIndex Ref.fresh
    ∧ match out with
      | Normal r =>
          (r = note_created (new_entry req Ref.fresh)
           ∧ ∃ data, stored "n1" (write_time Ref.fresh) data Ref.fresh w')
          ∨ (r = encryption_failed ∧ untouched Ref.fresh w')
      | Throw _ => untouched Ref.fresh w'
      end
    ∧ (takes_plaintext blob (JStr "server-assisted") = true →
       @server_stage_fails Ref.lib blob Ref.fresh →
       out = Normal encryption_failed).
Proof.
  apply (@failed_write_leaves_no_version Ref.lib
           (Ref.server_assisted_request (JNum 42)) Ref.fresh "n1");
    vm_compute; reflexivity.
Defined.

(** Counterexample to retention under a tie: two client writes to note
    [n1] within one millisecond both succeed, and the note has one version
    file, not two: the file of the first write was replaced by that of the
    second. *)
Lemma colliding_timestamps_overwrite :
  let req1 := Ref.client_request "AAAA" "BBBB" in
  let req2 := Ref.client_request "CCCC" "DDDD" in
  let w1 := (@createNote Ref.lib req1 Ref.frozen).2 in
  let w2 := (@createNote Ref.lib req2 w1).2 in
  let f := file_at 1700000000000 in
  (∃ r, (@createNote Ref.lib req1 Ref.frozen).1 = Normal r ∧ status r = 200)
  ∧ (∃ r, (@createNote Ref.lib req2 w1).1 = Normal r ∧ status r = 200)
  ∧ size (version_files w1 "n1") = 1%nat
  ∧ size (version_files w2 "n1") = 1%nat
  ∧ is_Some (version_files w1 "n1" !! f)
  ∧ version_files w2 "n1" !! f ≠ version_files w1 "n1" !! f.
Proof.
  split; [eexists; split; [vm_compute; reflexivity|done]|].
  split; [eexists; split; [vm_compute; reflexivity|done]|].
  split; [vm_compute; reflexivity|].
  split; [vm_compute; reflexivity|].
  split; [vm_compute; eauto|].
  vm_compute. discriminate.
Qed.

Lemma writes_at_distinct_times_witness :
  let req1 := Ref.client_request "AAAA" "BBBB" in
  let req2 := Ref.client_request "CCCC" "DDDD" in
  let w1 := (@createNote Ref.lib req1 Ref.fresh).2 in
  let w2 := (@createNote Ref.lib req2 w1).2 in
  ∃ data1 data2,
    version_files w1 "n1" !! file_at (write_time Ref.fresh) = Some (File data1)
    ∧ version_files w2 "n1" !! file_at (write_time Ref.fresh)
      = Some (File data1)
    ∧ version_files w2 "n1" !! file_at (write_time w1) = Some (File data2)
    ∧ file_at (write_time Ref.fresh) ≠ file_at (write_time w1)
    ∧ (∀ f, f ≠ file_at (write_time Ref.fresh) →
            f ≠ file_at (write_time w1) →
            version_files w2 "n1" !! f = version_files Ref.fresh "n1" !! f)
    ∧ (∀ k, plain_name k = true → k ≠ "n1" →
            version_files w2 k = version_files Ref.fresh k).
Proof.
  apply (@writes_at_distinct_times_are_retained Ref.lib
           (Ref.client_request "AAAA" "BBBB") (Ref.client_request "CCCC" "DDDD")
           Ref.fresh "n1");
    first [ vm_compute; reflexivity | discriminate | vm_compute; lia ].
Defined.

Lemma aesGcm_round_trip_witness :
  let K := list_byte_of_string Ref.key32 in
  let P := list_byte_of_string "hello world" in
  ∃ sealed w',
    @aesGcmEncrypt Ref.lib K P Ref.fresh = (Normal sealed, w')
    ∧ @aesGcmDecrypt Ref.lib K (JStr (ciphertext sealed)) (JStr (iv sealed))
      = Normal P.
Proof.
  apply (@aesGcm_round_trip Ref.lib).
  - exact ref_gcm_contract.
  - exact ref_base64_contract.
  - reflexivity.
Defined.



Lemma listVersions_newest_first_witness :
  @listVersions Ref.lib "n1" Ref.three_versions
  = (Normal
       {| status := 200;
          body :=
            JObj [("versions",
                   JArr [JObj [("filename", JStr "1700000000003.json.gz");
                               ("ts", JNum 1700000000003);
                               ("meta", JObj [("revision", JNum 3)])];
                         JObj [("filename", JStr "1700000000002.json.gz");
                               ("ts", JNum 1700000000002);
                               ("meta", JObj [("revision", JNum 2)])];
                         JObj [("filename", JStr "1700000000001.json.gz");
                               ("ts", JNum 1700000000001);
                               ("meta", JObj [("revision", JNum 1)])]])] |},
     Ref.three_versions).
Proof.
  apply (@listVersions_newest_first Ref.lib "n1" Ref.three_versions
           1700000000001 1700000000002 1700000000003
           (Ref.stored_bytes (Ref.listed_doc 1))
           (Ref.stored_bytes (Ref.listed_doc 2))
           (Ref.stored_bytes (Ref.listed_doc 3))).
  - reflexivity.
  - unfold epoch_ms. lia.
  - unfold epoch_ms. lia.
  - lia.
  - lia.
  - reflexivity.
  - left. exists (Ref.listed_doc 1). split; [|reflexivity].
    eexists. split; [reflexivity|]. vm_compute. reflexivity.
  - left. exists (Ref.listed_doc 2). split; [|reflexivity].
    eexists. split; [reflexivity|]. vm_compute. reflexivity.
  - left. exists (Ref.listed_doc 3). split; [|reflexivity].
    eexists. split; [reflexivity|]. vm_compute. reflexivity.
Defined.

(** Counterexample to the order by time: three versions written around
    9 September 2001, at 999999999998, 999999999999 and 1000000000000
    milliseconds.  The name of the newest is the first in the order of
    strings, so it is listed last, not first. *)
Lemma listing_across_a_width_change :
  let t1 := 999999999998 in
  let t2 := 999999999999 in
  let t3 := 1000000000000 in
  let summary (t n : Z) :=
    JObj [("filename", JStr (file_at t)); ("ts", JNum t);
          ("meta", JObj [("revision", JNum n)])] in
  t1 < t2 ∧ t2 < t3
  ∧ version_files Ref.width_change "n1"
    = <[file_at t1 := File (Ref.stored_bytes (Ref.listed_doc 1))]>
        (<[file_at t2 := File (Ref.stored_bytes (Ref.listed_doc 2))]>
           {[file_at t3 := File (Ref.stored_bytes (Ref.listed_doc 3))]})
  ∧ (@listVersions Ref.lib "n1" Ref.width_change).1
    = Normal {| status := 200;
                body := JObj [("versions",
                               JArr [summary t2 2; summary t1 1;
                                     summary t3 3])] |}.
Proof.
  split; [lia|]. split; [lia|]. split; [reflexivity|].
  vm_compute. reflexivity.
Qed.

Lemma setup_pin_witness :
  (∃ t w',
     @setup_pin Ref.lib (JObj [("pin", JStr "123456")]) Ref.fresh
     = (Normal {| status := 200;
                  body := JObj [("ok", JBool true);
                                ("message", JStr "PIN created")] |}, w')
     ∧ pinHash (metaFile w')
       = JStr (@bcrypt_hash Ref.lib (next_salt Ref.fresh) "123456" 12)
     ∧ createdAt (metaFile w') = createdAt (metaFile Ref.fresh)
     ∧ version (metaFile w') = version (metaFile Ref.fresh)
     ∧ encryptionProfile (metaFile w') = encryptionProfile (metaFile Ref.fresh)
     ∧ historyLog w'
       = (historyLog Ref.fresh
          ++ [{| h_ts := t; h_action := "auth.setupPin";
                 h_payload :=
                   JObj [("createdAt",
                          JNum (clock Ref.fresh (ticks Ref.fresh)))] |}])%list
     ∧ notesIndex w' = notesIndex Ref.fresh
     ∧ blobs w' = blobs Ref.fresh)
  ∧ (∃ out,
       @setup_pin Ref.lib
         (JObj [("pin", JStr "654321"); ("currentPin", JStr "000000")])
         Ref.locked = (out, Ref.locked)
       ∧ rejected out).
Proof.
  split.
  - apply (proj1 (@setup_pin_first_then_guarded Ref.lib
                    (JObj [("pin", JStr "123456")]) Ref.fresh) "123456");
      [reflexivity|vm_compute; lia|reflexivity].
  - apply (proj2 (@setup_pin_first_then_guarded Ref.lib
                    (JObj [("pin", JStr "654321"); ("currentPin", JStr "000000")])
                    Ref.locked)).
    + vm_compute. reflexivity.
    + intros (d & h & Hd & Hh & Hcmp). vm_compute in Hd, Hh.
      injection Hd as <-. injection Hh as <-. vm_compute in Hcmp. discriminate.
Defined.

Lemma deriveKeyFromPin_witness :
  (∃ key,
     @deriveKeyFromPin Ref.lib (JStr "123456") Ref.fresh
     = (Normal key, Ref.fresh)
     ∧ length key = 32%nat
     ∧ @pbkdf2 Ref.lib "123456" (list_byte_of_string "TheHaydenSphereSaltV3")
         200000 32 "sha256"
       = Normal key)
  ∧ ∃ e, @deriveKeyFromPin Ref.lib (JNum 12345678) Ref.fresh
         = (Throw e, Ref.fresh).
Proof.
  split.
  - exact (@deriveKeyFromPin_derives_32_bytes Ref.lib (JStr "123456") Ref.fresh
             ref_pbkdf2_contract).
  - exact (@deriveKeyFromPin_derives_32_bytes Ref.lib (JNum 12345678) Ref.fresh
             ref_pbkdf2_contract).
Defined.

(** Counterexample to a key for every secret: the number 12345678, sent as
    the pin of a derive request, gets no key.  PBKDF2 refuses a number,
    the promise is rejected, and the route answers 500. *)
Lemma deriveKeyFromPin_refuses_a_number :
  let secret := JNum 12345678 in
  (¬ ∃ key, (@deriveKeyFromPin Ref.lib secret Ref.fresh).1 = Normal key)
  ∧ (@enc_derive Ref.lib (JObj [("pin", secret)]) Ref.fresh).1
    = Normal {| status := 500;
                body := JObj [("error", JStr "derive failed")] |}.
Proof.
  split; [|reflexivity]. intros [key Hkey]. vm_compute in Hkey. discriminate.
Qed.

Lemma deriveKeyFromPin_deterministic_witness :
  ∃ out,
    @deriveKeyFromPin Ref.lib (JStr "123456") Ref.fresh = (out, Ref.fresh)
    ∧ @deriveKeyFromPin Ref.lib (JStr "123456") Ref.three_versions
      = (out, Ref.three_versions)
    ∧ ∃ key, out = Normal key ∧ length key = 32%nat
             ∧ @pbkdf2 Ref.lib "123456"
                 (list_byte_of_string "TheHaydenSphereSaltV3") 200000 32
                 "sha256"
               = Normal key.
Proof.
  exact (@deriveKeyFromPin_deterministic Ref.lib (JStr "123456")
           Ref.fresh Ref.three_versions ref_pbkdf2_contract).
Defined.

(** Counterexample to one key for every PIN value: for the PIN [true]
    there is no key, at either of two invocations. *)
Lemma deriveKeyFromPin_no_key_for_true :
  let pin := JBool true in
  ¬ ∃ key,
      (@deriveKeyFromPin Ref.lib pin Ref.fresh).1 = Normal key
      ∧ (@deriveKeyFromPin Ref.lib pin Ref.locked).1 = Normal key
      ∧ length key = 32%nat.
Proof. intros pin (key & Hkey & _). vm_compute in Hkey. discriminate. Qed.

Lemma hybrid_stores_the_client_payload_witness :
  let fields := Ref.client_fields "AAAA" "BBBB" in
  let doc (mode : string) :=
    JObj [("ciphertext", JStr "AAAA"); ("iv", JStr "BBBB");
          ("meta",
           JObj [("iv", JStr "BBBB");
                 ("checksum", JStr (@sha256_hex Ref.lib "AAAA"));
                 ("mode", JStr mode); ("meta", JObj [])])] in
  ∃ wh wc,
    @createNote Ref.lib (JObj (("encryptionMode", JStr "hybrid") :: fields))
      Ref.fresh
    = (Normal (note_created (new_entry (JObj fields) Ref.fresh)), wh)
    ∧ @createNote Ref.lib
        (JObj (("encryptionMode", JStr "client-only") :: fields)) Ref.fresh
      = (Normal (note_created (new_entry (JObj fields) Ref.fresh)), wc)
    ∧ version_files wh "n1"
      = <[file_at (write_time Ref.fresh)
          := File (Ref.stored_bytes (doc "hybrid"))]>
          (version_files Ref.fresh "n1")
    ∧ version_files wc "n1"
      = <[file_at (write_time Ref.fresh)
          := File (Ref.stored_bytes (doc "client-only"))]>
          (version_files Ref.fresh "n1")
    ∧ (∀ k, plain_name k = true → k ≠ "n1" →
            version_files wh k = version_files Ref.fresh k
            ∧ version_files wc k = version_files Ref.fresh k).
Proof.
  apply (@hybrid_stores_the_client_payload Ref.lib
           (Ref.client_fields "AAAA" "BBBB") Ref.fresh "n1" "AAAA");
    first [ vm_compute; reflexivity | discriminate
          | vm_compute; discriminate ].
Defined.

(** ** The further statements on the reference instance *)

Lemma enc_encrypt_then_decrypt_witness :
  let payload := JObj [("a", JNum 1)] in
  let req := JObj [("keyBase64", JStr Ref.key32); ("payload", payload)] in
  ∃ ct nonce w',
    @enc_encrypt Ref.lib req Ref.fresh
    = (Normal (@encrypted_reply Ref.lib ct nonce), w')
    ∧ ∀ w2,
        @enc_decrypt Ref.lib
          (JObj [("keyBase64", JStr Ref.key32); ("ciphertext", JStr ct);
                 ("iv", JStr nonce)]) w2
        = (Normal (decrypted_reply payload), w2).
Proof.
  apply (@enc_encrypt_then_decrypt Ref.lib
           (JObj [("keyBase64", JStr Ref.key32);
                  ("payload", JObj [("a", JNum 1)])])
           Ref.key32 (JObj [("a", JNum 1)]) (JObj [("a", JNum 1)]) Ref.fresh);
    first [ exact ref_gcm_contract | exact ref_base64_contract
          | exact ref_base64_nonempty | exact ref_gzip_contract
          | exact ref_gzip_succeeds | discriminate | vm_compute; reflexivity ].
Defined.

Lemma enc_derive_answers_witness :
  let req := JObj [("pin", JStr "123456")] in
  let pin := JStr "123456" in
  ∃ r,
    @enc_derive Ref.lib req Ref.fresh = (Normal r, Ref.fresh)
    ∧ (truthy pin = false → r = error_reply 400 "pin required")
    ∧ (∀ s, pin = JStr s → s ≠ EmptyString →
         ∃ key, length key = 32%nat ∧ r = @derived_reply Ref.lib key
                ∧ @pbkdf2 Ref.lib s PIN_SALT PBKDF2_ITERATIONS 32 "sha256"
                  = Normal key)
    ∧ (truthy pin = true → (∀ s, pin ≠ JStr s) →
         r = error_reply 500 "derive failed").
Proof.
  apply (@enc_derive_answers Ref.lib (JObj [("pin", JStr "123456")]) Ref.fresh).
  exact ref_pbkdf2_contract.
Defined.

Lemma client_write_then_download_witness :
  let req := Ref.client_request "AAAA" "BBBB" in
  ∃ w',
    @createNote Ref.lib req Ref.fresh
    = (Normal (note_created (new_entry req Ref.fresh)), w')
    ∧ @downloadVersion Ref.lib "n1" (file_at (write_time Ref.fresh)) w'
      = (Normal
           {| status := 200;
              body :=
                JObj [("ciphertext", JStr "AAAA"); ("iv", JStr "BBBB");
                      ("meta",
                       JObj [("iv", JStr "BBBB");
                             ("checksum", JStr (@sha256_hex Ref.lib "AAAA"));
                             ("mode", JStr "client-only");
                             ("meta", JObj [])])] |},
         w').
Proof.
  apply (@client_write_then_download Ref.lib (Ref.client_request "AAAA" "BBBB")
           Ref.fresh "n1" "AAAA");
    first [ exact ref_gzip_contract | exact ref_gzip_succeeds
          | vm_compute; reflexivity | vm_compute; discriminate ].
Defined.

Lemma server_assisted_blob_opens_witness :
  let req := Ref.server_assisted_request (JStr "hello") in
  ∃ w' key ct nonce data gz,
    @createNote Ref.lib req Ref.fresh
    = (Normal (note_created (new_entry req Ref.fresh)), w')
    ∧ version_files w' "n1"
      = <[file_at (write_time Ref.fresh) := File data]>
          (version_files Ref.fresh "n1")
    ∧ (∀ k, plain_name k = true → k ≠ "n1" →
            version_files w' k = version_files Ref.fresh k)
    ∧ @gzipSync Ref.lib
        (list_byte_of_string
           (@JSON_stringify Ref.lib
              (JObj [("ciphertext", JStr ct); ("iv", JStr nonce);
                     ("meta",
                      JObj [("iv", JStr nonce);
                            ("checksum", JStr (@sha256_hex Ref.lib ct));
                            ("mode", JStr "server-assisted");
                            ("meta", JObj [])])])))
      = Normal data
    ∧ @scryptSync Ref.lib (JWT_SECRET Ref.fresh) "server-key-salt-v3" 32
      = Normal key
    ∧ @aesGcmDecrypt Ref.lib key (JStr ct) (JStr nonce) = Normal gz
    ∧ @gunzipSync Ref.lib gz = Normal (list_byte_of_string "hello").
Proof.
  apply (@server_assisted_blob_opens Ref.lib
           (Ref.server_assisted_request (JStr "hello")) Ref.fresh "n1" "hello");
    first [ exact ref_scrypt_contract | exact ref_gcm_contract
          | exact ref_base64_contract | exact ref_gzip_contract
          | exact ref_gzip_succeeds | discriminate | vm_compute; reflexivity
          | vm_compute; discriminate ].
Defined.

Lemma deleteNote_removes_the_note_witness :
  ∃ w',
    @deleteNote "n1" Ref.three_versions
    = (Normal {| status := 200; body := JObj [("ok", JBool true)] |}, w')
    ∧ (∀ e, e ∈ notesIndex w'
            ↔ e ∈ notesIndex Ref.three_versions ∧ n_id e ≠ JStr "n1")
    ∧ sublist (notesIndex w') (notesIndex Ref.three_versions)
    ∧ blobs w' !! "n1" = None
    ∧ (∀ k, plain_name k = true → k ≠ "n1" →
            blobs w' !! k = blobs Ref.three_versions !! k)
    ∧ metaFile w' = metaFile Ref.three_versions
    ∧ @listVersions Ref.lib "n1" w'
      = (Normal {| status := 404;
                   body := JObj [("error", JStr "no versions")] |}, w')
    ∧ ∀ f, plain_name f = true →
           @downloadVersion Ref.lib "n1" f w'
           = (Normal {| status := 404;
                        body := JObj [("error", JStr "not found")] |}, w').
Proof.
  apply (@deleteNote_removes_the_note Ref.lib "n1" Ref.three_versions).
  reflexivity.
Defined.

Lemma listVersions_lists_every_file_witness :
  let dir : gmap string Entry :=
    <[file_at 1700000000001 := File [x01]]> {["versions" := Directory]} in
  let files : gmap string Entry :=
    <[file_at 1700000000001 := File [x01]]> ∅ in
  let w := set_blobs {[ "n1" := Some files ]} Ref.fresh in
  (∃ e, @listVersions Ref.lib "n1" Ref.with_directory
        = (Throw e, Ref.with_directory))
  ∧ ∃ names versions,
      @listVersions Ref.lib "n1" w
      = (Normal {| status := 200;
                   body := JObj [("versions", JArr versions)] |}, w)
      ∧ NoDup names
      ∧ (∀ f, f ∈ names ↔ is_Some (files !! f))
      ∧ length names = size files
      ∧ Sorted (flip str_le) names
      ∧ Forall2
          (λ f v,
             ∃ ts m,
               v = JObj [("filename", JStr f); ("ts", ts); ("meta", m)]
               ∧ (∀ t, 0 < t < 2 ^ 53 → f = file_at t → ts = JNum t)
               ∧ ∀ data, files !! f = Some (File data) →
                   (∀ doc, @reads_as Ref.lib data doc → m = listed_meta doc)
                   ∧ (@unreadable Ref.lib data → m = JNull))
          names versions.
Proof.
  intros dir files w. split.
  - apply (proj2 (@listVersions_lists_every_file Ref.lib "n1"
                    Ref.with_directory dir eq_refl eq_refl) "versions").
    reflexivity.
  - apply (proj1 (@listVersions_lists_every_file Ref.lib "n1" w files
                    eq_refl eq_refl)).
    intros f Hf. apply lookup_insert_Some in Hf as [[_ [=]]|[_ Hf]].
    by rewrite lookup_empty in Hf.
Defined.

Lemma client_write_then_list_witness :
  let req := Ref.client_request "AAAA" "BBBB" in
  let t := write_time Ref.fresh in
  ∃ w' versions,
    @createNote Ref.lib req Ref.fresh
    = (Normal (note_created (new_entry req Ref.fresh)), w')
    ∧ @listVersions Ref.lib "n1" w'
      = (Normal {| status := 200;
                   body := JObj [("versions", JArr versions)] |}, w')
    ∧ JObj [("filename", JStr (file_at t)); ("ts", JNum t);
            ("meta",
             JObj [("iv", JStr "BBBB");
                   ("checksum", JStr (@sha256_hex Ref.lib "AAAA"));
                   ("mode", JStr "client-only"); ("meta", JObj [])])]
      ∈ versions
    ∧ (version_files Ref.fresh "n1" !! file_at t = None →
       length versions = S (size (version_files Ref.fresh "n1"))).
Proof.
  apply (@client_write_then_list Ref.lib (Ref.client_request "AAAA" "BBBB")
           Ref.fresh "n1" "AAAA");
    first [ exact ref_gzip_contract | exact ref_gzip_succeeds
          | vm_compute; reflexivity | vm_compute; split; reflexivity
          | intros f; vm_compute; discriminate ].
Defined.

Lemma setup_pin_changes_witness :
  let req := JObj [("pin", JStr "654321"); ("currentPin", JStr "123456")] in
  ∃ t w',
    @setup_pin Ref.lib req Ref.locked
    = (Normal {| status := 200;
                 body := JObj [("ok", JBool true);
                               ("message", JStr "PIN changed")] |}, w')
    ∧ length (next_salt Ref.locked) = 16%nat
    ∧ pinHash (metaFile w')
      = JStr (@bcrypt_hash Ref.lib (next_salt Ref.locked) "654321" 12)
    ∧ createdAt (metaFile w') = createdAt (metaFile Ref.locked)
    ∧ version (metaFile w') = version (metaFile Ref.locked)
    ∧ encryptionProfile (metaFile w') = encryptionProfile (metaFile Ref.locked)
    ∧ historyLog w'
      = (historyLog Ref.locked
         ++ [{| h_ts := t; h_action := "auth.changePin";
                h_payload :=
                  JObj [("ts", JNum (clock Ref.locked (ticks Ref.locked)))] |}])%list
    ∧ notesIndex w' = notesIndex Ref.locked
    ∧ blobs w' = blobs Ref.locked.
Proof.
  apply (@setup_pin_changes_with_the_current_pin Ref.lib
           (JObj [("pin", JStr "654321"); ("currentPin", JStr "123456")])
           Ref.locked "654321").
  - reflexivity.
  - vm_compute. lia.
  - reflexivity.
  - reflexivity.
  - eexists _, _. split; [reflexivity|]. split; vm_compute; reflexivity.
Defined.

Lemma pin_set_then_login_witness :
  let w1 := (@setup_pin Ref.lib (JObj [("pin", JStr "123456")]) Ref.fresh).2 in
  let h := @bcrypt_hash Ref.lib (next_salt Ref.fresh) "123456" 12 in
  pinHash (metaFile w1) = JStr h
  ∧ (∃ access rfr w2,
       @login Ref.lib RefAuth.jwt RefAuth.env (JObj [("pin", JStr "123456")]) w1
       = (Normal {| status := 200;
                    body := JObj [("accessToken", JStr access);
                                  ("refreshToken", JStr rfr);
                                  ("expiresIn",
                                   JStr (@ACCESS_TOKEN_TTL RefAuth.env))] |},
          w2))
  ∧ ∀ s', s' ≠ EmptyString → @bcrypt_compare Ref.lib s' h = false →
      @login Ref.lib RefAuth.jwt RefAuth.env (JObj [("pin", JStr s')]) w1
      = (Normal (error_reply 403 "invalid pin"), w1).
Proof.
  apply (@pin_set_then_login Ref.lib RefAuth.jwt RefAuth.env "123456" Ref.fresh);
    first [ exact ref_bcrypt_contract | apply refauth_jwt_issues
          | discriminate | vm_compute; lia | reflexivity ].
Defined.

Lemma requireAuth_witness :
  let tok := RefAuth.token (JWT_SECRET Ref.locked) access_payload in
  let next := reply 200 (JObj [("ok", JBool true)]) in
  @requireAuth RefAuth.jwt (Some ("Bearer " +:+ tok)) next Ref.locked
  = next (set_ticks 1 Ref.locked).
Proof.
  intros tok next.
  apply (proj1 (@requireAuth_admits_bearer_tokens_only RefAuth.jwt
                  (Some ("Bearer " +:+ tok)) Ref.locked) tok access_payload 1%nat);
    first [ reflexivity | vm_compute; reflexivity | discriminate ].
Defined.

Lemma refresh_refuses_access_tokens_witness :
  let run := @login Ref.lib RefAuth.jwt RefAuth.env
               (JObj [("pin", JStr "123456")]) Ref.locked in
  let access := RefAuth.token (JWT_SECRET Ref.locked) access_payload in
  ∃ r' w3,
    @refresh RefAuth.jwt RefAuth.env (JObj [("refreshToken", JStr access)])
      Ref.fresh
    = (Normal r', w3)
    ∧ (status r' = 400 ∨ status r' = 403)
    ∧ same_files Ref.fresh w3.
Proof.
  intros run access.
  refine (@refresh_refuses_access_tokens Ref.lib RefAuth.jwt RefAuth.env
            (JObj [("pin", JStr "123456")]) Ref.locked
            {| status := 200;
               body := JObj [("accessToken", JStr access);
                             ("refreshToken",
                              JStr (RefAuth.token (JWT_SECRET Ref.locked)
                                      refresh_payload));
                             ("expiresIn", JStr "1h")] |}
            run.2 refauth_jwt_contract _ _ _ Ref.fresh _).
  - vm_compute. reflexivity.
  - change (run = (Normal
                     {| status := 200;
                        body := JObj [("accessToken", JStr access);
                                      ("refreshToken",
                                       JStr (RefAuth.token (JWT_SECRET Ref.locked)
                                               refresh_payload));
                                      ("expiresIn", JStr "1h")] |}, run.2)).
    rewrite (surjective_pairing run) at 1. f_equal.
  - reflexivity.
  - reflexivity.
Defined.

Lemma createNote_needs_a_string_id_witness :
  let req := JObj [("id", JNum 5); ("title", JStr "diary")] in
  ∃ e w',
    @createNote Ref.lib req Ref.fresh = (Throw e, w')
    ∧ notesIndex w' = new_entry req Ref.fresh :: notesIndex Ref.fresh
    ∧ historyLog w' = (historyLog Ref.fresh ++ [index_logged Ref.fresh])%list
    ∧ blobs w' = blobs Ref.fresh
    ∧ metaFile w' = metaFile Ref.fresh.
Proof.
  apply (@createNote_needs_a_string_id Ref.lib
           (JObj [("id", JNum 5); ("title", JStr "diary")]) Ref.fresh);
    first [ reflexivity | discriminate ].
Defined.

(** ** The collections on the example site *)

Lemma first_with_id_here (cid : string) (x : jsval) (xs : list jsval) :
  get_prop x "id" = JStr cid → first_with_id cid (x :: xs) 0.
Proof. intros Hx. split; [simpl; lia|]. split; [done|]. intros j Hj. lia. Qed.

Lemma first_with_id_next (cid : string) (x : jsval) (xs : list jsval) i :
  x ≠ JNull → x ≠ JUndefined → get_prop x "id" ≠ JStr cid →
  first_with_id cid xs i → first_with_id cid (x :: xs) (S i).
Proof.
  intros Hn Hu Hx (Hi & Hid & Hb). split; [simpl; lia|]. split; [done|].
  intros [|j] Hj; [done|]. apply Hb. lia.
Qed.

Lemma no_id_nil (cid : string) : no_id cid [].
Proof. by intros x Hx%elem_of_nil. Qed.

Lemma writeJson_then_readJson_witness :
  let v := JObj [("a", JArr [JNum 1; JUndefined]); ("b", JUndefined)] in
  ∃ s',
    writeJson COURSES_FILE v RefSite.home = (Normal tt, s')
    ∧ readJson COURSES_FILE s' = (Normal (JObj [("a", JArr [JNum 1; JNull])]), s')
    ∧ writeJson COURSES_FILE (json_clone v) s' = (Normal tt, s')
    ∧ (∀ g, g ≠ COURSES_FILE → read_file g s' = read_file g RefSite.home)
    ∧ world s' = world RefSite.home ∧ backupDir s' = backupDir RefSite.home.
Proof.
  apply (writeJson_then_readJson COURSES_FILE
           (JObj [("a", JArr [JNum 1; JUndefined]); ("b", JUndefined)])
           RefSite.home).
  discriminate.
Defined.

Lemma courses_post_then_get_witness :
  let req := JObj [("name", JStr "Topology"); ("url", JStr "https://example.org/t")] in
  let c := JObj [("id", JStr "c6f1d-0"); ("name", JStr "Topology");
                 ("url", JStr "https://example.org/t"); ("notes", JStr "");
                 ("tags", JArr []); ("createdAt", JNum 1700000000000)] in
  ∃ s',
    courses_post req RefSite.home
    = (Normal {| status := 200;
                 body := JObj [("ok", JBool true); ("course", c)] |}, s')
    ∧ coursesFile s' = json_clone (JArr (c :: RefSite.courses))
    ∧ courses_get s'
      = (Normal {| status := 200;
                   body := JObj [("courses",
                                  json_clone (JArr (c :: RefSite.courses)))] |},
         s')
    ∧ historyLog (world s')
      = [logged 1700000000001 "courses.update" (JObj [("count", JNum 3)]);
         logged 1700000000002 "courses.create"
           (JObj [("id", JStr "c6f1d-0")])]
    ∧ same_site_but COURSES_FILE RefSite.home s'.
Proof.
  apply (courses_post_then_get
           (JObj [("name", JStr "Topology");
                  ("url", JStr "https://example.org/t")])
           RefSite.home RefSite.courses); reflexivity.
Defined.

Lemma courses_delete_witness :
  ∃ s',
    courses_delete "c2" RefSite.home = (Normal ok_reply, s')
    ∧ coursesFile s' = JArr [RefSite.course "c1" "Logic"]
    ∧ same_site_but COURSES_FILE RefSite.home s'.
Proof.
  destruct (courses_delete_removes_the_first_match "c2" RefSite.home
              RefSite.courses eq_refl) as [Hfound _].
  destruct (Hfound 1%nat) as (s' & E & Hf & _ & Hsame).
  { apply first_with_id_next; [discriminate..|].
    by apply first_with_id_here. }
  exists s'. split; [exact E|]. split; [exact Hf|exact Hsame].
Defined.

Lemma courses_patch_witness :
  let bfs := [("name", JStr "Linear algebra"); ("updatedAt", JNum 5)] in
  ∃ c s',
    courses_patch "c2" (JObj bfs) RefSite.home
    = (Normal {| status := 200;
                 body := JObj [("ok", JBool true); ("course", c)] |}, s')
    ∧ coursesFile s' = json_clone (JArr (<[1%nat := c]> RefSite.courses))
    ∧ get_prop c "updatedAt" = JNum 1700000000000
    ∧ (∀ k, k ≠ "updatedAt" → k ≠ "__proto__" →
         get_prop c k
         = if has_key k bfs then assoc k bfs
           else get_prop (RefSite.courses !!! 1%nat) k)
    ∧ same_site_but COURSES_FILE RefSite.home s'.
Proof.
  apply (courses_patch_stamps_the_course "c2"
           [("name", JStr "Linear algebra"); ("updatedAt", JNum 5)]
           RefSite.home RefSite.courses 1); [reflexivity|].
  apply first_with_id_next; [discriminate..|]. by apply first_with_id_here.
Defined.

Lemma courses_post_then_delete_witness :
  let req := JObj [("name", JStr "Topology");
                   ("url", JStr "https://example.org/t")] in
  ∃ r s1 s2,
    courses_post req RefSite.home = (Normal r, s1)
    ∧ get_prop (get_prop (body r) "course") "id" = JStr "c6f1d-0"
    ∧ courses_delete "c6f1d-0" s1 = (Normal ok_reply, s2)
    ∧ coursesFile s2 = JArr RefSite.courses.
Proof.
  apply (courses_post_then_delete
           (JObj [("name", JStr "Topology");
                  ("url", JStr "https://example.org/t")])
           RefSite.home RefSite.courses); reflexivity.
Defined.

Lemma topics_add_child_witness :
  let child := JObj [("id", JStr "st6f1d-0"); ("name", JStr "Book");
                     ("notes", JStr ""); ("tags", JArr [])] in
  ∃ t' s',
    topics_add_child "t1" (JObj [("name", JStr "Book")]) RefSite.home
    = (Normal {| status := 200;
                 body := JObj [("ok", JBool true); ("child", child)] |}, s')
    ∧ topicsFile s' = json_clone (JArr [t'])
    ∧ get_prop t' "children" = JArr [child]
    ∧ (∀ k, k ≠ "children" →
         get_prop t' k = get_prop (RefSite.topic "t1" "Reading list") k)
    ∧ same_site_but TOPICS_FILE RefSite.home s'.
Proof.
  destruct (topics_add_child_appends "t1" (JObj [("name", JStr "Book")])
              RefSite.home RefSite.topics eq_refl) as [_ Hfound].
  destruct (Hfound 0%nat) as [_ Hnamed]; [by apply first_with_id_here|].
  exact (Hnamed eq_refl [] eq_refl).
Defined.

Lemma topics_post_then_add_child_witness :
  let child := JObj [("id", JStr "st6f1d-1"); ("name", JStr "Sets");
                     ("notes", JStr ""); ("tags", JArr [])] in
  ∃ r s1 s2 t,
    topics_post (JObj [("name", JStr "Maths")]) RefSite.blank = (Normal r, s1)
    ∧ get_prop (get_prop (body r) "topic") "id" = JStr "t6f1d-0"
    ∧ get_prop (get_prop (body r) "topic") "children" = JArr []
    ∧ topics_add_child "t6f1d-0" (JObj [("name", JStr "Sets")]) s1
      = (Normal {| status := 200;
                   body := JObj [("ok", JBool true); ("child", child)] |}, s2)
    ∧ topicsFile s2 = json_clone (JArr [t])
    ∧ get_prop t "id" = JStr "t6f1d-0"
    ∧ get_prop t "name" = JStr "Maths"
    ∧ get_prop t "children" = JArr [child].
Proof.
  apply (topics_post_then_add_child (JObj [("name", JStr "Maths")])
           (JObj [("name", JStr "Sets")]) RefSite.blank []); reflexivity.
Defined.

Lemma tasks_delete_witness :
  let left := [RefSite.task "k2" "News Study"] in
  ∃ s',
    tasks_delete "k1" RefSite.home = (Normal ok_reply, s')
    ∧ get_prop (tasksFile s') "A" = json_clone (JArr left)
    ∧ get_prop (tasksFile s') "B" = json_clone (JArr [])
    ∧ historyLog (world s')
      = ([] ++ [logged 1700000000000 "tasks.update"
                  (JObj [("counts", JObj [("A", JNum 1); ("B", JNum 0)])]);
                logged 1700000000001 "tasks.delete"
                  (JObj [("taskId", JStr "k1")])])%list
    ∧ (∀ day,
         let d := if js_is_string day "B" then "B" else "A" in
         tasks_get day s'
         = (Normal {| status := 200;
                      body := JObj [("day", JStr d);
                                    ("tasks",
                                     json_clone
                                       (JArr (if js_is_string day "B"
                                              then [] else left)))] |}, s'))
    ∧ same_site_but TASKS_FILE RefSite.home s'.
Proof.
  apply (tasks_delete_always_answers_ok "k1" RefSite.home RefSite.days
           [RefSite.task "k1" "Reading"; RefSite.task "k2" "News Study"] []
           [RefSite.task "k2" "News Study"] []);
    try reflexivity.
  - left. exists 0%nat. split; [by apply first_with_id_here|reflexivity].
  - right. split; [apply no_id_nil|reflexivity].
Defined.

Lemma tasks_patch_witness :
  let bfs := [("done", JBool true)] in
  let a := [RefSite.task "k1" "Reading"; RefSite.task "k2" "News Study"] in
  ∃ x s',
    tasks_patch "k2" (JObj bfs) RefSite.home
    = (Normal {| status := 200;
                 body := JObj [("ok", JBool true); ("task", x)] |}, s')
    ∧ get_prop (tasksFile s') "A" = json_clone (JArr (<[1%nat := x]> a))
    ∧ get_prop (tasksFile s') "B" = json_clone (JArr [])
    ∧ get_prop x "updatedAt" = JNum 1700000000000
    ∧ (∀ k, k ≠ "updatedAt" → k ≠ "__proto__" →
         get_prop x k
         = if has_key k bfs then assoc k bfs else get_prop (a !!! 1%nat) k)
    ∧ same_site_but TASKS_FILE RefSite.home s'.
Proof.
  destruct (tasks_patch_stamps_the_task "k2" [("done", JBool true)]
              RefSite.home RefSite.days
              [RefSite.task "k1" "Reading"; RefSite.task "k2" "News Study"] []
              eq_refl eq_refl eq_refl (no_id_nil "k2")) as [_ Hfound].
  apply (Hfound 1%nat); [|reflexivity].
  apply first_with_id_next; [discriminate..|]. by apply first_with_id_here.
Defined.



